(** * polymer-bundler: the flattening engine of [src/vulcan.ts]

    A shallow embedding of [Vulcan.prototype] (policy predicates, tree
    surgery helpers, [flatten], [inlineScripts], [getImplicitExcludes] and
    the stages of [_process]) together with the properties of the design
    document that talk about them.

    The markup tree is the parse5 tree that dom5 manipulates: nodes are
    objects with a [parentNode] back reference and a [childNodes] array.
    It is modelled as an arena: a heap of node records addressed by their
    index, a node reference being a [nat]. Creating a node appends a record
    to the heap; nothing is ever freed. *)

From Stdlib Require Import ZArith String Ascii Bool.
From stdpp Require Import base option list gmap strings.

Local Open Scope string_scope.
Local Open Scope list_scope.
Local Open Scope nat_scope.

(** ** Exceptions and results *)

(** What a JavaScript call can end with: a value, or a thrown exception.
    [TypeError] is the dereference of [null]/[undefined], [RangeError] the
    stack overflow of an unbounded recursion, [Error] carries a message.
    [Diverges] stands for a [while] loop that never ends (a cyclic chain of
    parents), which is not an exception but yields no value either. *)
Inductive Err : Type :=
| TypeError
| RangeError
| Diverges
| Error (message : string).

Inductive Res (A : Type) : Type :=
| Ok (a : A)
| Throw (e : Err).
Arguments Ok {A} a.
Arguments Throw {A} e.

#[global] Instance Res_ret : MRet Res := fun A a => Ok a.
#[global] Instance Res_bind : MBind Res := fun A B k r =>
  match r with
  | Ok a => k a
  | Throw e => Throw e
  end.

(** ** Strings as the code uses them *)

Definition lower_ascii (c : ascii) : ascii :=
  let n := nat_of_ascii c in
  if (65 <=? n) && (n <=? 90) then ascii_of_nat (n + 32) else c.

(** [String.prototype.toLowerCase] on the characters the model has. *)
Fixpoint toLowerCase (s : string) : string :=
  match s with
  | EmptyString => EmptyString
  | String c s' => String (lower_ascii c) (toLowerCase s')
  end.

(** The characters the regular expression class [\s] accepts. *)
Definition is_space (c : ascii) : bool :=
  let n := nat_of_ascii c in
  ((9 <=? n) && (n <=? 13)) || (n =? 32) || (n =? 160).

(** [!/\S/.test(s)]: no character of [s] is outside [\s]. *)
Fixpoint no_nonspace (s : string) : bool :=
  match s with
  | EmptyString => true
  | String c s' => is_space c && no_nonspace s'
  end.

(** [s.indexOf(t) > -1]. *)
Definition includes (t s : string) : bool :=
  match String.index 0 t s with
  | Some _ => true
  | None => false
  end.

(** A JavaScript string used as a condition: falsy when empty. *)
Definition truthy_string (s : string) : bool :=
  negb (String.eqb s "").

(** A possibly absent string used as a condition. *)
Definition truthy (v : option string) : bool :=
  match v with
  | Some s => truthy_string s
  | None => false
  end.

(** The line terminators, which the regular expression [.] refuses. *)
Definition is_line_terminator (c : ascii) : bool :=
  let n := nat_of_ascii c in (n =? 10) || (n =? 13).

(** [s.match(/.suf$/)] for a literal [suf]: [s] ends with [suf] and some
    character other than a line terminator stands right before it. *)
Definition match_any_then_suffix (suf s : string) : bool :=
  let n := String.length s in
  let m := String.length suf in
  (m + 1 <=? n) && String.eqb (substring (n - m) m s) suf &&
  match String.get (n - m - 1) s with
  | Some c => negb (is_line_terminator c)
  | None => false
  end.

(** [s.slice(-1)]. *)
Definition slice_last (s : string) : string :=
  substring (String.length s - 1) 1 s.


(** ** Arrays *)

(** [Array.prototype.indexOf]: the first position of [x], or [-1]. *)
Fixpoint indexOf (x : nat) (l : list nat) : Z :=
  match l with
  | [] => (-1)%Z
  | y :: l' =>
      if Nat.eqb y x then 0%Z
      else let r := indexOf x l' in
           if (r <? 0)%Z then (-1)%Z else (r + 1)%Z
  end.

(** [a[i]] for an integer index: [undefined] out of range. *)
Definition at_index (l : list nat) (i : Z) : option nat :=
  if (i <? 0)%Z then None else l !! Z.to_nat i.

(** The start position [Array.prototype.splice] computes from its first
    argument: negative positions count from the end. *)
Definition splice_start (start : Z) (len : nat) : nat :=
  if (start <? 0)%Z then Z.to_nat (Z.max (Z.of_nat len + start) 0)
  else Nat.min (Z.to_nat start) len.

(** [l.splice(start, del, ...items)], the array afterwards. *)
Definition splice (start : Z) (del : nat) (items l : list nat) : list nat :=
  let s := splice_start start (length l) in
  take s l ++ items ++ drop (s + del) l.

(** ** Nodes and the heap *)

Inductive NodeKind : Type :=
| KDocument
| KFragment
| KElement
| KText
| KComment.

#[global] Instance NodeKind_eq_dec : EqDecision NodeKind.
Proof. solve_decision. Defined.

(** A parse5 node. [tagName] is meaningful for elements, [text] is the
    [value] of a text node and the [data] of a comment. [inlined] is the
    [__hydrolysisInlined] mark the analyzer leaves on a script. *)
Record Node : Type := mkNode {
  kind : NodeKind;
  tagName : string;
  attrs : list (string * string);
  text : string;
  parentNode : option nat;
  childNodes : list nat;
  inlined : option string
}.

Definition blank_node : Node :=
  mkNode KText "" [] "" None [] None.

#[global] Instance Node_inhabited : Inhabited Node := populate blank_node.

Abbreviation Heap := (list Node).

Definition set_parentNode (p : option nat) (n : Node) : Node :=
  mkNode (kind n) (tagName n) (attrs n) (text n) p (childNodes n) (inlined n).

Definition set_childNodes (cs : list nat) (n : Node) : Node :=
  mkNode (kind n) (tagName n) (attrs n) (text n) (parentNode n) cs (inlined n).

Definition set_attrs (a : list (string * string)) (n : Node) : Node :=
  mkNode (kind n) (tagName n) a (text n) (parentNode n) (childNodes n) (inlined n).

Definition set_text (t : string) (n : Node) : Node :=
  mkNode (kind n) (tagName n) (attrs n) t (parentNode n) (childNodes n) (inlined n).

(** [ns.forEach(function(n) { n.parentNode = parent; })] *)
Definition set_parents (parent : nat) (ns : list nat) (h : Heap) : Heap :=
  foldl (fun h' n => alter (set_parentNode (Some parent)) n h') h ns.

(** What a node carries besides its place in the tree. *)
Definition payload (n : Node) :=
  (kind n, tagName n, attrs n, text n, inlined n).

(** Allocation: the new node gets the next free index. *)
Definition alloc (n : Node) (h : Heap) : nat * Heap :=
  (length h, h ++ [n]).

(** ** dom5

    The operations of the dom5 library that the engine calls, on the heap.
    A document fragment given to [append], [insertBefore] or [replace]
    stands for its children: they are moved and the fragment is left
    empty. Names of tags and of attributes are compared without regard to
    case. *)

Module dom5.

Definition isDocumentFragment (n : Node) : bool :=
  bool_decide (kind n = KFragment).
Definition isElement (n : Node) : bool :=
  bool_decide (kind n = KElement).
Definition isTextNode (n : Node) : bool :=
  bool_decide (kind n = KText).
Definition isCommentNode (n : Node) : bool :=
  bool_decide (kind n = KComment).

Definition hasTagName (name : string) (n : Node) : bool :=
  isElement n && String.eqb (toLowerCase (tagName n)) (toLowerCase name).

Definition AND (p q : Node -> bool) (n : Node) : bool := p n && q n.
Definition OR (p q : Node -> bool) (n : Node) : bool := p n || q n.
Definition NOT (p : Node -> bool) (n : Node) : bool := negb (p n).

(** Attributes *)

Fixpoint getAttributeIndex (a : list (string * string)) (name : string)
  : option nat :=
  match a with
  | [] => None
  | (k, _) :: a' =>
      if String.eqb (toLowerCase k) (toLowerCase name) then Some 0
      else S <$> getAttributeIndex a' name
  end.

Definition hasAttribute (n : Node) (name : string) : bool :=
  bool_decide (is_Some (getAttributeIndex (attrs n) name)).

Definition getAttribute (n : Node) (name : string) : option string :=
  i ← getAttributeIndex (attrs n) name; snd <$> attrs n !! i.

Definition setAttribute (e : nat) (name value : string) (h : Heap) : Heap :=
  alter (fun n =>
    match getAttributeIndex (attrs n) name with
    | Some i => set_attrs (alter (fun kv => (fst kv, value)) i (attrs n)) n
    | None => set_attrs (attrs n ++ [(name, value)]) n
    end) e h.

Definition removeAttribute (e : nat) (name : string) (h : Heap) : Heap :=
  alter (fun n =>
    match getAttributeIndex (attrs n) name with
    | Some i => set_attrs (delete i (attrs n)) n
    | None => n
    end) e h.

(** Constructors *)

Definition newElement (tag : string) : Node :=
  mkNode KElement tag [] "" None [] None.
Definition newDocumentFragment : Node :=
  mkNode KFragment "" [] "" None [] None.
Definition newTextNode (value : string) : Node :=
  mkNode KText "" [] value None [] None.

Module constructors.
Definition element (tag : string) (h : Heap) : nat * Heap :=
  alloc (newElement tag) h.
Definition fragment (h : Heap) : nat * Heap :=
  alloc newDocumentFragment h.
End constructors.

(** Tree walks. The recursion of dom5 follows [childNodes]; on a tree it
    ends, on a cyclic structure it overflows the stack. The fuel bounds the
    depth: a path longer than the heap repeats a node. *)

Fixpoint first_match (f : nat -> Res (option nat)) (cs : list nat)
  : Res (option nat) :=
  match cs with
  | [] => Ok None
  | c :: cs' =>
      match f c with
      | Ok None => first_match f cs'
      | r => r
      end
  end.

Fixpoint nodeWalk_fuel (fuel : nat) (h : Heap) (predicate : Node -> bool)
  (node : nat) : Res (option nat) :=
  match fuel with
  | 0 => Throw RangeError
  | S fuel' =>
      if predicate (h !!! node) then Ok (Some node)
      else first_match (nodeWalk_fuel fuel' h predicate)
             (childNodes (h !!! node))
  end.

Fixpoint all_matches (f : nat -> Res (list nat)) (cs : list nat)
  : Res (list nat) :=
  match cs with
  | [] => Ok []
  | c :: cs' =>
      l ← f c; r ← all_matches f cs'; Ok (l ++ r)
  end.

Fixpoint nodeWalkAll_fuel (fuel : nat) (h : Heap) (predicate : Node -> bool)
  (node : nat) : Res (list nat) :=
  match fuel with
  | 0 => Throw RangeError
  | S fuel' =>
      r ← all_matches (nodeWalkAll_fuel fuel' h predicate)
            (childNodes (h !!! node));
      Ok (if predicate (h !!! node) then node :: r else r)
  end.

Definition nodeWalk (h : Heap) (node : nat) (predicate : Node -> bool)
  : Res (option nat) :=
  nodeWalk_fuel (S (length h)) h predicate node.

Definition nodeWalkAll (h : Heap) (node : nat) (predicate : Node -> bool)
  : Res (list nat) :=
  nodeWalkAll_fuel (S (length h)) h predicate node.

Definition query (h : Heap) (node : nat) (predicate : Node -> bool)
  : Res (option nat) :=
  nodeWalk h node (AND isElement predicate).

Definition queryAll (h : Heap) (node : nat) (predicate : Node -> bool)
  : Res (list nat) :=
  nodeWalkAll h node (AND isElement predicate).

(** Text content *)

Definition getTextContent (h : Heap) (node : nat) : Res string :=
  let n := h !!! node in
  if isCommentNode n then Ok (text n)
  else if isTextNode n then Ok (text n)
  else
    l ← nodeWalkAll h node isTextNode;
    Ok (foldr (fun t acc => String.append (text (h !!! t)) acc) "" l).

Definition setTextContent (node : nat) (value : string) (h : Heap) : Heap :=
  let n := h !!! node in
  if isCommentNode n then alter (set_text value) node h
  else if isTextNode n then alter (set_text value) node h
  else
    let '(tn, h1) := alloc (set_parentNode (Some node) (newTextNode value)) h in
    alter (set_childNodes [tn]) node h1.

(** Mutation *)

Definition remove (node : nat) (h : Heap) : Heap :=
  let h1 :=
    match parentNode (h !!! node) with
    | Some parent =>
        let idx := indexOf node (childNodes (h !!! parent)) in
        alter (fun p => set_childNodes (splice idx 1 [] (childNodes p)) p)
          parent h
    | None => h
    end in
  alter (set_parentNode None) node h1.

Definition insertNode (parent : nat) (index : Z) (newNode : nat)
  (replace : bool) (h : Heap) : Heap :=
  let '(newNodes, h1) :=
    if isDocumentFragment (h !!! newNode)
    then (childNodes (h !!! newNode), alter (set_childNodes []) newNode h)
    else ([newNode], remove newNode h) in
  let removedNode :=
    if replace then at_index (childNodes (h1 !!! parent)) index else None in
  let h2 :=
    alter (fun p =>
      set_childNodes
        (splice index (if replace then 1 else 0) newNodes (childNodes p)) p)
      parent h1 in
  let h3 := set_parents parent newNodes h2 in
  match removedNode with
  | Some r => alter (set_parentNode None) r h3
  | None => h3
  end.

Definition append (parent newNode : nat) (h : Heap) : Heap :=
  insertNode parent (Z.of_nat (length (childNodes (h !!! parent))))
    newNode false h.

Definition insertBefore (parent oldNode newNode : nat) (h : Heap) : Heap :=
  insertNode parent (indexOf oldNode (childNodes (h !!! parent)))
    newNode false h.

(** [replace] reads [oldNode.parentNode.childNodes], which throws on a
    detached node. *)
Definition replace (oldNode newNode : nat) (h : Heap) : Res Heap :=
  match parentNode (h !!! oldNode) with
  | Some parent =>
      Ok (insertNode parent (indexOf oldNode (childNodes (h !!! parent)))
            newNode true h)
  | None => Throw TypeError
  end.

End dom5.

(** ** The collaborators of the engine

    [matchers], [constants], the path resolver, the string encoder, the
    loader and the analyzer are not part of [vulcan.ts]; the engine is
    parameterised by them. *)

Module matchers.
Record t : Type := mk {
  head : Node -> bool;
  body : Node -> bool;
  meta : Node -> bool;
  polymerElement : Node -> bool;
  polymerExternalStyle : Node -> bool;
  JS_SRC : Node -> bool;
  JS_INLINE : Node -> bool
}.
End matchers.

Module constants.
Record t : Type := mk {
  (** [EXTERNAL_URL.test(s)] *)
  EXTERNAL_URL : string -> bool;
  OLD_POLYMER : string
}.
End constants.

Module PathResolver.
Record t : Type := mk {
  urlToPath : option string -> string;
  (** [acid(doc, docUrl)] rewrites the document in place. *)
  acid : nat -> option string -> Heap -> Heap;
  (** [resolvePaths(importDoc, importUrl, mainDocUrl)], in place too. *)
  resolvePaths : nat -> option string -> option string -> Heap -> Heap
}.
End PathResolver.

(** The import tree the analyzer hands over: [tree.href], [tree.html.ast],
    [tree.html.import] and [tree.imports]. An edge the analyzer has met
    before carries no [href] (and nothing else). *)
Record Html : Type := mkHtml {
  ast : nat;
  import : list nat
}.

#[warnings="-register-all"]
Inductive ImportTree : Type :=
| mkImportTree (href : option string) (html : option Html)
    (imports : option (list ImportTree)).

Definition href (t : ImportTree) : option string :=
  match t with mkImportTree x _ _ => x end.
Definition html (t : ImportTree) : option Html :=
  match t with mkImportTree _ x _ => x end.
Definition imports (t : ImportTree) : option (list ImportTree) :=
  match t with mkImportTree _ _ x => x end.

(** The fields of a [Vulcan] instance the engine reads. [excludes] and
    [stripExcludes] are always arrays (the constructor sees to it). *)
Module Vulcan.
Record t : Type := mk {
  implicitStrip : bool;
  abspath : option string;
  addedImports : list string;
  excludes : list string;
  stripExcludes : list string;
  stripComments : bool;
  enableCssInlining : bool;
  enableScriptInlining : bool;
  inputUrl : string;
  redirects : list string
}.
End Vulcan.

(** What [String(v)] gives for a possibly [undefined] string. *)
Definition to_js_string (v : option string) : string :=
  match v with
  | Some s => s
  | None => "undefined"
  end.

(** [l.length === 0] *)
Definition is_empty {A} (l : list A) : bool :=
  match l with [] => true | _ => false end.

(** ** Policy predicates *)

Section Policy.

(** [href.search(r)]: the position of the first match of the pattern [r]
    in [href], or [-1]. *)
Variable search : string -> string -> Z.
Variable K : constants.t.

Definition isDuplicateImport (importMeta : ImportTree) : bool :=
  negb (truthy (href importMeta)).

(** [patterns.some(function(r) { return href.search(r) >= 0; })]; the
    callback throws when [href] is [undefined]. *)
Definition some_search (patterns : list string) (href : option string)
  : Res bool :=
  match patterns with
  | [] => Ok false
  | _ :: _ =>
      match href with
      | Some s => Ok (existsb (fun r => (0 <=? search s r)%Z) patterns)
      | None => Throw TypeError
      end
  end.

Definition isExcludedHref (this : Vulcan.t) (href : option string)
  : Res bool :=
  if constants.EXTERNAL_URL K (to_js_string href) then Ok true
  else some_search (Vulcan.excludes this) href.

Definition isExcludedImport (this : Vulcan.t) (importMeta : ImportTree)
  : Res bool :=
  isExcludedHref this (href importMeta).

Definition isStrippedImport (this : Vulcan.t) (importMeta : ImportTree)
  : Res bool :=
  if is_empty (Vulcan.stripExcludes this) then Ok false
  else some_search (Vulcan.stripExcludes this) (href importMeta).

End Policy.

(** ** Tree surgery helpers *)

Definition isBlankTextNode (h : Heap) (node : option nat) : bool :=
  match node with
  | Some n =>
      dom5.isTextNode (h !!! n) &&
      match dom5.getTextContent h n with
      | Ok s => no_nonspace s
      | Throw _ => false
      end
  | None => false
  end.

Definition hasOldPolymer (M : matchers.t) (h : Heap) (doc : nat) : Res bool :=
  r ← dom5.query h doc (matchers.polymerElement M);
  Ok (bool_decide (is_Some r)).

(** [if (this.isBlankTextNode(next)) { dom5.remove(next); }] *)
Definition remove_if_blank (next : option nat) (h : Heap) : Heap :=
  if isBlankTextNode h next
  then match next with
       | Some nx => dom5.remove nx h
       | None => h
       end
  else h.

Definition removeElementAndNewline (node : option nat)
  (replacement : option nat) (h : Heap) : Res Heap :=
  match node with
  | None => Throw TypeError
  | Some node =>
      match parentNode (h !!! node) with
      | None => Throw TypeError
      | Some parent =>
          let nextIdx := (indexOf node (childNodes (h !!! parent)) + 1)%Z in
          let next := at_index (childNodes (h !!! parent)) nextIdx in
          let h1 := remove_if_blank next h in
          match replacement with
          | Some r => dom5.replace node r h1
          | None => Ok (dom5.remove node h1)
          end
      end
  end.

Definition isLicenseComment (h : Heap) (node : nat) : bool :=
  if dom5.isCommentNode (h !!! node) then
    match dom5.getTextContent h node with
    | Ok s => includes "@license" s
    | Throw _ => false
    end
  else false.

Definition moveToBodyMatcher (M : matchers.t) : Node -> bool :=
  dom5.AND
    (dom5.OR (dom5.hasTagName "script") (dom5.hasTagName "link"))
    (dom5.NOT (matchers.polymerExternalStyle M)).

(** [while(node) { ... node = node.parentNode; }]: the fuel bounds the
    length of the chain of parents. *)
Fixpoint ancestorWalk_fuel (fuel : nat) (h : Heap) (node : option nat)
  (target : nat) : Res bool :=
  match node with
  | None => Ok false
  | Some n =>
      if Nat.eqb n target then Ok true
      else match fuel with
           | 0 => Throw Diverges
           | S fuel' =>
               ancestorWalk_fuel fuel' h (parentNode (h !!! n)) target
           end
  end.

Definition ancestorWalk (h : Heap) (node : option nat) (target : nat)
  : Res bool :=
  ancestorWalk_fuel (length h) h node target.

Fixpoint isTemplated_fuel (fuel : nat) (h : Heap) (node : option nat)
  : Res bool :=
  match node with
  | None => Ok false
  | Some n =>
      if dom5.isDocumentFragment (h !!! n) then Ok true
      else match fuel with
           | 0 => Throw Diverges
           | S fuel' => isTemplated_fuel fuel' h (parentNode (h !!! n))
           end
  end.

Definition isTemplated (h : Heap) (node : option nat) : Res bool :=
  isTemplated_fuel (length h) h node.

(** The hidden container: [<div hidden by-vulcanize>]. *)
Definition new_hidden_div (h : Heap) : nat * Heap :=
  let '(d, h1) := dom5.constructors.element "div" h in
  let h2 := dom5.setAttribute d "hidden" "" h1 in
  (d, dom5.setAttribute d "by-vulcanize" "" h2).

Definition hide (node : option nat) (h : Heap) : Res Heap :=
  let '(hidden, h1) := new_hidden_div h in
  h2 ← removeElementAndNewline node (Some hidden) h1;
  match node with
  | Some n => Ok (dom5.append hidden n h2)
  | None => Throw TypeError
  end.

Definition prepend (parent : option nat) (node : nat) (h : Heap) : Res Heap :=
  match parent with
  | None => Throw TypeError
  | Some parent =>
      match childNodes (h !!! parent) with
      | first :: _ => Ok (dom5.insertBefore parent first node h)
      | [] => Ok (dom5.append parent node h)
      end
  end.

Definition fixFakeExternalScripts (M : matchers.t) (doc : nat) (h : Heap)
  : Res Heap :=
  scripts ← dom5.queryAll h doc (matchers.JS_INLINE M);
  Ok (foldl (fun h' script =>
        match inlined (h' !!! script) with
        | Some src =>
            if truthy_string src
            then dom5.setTextContent script ""
                   (dom5.setAttribute script "src" src h')
            else h'
        | None => h'
        end) h scripts).

(** ** The flattening engine *)

Section Flatten.

Variable search : string -> string -> Z.
Variable K : constants.t.
Variable M : matchers.t.
Variable pathResolver : PathResolver.t.
Variable this : Vulcan.t.

(** [head.childNodes.filter(this.moveToBodyMatcher).forEach(...)] *)
Fixpoint move_to_target (moveTarget : nat) (ns : list nat) (h : Heap)
  : Res Heap :=
  match ns with
  | [] => Ok h
  | n :: ns' =>
      h1 ← removeElementAndNewline (Some n) None h;
      move_to_target moveTarget ns' (dom5.append moveTarget n h1)
  end.

(** [ns.forEach(this.reparent(newParent))] *)
Definition reparent (newParent : nat) (ns : list nat) (h : Heap) : Heap :=
  set_parents newParent ns h.

(** The end of an iteration of the import loop: the import site is
    hidden in the main document, unless it already is, and then replaced
    by the merged fragment. *)
Definition place_import (isMainDoc : bool) (moveTarget : nat)
  (thisImport : option nat) (bodyFragment : nat) (h : Heap) : Res Heap :=
  inside ←
    (if isMainDoc
     then ancestorWalk h thisImport moveTarget
     else Ok false);
  h' ← (if isMainDoc && negb inside
        then hide thisImport h else Ok h);
  removeElementAndNewline thisImport (Some bodyFragment) h'.

(** The part of an iteration of the import loop that merges the import:
    from [const bodyFragment = ...] to the end of the loop body.
    [flatten_rec] is the recursive call [this.flatten(im)]. *)
Definition merge_import (flatten_rec : ImportTree -> Heap -> Res (nat * Heap))
  (tree_href : option string) (isMainDoc : bool) (moveTarget : nat)
  (im : ImportTree) (thisImport : option nat) (h : Heap) : Res Heap :=
  let '(bodyFragment, h1) := dom5.constructors.fragment h in
  '(importDoc, h2) ← flatten_rec im h1;
  let h3 := PathResolver.resolvePaths pathResolver importDoc (href im)
              tree_href h2 in
  importHead ← dom5.query h3 importDoc (matchers.head M);
  importBody ← dom5.query h3 importDoc (matchers.body M);
  match importHead, importBody with
  | Some importHead, Some importBody =>
      let importHeadChildren := childNodes (h3 !!! importHead) in
      let importBodyChildren := childNodes (h3 !!! importBody) in
      match parentNode (h3 !!! importHead) with
      | None => Throw TypeError
      | Some importHtml =>
          let licenseComments :=
            filter (fun n => isLicenseComment h3 n = true)
              (childNodes (h3 !!! importDoc) ++
               childNodes (h3 !!! importHtml)) in
          let h4 := reparent bodyFragment importHeadChildren h3 in
          let h5 := reparent bodyFragment importBodyChildren h4 in
          let h6 :=
            alter (fun f =>
              set_childNodes
                (childNodes f ++ licenseComments ++ importHeadChildren ++
                 importBodyChildren) f) bodyFragment h5 in
          place_import isMainDoc moveTarget thisImport bodyFragment h6
      end
  | _, _ => Throw TypeError
  end.

(** One iteration of [for (let i = 0, ...; i < imports.length; i++)],
    with [im = imports[i]] and [thisImport = importNodes[i]]. *)
Definition flatten_import (flatten_rec : ImportTree -> Heap -> Res (nat * Heap))
  (tree_href : option string) (isMainDoc : bool) (moveTarget : nat)
  (im : ImportTree) (thisImport : option nat) (h : Heap) : Res Heap :=
  elide ←
    (if isDuplicateImport im then Ok true
     else isStrippedImport search this im);
  if elide : bool then removeElementAndNewline thisImport None h
  else
    excluded ← isExcludedImport search K this im;
    if excluded : bool then Ok h
    else
      templated ← isTemplated h thisImport;
      if templated : bool then Ok h
      else merge_import flatten_rec tree_href isMainDoc moveTarget
             im thisImport h.

(** [for (let i = 0, im, thisImport; i < imports.length; i++)]: [body]
    is the loop body, given [im = imports[i]] and
    [thisImport = importNodes[i]]; [ims] are the edges from [i] on. *)
Definition import_loop
  (body : ImportTree -> option nat -> Heap -> Res Heap)
  (importNodes : list nat)
  : list ImportTree -> nat -> Heap -> Res Heap :=
  fix loop (ims : list ImportTree) (i : nat) (h : Heap) {struct ims}
    : Res Heap :=
    match ims with
    | [] => Ok h
    | im :: rest =>
        h' ← body im (importNodes !! i) h;
        loop rest (S i) h'
    end.

Fixpoint flatten (tree : ImportTree) (isMainDoc : bool) (h : Heap)
  {struct tree} : Res (nat * Heap) :=
  match tree with
  | mkImportTree tree_href tree_html tree_imports =>
      match tree_html with
      | None => Throw TypeError
      | Some tree_html =>
          let doc := ast tree_html in
          let importNodes := import tree_html in
          head ← dom5.query h doc (matchers.head M);
          body ← dom5.query h doc (matchers.body M);
          old ← hasOldPolymer M h doc;
          if old : bool then
            Throw (Error (String.append (constants.OLD_POLYMER K)
                     (String.append " File: "
                        (PathResolver.urlToPath pathResolver tree_href))))
          else
            h1 ← fixFakeExternalScripts M doc h;
            let h2 := PathResolver.acid pathResolver doc tree_href h1 in
            let '(moveTarget, h3) :=
              if isMainDoc then new_hidden_div h2
              else dom5.constructors.fragment h2 in
            match head with
            | None => Throw TypeError
            | Some head =>
                h4 ← move_to_target moveTarget
                       (filter (fun n => moveToBodyMatcher M (h3 !!! n) = true)
                          (childNodes (h3 !!! head))) h3;
                h5 ← prepend body moveTarget h4;
                h6 ←
                  match tree_imports with
                  | None => Ok h5
                  | Some ims =>
                      import_loop
                        (flatten_import (fun t => flatten t false)
                           tree_href isMainDoc moveTarget)
                        importNodes ims 0 h5
                  end;
                Ok (doc,
                    if isMainDoc && is_empty (childNodes (h6 !!! moveTarget))
                    then dom5.remove moveTarget h6
                    else h6)
            end
      end
  end.

End Flatten.

(** ** Inlining of scripts *)

Module Loader.
Record t : Type := mk {
  (** [loader.request(uri)]: the promise is rejected ([Throw]) or
      resolves to a content, which may be absent or empty. *)
  request : string -> Res (option string)
}.
End Loader.

Section InlineScripts.

Variable search : string -> string -> Z.
Variable K : constants.t.
Variable M : matchers.t.
Variable loader : Loader.t.
(** [url.resolve(from, to)] of Node.js, on two strings. *)
Variable url_resolve : string -> string -> string.
(** [encodeString] of [third_party/UglifyJS2/output]. *)
Variable encodeString : string -> string.
Variable this : Vulcan.t.

(** The synchronous part of the callback given to [scripts.map]: it
    yields the request to wait for, or nothing for an excluded script. *)
Definition script_request (h : Heap) (href : option string) (script : nat)
  : Res (option (nat * string)) :=
  match dom5.getAttribute (h !!! script) "src", href with
  | Some src, Some href =>
      let uri := url_resolve href src in
      excluded ← isExcludedHref search K this (Some src);
      Ok (if excluded : bool then None else Some (script, uri))
  | _, _ => Throw TypeError
  end.

(** The callback given to [then] for the content of one script. *)
Definition script_loaded (script : nat) (content : option string)
  (h : Heap) : Heap :=
  match content with
  | Some c =>
      if truthy_string c then
        dom5.setTextContent script (encodeString c)
          (dom5.removeAttribute script "src" h)
      else h
  | None => h
  end.

(** One script from request to completion. *)
Definition script_settle (task : option (nat * string)) (h : Heap)
  : Res Heap :=
  match task with
  | None => Ok h
  | Some (script, uri) =>
      content ← Loader.request loader uri;
      Ok (script_loaded script content h)
  end.

Fixpoint map_requests (h : Heap) (href : option string) (scripts : list nat)
  : Res (list (option (nat * string))) :=
  match scripts with
  | [] => Ok []
  | s :: scripts' =>
      t ← script_request h href s;
      ts ← map_requests h href scripts';
      Ok (t :: ts)
  end.

Fixpoint settle_all (tasks : list (option (nat * string))) (h : Heap)
  : Res Heap :=
  match tasks with
  | [] => Ok h
  | t :: tasks' => h' ← script_settle t h; settle_all tasks' h'
  end.

(** [inlineScripts(doc, href)]. Every request is issued first, against
    the document as it stands; each answer then rewrites its own script
    element. The answers are taken in the order of the requests. *)
Definition inlineScripts (doc : nat) (href : option string) (h : Heap)
  : Res Heap :=
  scripts ← dom5.queryAll h doc (matchers.JS_SRC M);
  tasks ← map_requests h href scripts;
  settle_all tasks h.

End InlineScripts.

(** ** Implicit excludes *)

(** The analyzer object, by the two methods the engine calls. In the source
    both [getImplicitExcludes] and [_process] obtain it with
    [const analyzer = new analyzer.Analyzer(true, loader)], an initialiser
    that refers to the constant it declares; the model starts from an
    analyzer that exists. *)
Module Analyzer.
Record t : Type := mk {
  (** [analyzer.metadataTree(target)]: the import tree, and the heap that
      holds the documents it has parsed. *)
  metadataTree : string -> Res (ImportTree * Heap);
  (** [analyzer._getDependencies(url)] *)
  _getDependencies : string -> Res (list string)
}.
End Analyzer.

Section ImplicitExcludes.

Variable analyzer : Analyzer.t.

(** The three early returns of the [forEach] callback. *)
Definition skipped_exclude (exclude : string) : bool :=
  match_any_then_suffix "js" exclude
  || match_any_then_suffix "css" exclude
  || String.eqb (slice_last exclude) "/".

(** [depPromise.catch(...)]: a failure gets the excluded URL appended to
    its message. *)
Definition dependencies_of (exclude : string) : Res (list string) :=
  match Analyzer._getDependencies analyzer exclude with
  | Ok deps => Ok deps
  | Throw (Error msg) =>
      Throw (Error (String.append msg
        (String.append ". Could not read dependencies for excluded URL: "
           exclude)))
  | Throw e => Throw e
  end.

(** [Promise.all(analyzedExcludes)] *)
Fixpoint promise_all (ps : list (Res (list string)))
  : Res (list (list string)) :=
  match ps with
  | [] => Ok []
  | p :: ps' => x ← p; xs ← promise_all ps'; Ok (x :: xs)
  end.

(** The object [dedupe], from string keys to [true]. *)
Definition dedupe_all (strippedExcludes : list (list string))
  : gmap string bool :=
  foldl (fun dedupe excludeList =>
           foldl (fun d exclude => <[exclude := true]> d) dedupe excludeList)
    ∅ strippedExcludes.

(** [getImplicitExcludes(excludes)]; the keys of [dedupe] come in the
    order of the map, not in the order JavaScript enumerates them. *)
Definition getImplicitExcludes (excludes : list string)
  : Res (list string) :=
  let analyzedExcludes :=
    map dependencies_of
      (filter (fun e => skipped_exclude e = false) excludes) in
  strippedExcludes ← promise_all analyzedExcludes;
  Ok (map fst (map_to_list (dedupe_all strippedExcludes))).

End ImplicitExcludes.

(** ** Comments *)

(** Modelled from the spec: the [CommentMap] of [./comment-map], which is
    not part of [vulcan.ts]. The design document describes it as a mapping
    from comment text to the first comment node met with that text, in the
    order of first insertion: [set(text, node)] inserts only if [text] is
    unseen, [keys()] returns the keys in first-insertion order. *)
Module CommentMap.
Abbreviation t := (list (string * nat)).
Definition empty : t := [].
Definition get (m : t) (key : string) : option nat :=
  snd <$> List.find (fun kv => String.eqb (fst kv) key) m.
Definition has (m : t) (key : string) : bool :=
  bool_decide (is_Some (get m key)).
Definition set (key : string) (node : nat) (m : t) : t :=
  if has m key then m else m ++ [(key, node)].
Definition keys (m : t) : list string := map fst m.
End CommentMap.

(** ** The stages of [_process] *)

Section Process.

Variable search : string -> string -> Z.
Variable K : constants.t.
Variable M : matchers.t.
Variable pathResolver : PathResolver.t.
Variable loader : Loader.t.
Variable url_resolve : string -> string -> string.
Variable encodeString : string -> string.
Variable analyzer : Analyzer.t.
(** [inlineCss(doc, href)], the stylesheet stage, which none of the
    properties below looks into. *)
Variable inlineCss : nat -> option string -> Heap -> Res Heap.
(** [dom5.serialize(doc)] *)
Variable serialize : Heap -> nat -> string.

(** The first stage: [this.stripExcludes.push(strippedExclude)] for every
    implicit exclude. The stage changes the instance. *)
Definition implicit_stage (this : Vulcan.t) : Res Vulcan.t :=
  if Vulcan.implicitStrip this then
    implicitExcludes ← getImplicitExcludes analyzer (Vulcan.excludes this);
    Ok (Vulcan.mk (Vulcan.implicitStrip this) (Vulcan.abspath this)
          (Vulcan.addedImports this) (Vulcan.excludes this)
          (Vulcan.stripExcludes this ++ implicitExcludes)
          (Vulcan.stripComments this) (Vulcan.enableCssInlining this)
          (Vulcan.enableScriptInlining this) (Vulcan.inputUrl this)
          (Vulcan.redirects this))
  else Ok this.

(** The loop over [this.addedImports]. *)
Fixpoint add_imports (head : option nat) (added : list string) (h : Heap)
  : Res Heap :=
  match added with
  | [] => Ok h
  | url :: added' =>
      let '(newImport, h1) := dom5.constructors.element "link" h in
      let h2 := dom5.setAttribute newImport "rel" "import" h1 in
      let h3 := dom5.setAttribute newImport "href" url h2 in
      h4 ← prepend head newImport h3;
      add_imports head added' h4
  end.

(** What the flatten stage does with the flattened document: the added
    imports, then the [<meta charset>]. *)
Definition ensure_meta (this : Vulcan.t) (flatDoc : nat) (h : Heap)
  : Res Heap :=
  meta ← dom5.query h flatDoc (matchers.meta M);
  head ← dom5.query h flatDoc (matchers.head M);
  h1 ← add_imports head (Vulcan.addedImports this) h;
  match meta with
  | Some _ => Ok h1
  | None =>
      let '(meta, h2) := dom5.constructors.element "meta" h1 in
      let h3 := dom5.setAttribute meta "charset" "UTF-8" h2 in
      prepend head meta h3
  end.

(** The document object [{doc: ..., href: ...}] handed from stage to
    stage, together with the heap. *)
Definition DocObj : Type := (nat * option string * Heap)%type.

Definition flatten_stage (this : Vulcan.t) (tree : ImportTree) (h : Heap)
  : Res DocObj :=
  '(flatDoc, h1) ← flatten search K M pathResolver this tree true h;
  h2 ← ensure_meta this flatDoc h1;
  Ok (flatDoc, href tree, h2).

(** [dom5.nodeWalkAll(doc, dom5.isCommentNode).forEach(...)] *)
Definition remove_comments (cs : list nat) (h : Heap)
  : CommentMap.t * Heap :=
  foldl (fun '(comments, h') comment =>
           (CommentMap.set (text (h' !!! comment)) comment comments,
            dom5.remove comment h'))
    (CommentMap.empty, h) cs.

(** [comments.keys().forEach(...)] *)
Fixpoint restore_licenses (comments : CommentMap.t) (head : option nat)
  (keys : list string) (h : Heap) : Res Heap :=
  match keys with
  | [] => Ok h
  | commentData :: keys' =>
      if negb (includes "@license" commentData)
      then restore_licenses comments head keys' h
      else
        match CommentMap.get comments commentData with
        | Some c =>
            h' ← prepend head c h;
            restore_licenses comments head keys' h'
        | None => Throw TypeError
        end
  end.

Definition strip_stage (d : DocObj) : Res DocObj :=
  let '(doc, docHref, h) := d in
  head ← dom5.query h doc (matchers.head M);
  cs ← dom5.nodeWalkAll h doc dom5.isCommentNode;
  let '(comments, h1) := remove_comments cs h in
  h2 ← restore_licenses comments head (CommentMap.keys comments) h1;
  Ok (doc, docHref, h2).

Definition scripts_stage (this : Vulcan.t) (d : DocObj) : Res DocObj :=
  let '(doc, docHref, h) := d in
  h' ← inlineScripts search K M loader url_resolve encodeString this
         doc docHref h;
  Ok (doc, docHref, h').

Definition css_stage (d : DocObj) : Res DocObj :=
  let '(doc, docHref, h) := d in
  h' ← inlineCss doc docHref h;
  Ok (doc, docHref, h').

(** The promise chain of [_process], up to the completion callback. *)
Definition process_chain (this : Vulcan.t) (target : string) : Res DocObj :=
  this' ← implicit_stage this;
  '(tree, h) ← Analyzer.metadataTree analyzer target;
  d ← flatten_stage this' tree h;
  d ← (if Vulcan.enableScriptInlining this' then scripts_stage this' d
       else Ok d);
  d ← (if Vulcan.enableCssInlining this' then css_stage d else Ok d);
  (if Vulcan.stripComments this' then strip_stage d else Ok d).



End Process.

(** ** Reading a heap as a tree *)

(** [child h x c]: [c] is listed among the children of [x]. *)
Definition child (h : Heap) (x c : nat) : Prop :=
  c ∈ childNodes (h !!! x).

(** [reach h r x]: [x] is [r] or one of its descendants. *)
Definition reach (h : Heap) : nat -> nat -> Prop := rtc (child h).

(** The children of [p] are distinct and point back to [p]. *)
Definition wf_children (h : Heap) (p : nat) : Prop :=
  NoDup (childNodes (h !!! p)) /\
  forall c, c ∈ childNodes (h !!! p) -> parentNode (h !!! c) = Some p.

(** The part of the heap under [doc] is a tree with consistent back
    references. *)
Definition wf_doc (h : Heap) (doc : nat) : Prop :=
  forall m, reach h doc m -> wf_children h m.

(** The blank text node that follows in [post], if there is one. *)
Definition trailing_blank (h : Heap) (post : list nat) : option nat :=
  match post with
  | nx :: _ => if isBlankTextNode h (Some nx) then Some nx else None
  | [] => None
  end.

(** [post] without its leading blank text node. *)
Definition after_blank (h : Heap) (post : list nat) : list nat :=
  match trailing_blank h post with
  | Some _ => tail post
  | None => post
  end.

(** [if (removedNode) { removedNode.parentNode = undefined; }] *)
Definition clear_removed (r : option nat) (h : Heap) : Heap :=
  match r with
  | Some r => alter (set_parentNode None) r h
  | None => h
  end.

(** The checks above as computations, for concrete heaps. *)
Definition wf_children_b (h : Heap) (p : nat) : bool :=
  bool_decide (NoDup (childNodes (h !!! p))) &&
  forallb (fun c => bool_decide (parentNode (h !!! c) = Some p))
    (childNodes (h !!! p)).

Definition descendants (h : Heap) (doc : nat) : Res (list nat) :=
  dom5.nodeWalkAll h doc (fun _ => true).

Definition wf_doc_b (h : Heap) (doc : nat) : bool :=
  match descendants h doc with
  | Ok l => forallb (wf_children_b h) l
  | Throw _ => false
  end.

Definition reach_b (h : Heap) (doc x : nat) : bool :=
  match descendants h doc with
  | Ok l => bool_decide (x ∈ l)
  | Throw _ => false
  end.

(** The hidden container as a record. *)
Definition hidden_div : Node :=
  mkNode KElement "div" [("hidden", ""); ("by-vulcanize", "")] "" None [] None.

(** The elements [_process] creates, as records. *)
Definition link_node (url : string) : Node :=
  mkNode KElement "link" [("rel", "import"); ("href", url)] "" None [] None.

Definition meta_node : Node :=
  mkNode KElement "meta" [("charset", "UTF-8")] "" None [] None.

(** ** The comment stage, in pieces *)

(** The state of the removal loop of the comment stage, once the comments
    [D] of the document [doc] of [h] are removed: they are detached, and
    gone from the child lists of the document. *)
Definition removal_state (h : Heap) (doc : nat) (D : list nat) (hi : Heap)
  : Prop :=
  length hi = length h /\
  (forall j, payload (hi !!! j) = payload (h !!! j)) /\
  (forall m, reach h doc m ->
     childNodes (hi !!! m) = filter (fun c => c ∉ D) (childNodes (h !!! m))) /\
  (forall j, parentNode (hi !!! j) =
             if decide (j ∈ D) then None else parentNode (h !!! j)).

(** The comment map while the comments [D] are recorded: one entry for
    each text, holding a comment of [D] with that text. *)
Definition map_state (h : Heap) (D : list nat) (comments : CommentMap.t)
  : Prop :=
  NoDup (CommentMap.keys comments) /\
  (forall k v, (k, v) ∈ comments -> v ∈ D /\ text (h !!! v) = k) /\
  (forall c, c ∈ D -> text (h !!! c) ∈ CommentMap.keys comments).

(** The comments that go back into [<head>]: those recorded under a text
    with the license marker, in the order of the keys. *)
Definition kept_licenses (comments : CommentMap.t) : list nat :=
  map snd (filter (fun kv => includes "@license" (fst kv) = true) comments).

(** [prepend(head, n)] for each [n] in turn. *)
Fixpoint prepend_all (head : option nat) (ns : list nat) (h : Heap)
  : Res Heap :=
  match ns with
  | [] => Ok h
  | n :: ns' => h' ← prepend head n h; prepend_all head ns' h'
  end.

(** ** The exclusion test of the design document *)


(** ** A sample run

    Concrete collaborators and documents, on which the statements below
    are exercised. *)
Module Sample.

(** Patterns without special characters: the search is a substring
    search. *)
Definition search (s r : string) : Z :=
  match String.index 0 r s with
  | Some i => Z.of_nat i
  | None => (-1)%Z
  end.

Definition K : constants.t :=
  constants.mk
    (fun s => String.prefix "http://" s || String.prefix "https://" s
              || String.prefix "//" s)
    "old Polymer found.".

Definition M : matchers.t :=
  matchers.mk (dom5.hasTagName "head") (dom5.hasTagName "body")
    (dom5.AND (dom5.hasTagName "meta")
       (fun n => dom5.hasAttribute n "charset"))
    (dom5.hasTagName "polymer-element")
    (fun _ => false)
    (dom5.AND (dom5.hasTagName "script")
       (fun n => dom5.hasAttribute n "src"))
    (dom5.AND (dom5.hasTagName "script")
       (fun n => negb (dom5.hasAttribute n "src"))).

Definition pathResolver : PathResolver.t :=
  PathResolver.mk to_js_string (fun _ _ h => h) (fun _ _ _ h => h).

Definition this : Vulcan.t :=
  Vulcan.mk true None [] ["vendor/"] ["strip.html"] true false true "" [].

Definition el (tag : string) (a : list (string * string))
  (p : option nat) (cs : list nat) : Node :=
  mkNode KElement tag a "" p cs None.
Definition txt (s : string) (p : option nat) : Node :=
  mkNode KText "" [] s p [] None.
Definition cmt (s : string) (p : option nat) : Node :=
  mkNode KComment "" [] s p [] None.
Definition docn (cs : list nat) : Node :=
  mkNode KDocument "" [] "" None cs None.
Definition nl : string := String (ascii_of_nat 10) "".

(** [index.html] (nodes 0 to 6, 13 and 14) imports [a.html] twice and
    [vendor/lib.html] once; [a.html] is the document at node 7. *)
Definition h0 : Heap :=
  [ docn [1];
    el "html" [] (Some 0) [2; 3];
    el "head" [] (Some 1) [4; 5];
    el "body" [] (Some 1) [6; 13; 14];
    el "link" [("rel", "import"); ("href", "a.html")] (Some 2) [];
    txt nl (Some 2);
    el "link" [("rel", "import"); ("href", "a.html")] (Some 3) [];
    docn [8];
    el "html" [] (Some 7) [9; 10];
    el "head" [] (Some 8) [11];
    el "body" [] (Some 8) [12];
    el "script" [("src", "x.js")] (Some 9) [];
    el "p" [] (Some 10) [];
    txt nl (Some 3);
    el "link" [("rel", "import"); ("href", "vendor/lib.html")] (Some 3) [] ].

Definition ta : ImportTree :=
  mkImportTree (Some "a.html") (Some (mkHtml 7 [])) (Some []).
Definition dup : ImportTree := mkImportTree None None None.
Definition vend : ImportTree :=
  mkImportTree (Some "vendor/lib.html") None None.
Definition t0 : ImportTree :=
  mkImportTree (Some "index.html") (Some (mkHtml 0 [4; 6; 14]))
    (Some [ta; dup; vend]).

(** [h0] with the fragment that holds the merged content of [a.html]. *)
Definition h_merge : Heap :=
  h0 ++ [mkNode KFragment "" [] "" None [11; 12] None].

(** A flattened document with license comments from the root and from
    an import, and a plain comment. *)
Definition h_lic : Heap :=
  [ docn [1; 5];
    el "html" [] (Some 0) [2; 3];
    el "head" [] (Some 1) [4; 9];
    el "body" [] (Some 1) [6; 7; 8];
    cmt "@license MIT" (Some 2);
    cmt " plain " (Some 0);
    cmt "@license MIT" (Some 3);
    el "p" [] (Some 3) [];
    cmt "@license BSD" (Some 3);
    el "title" [] (Some 2) [] ].

(** A document written for the old Polymer. *)
Definition h_old : Heap :=
  [ docn [1];
    el "html" [] (Some 0) [2; 3];
    el "head" [] (Some 1) [];
    el "body" [] (Some 1) [4];
    el "polymer-element" [("name", "x-foo")] (Some 3) [] ].
Definition t_old : ImportTree :=
  mkImportTree (Some "old.html") (Some (mkHtml 0 [])) (Some []).

Definition loader : Loader.t :=
  Loader.mk (fun uri =>
    if String.eqb uri "x.js" then Ok (Some "console.log(1)")
    else if String.eqb uri "gone.js" then Throw (Error "not found")
    else Ok None).
Definition url_resolve (from to : string) : string := to.
Definition encodeString (s : string) : string := s.
Definition analyzer : Analyzer.t :=
  Analyzer.mk
    (fun target =>
       if String.eqb target "old.html" then Ok (t_old, h_old)
       else Ok (t0, h0))
    (fun url =>
       if String.eqb url "shared.html" then Ok ["dep1.html"; "dep2.html"]
       else if String.eqb url "lib/corejs" then Ok ["dep2.html"; "core.html"]
       else Ok []).
Definition inlineCss (doc : nat) (docHref : option string) (h : Heap)
  : Res Heap := Ok h.

End Sample.

(** ** The chain of parents *)

(** The node [k] steps up the chain of parents of [n], if the chain is that
    long. *)
Fixpoint nth_parent (h : Heap) (k : nat) (n : nat) : option nat :=
  match k with
  | 0 => Some n
  | S k' =>
      match parentNode (h !!! n) with
      | Some p => nth_parent h k' p
      | None => None
      end
  end.

(** [while(node) { if (stop(node)) { return true; } node = node.parentNode; }
    return false;], the loop that [ancestorWalk] and [isTemplated] share. *)
Fixpoint parent_walk_fuel (stop : nat -> bool) (fuel : nat) (h : Heap)
  (node : option nat) : Res bool :=
  match node with
  | None => Ok false
  | Some n =>
      if stop n then Ok true
      else match fuel with
           | 0 => Throw Diverges
           | S fuel' => parent_walk_fuel stop fuel' h (parentNode (h !!! n))
           end
  end.

(** Every back reference of the heap points into the heap. *)
Definition parents_in_range (h : Heap) : Prop :=
  forall j p, parentNode (h !!! j) = Some p -> p < length h.

Definition parents_in_range_b (h : Heap) : bool :=
  forallb (fun x => match parentNode x with
                    | Some p => p <? length h
                    | None => true
                    end) h.

(** The first [k] nodes of the chain of parents of [n]. *)
Fixpoint chain (h : Heap) (k : nat) (n : nat) : list nat :=
  match k with
  | 0 => []
  | S k' =>
      n :: match parentNode (h !!! n) with
           | Some p => chain h k' p
           | None => []
           end
  end.

(** ** More sample documents *)
Module Sample2.

(** A page whose import (node 6) stands in the content of a template:
    its parent is the fragment at node 5, which has no parent. *)
Definition h_tpl : Heap :=
  [ Sample.docn [1];
    Sample.el "html" [] (Some 0) [2; 3];
    Sample.el "head" [] (Some 1) [];
    Sample.el "body" [] (Some 1) [4];
    Sample.el "template" [] (Some 3) [];
    mkNode KFragment "" [] "" None [6] None;
    Sample.el "link" [("rel", "import"); ("href", "a.html")] (Some 5) [] ].

(** An analyzer that cannot read [gone.html], and that fails on the
    assets: scripts, stylesheets and directories. *)
Definition analyzer : Analyzer.t :=
  Analyzer.mk
    (fun _ => Throw (Error "no document"))
    (fun url =>
       if String.eqb url "shared.html" then Ok ["dep1.html"; "dep2.html"]
       else if String.eqb url "gone.html" then Throw (Error "ENOENT")
       else Throw (Error "not a document")).

(** An instance that excludes [shared.html] and strips [strip.html]. *)
Definition this : Vulcan.t :=
  Vulcan.mk true None [] ["shared.html"; "vendor/"] ["strip.html"]
    false false true "" [].



(** A page with a title and a paragraph, and nothing to flatten. *)
Definition h_plain : Heap :=
  [ Sample.docn [1];
    Sample.el "html" [] (Some 0) [2; 3];
    Sample.el "head" [] (Some 1) [4];
    Sample.el "body" [] (Some 1) [5];
    Sample.el "title" [] (Some 2) [];
    Sample.el "p" [] (Some 3) [] ].

(** A page with a script that the analyzer has inlined from [app.js]
    (node 4, with its text at node 5) and a script written in place
    (node 6, with its text at node 7). *)
Definition h_fake : Heap :=
  [ Sample.docn [1];
    Sample.el "html" [] (Some 0) [2; 3];
    Sample.el "head" [] (Some 1) [4; 6];
    Sample.el "body" [] (Some 1) [];
    mkNode KElement "script" [] "" (Some 2) [5] (Some "app.js");
    Sample.txt "var a;" (Some 4);
    Sample.el "script" [] (Some 2) [7];
    Sample.txt "var b;" (Some 6) ].

(** A page with three scripts: one that the loader has, one that is
    excluded and one that the loader cannot find. *)
Definition h_scripts : Heap :=
  [ Sample.docn [1];
    Sample.el "html" [] (Some 0) [2; 3];
    Sample.el "head" [] (Some 1) [];
    Sample.el "body" [] (Some 1) [4; 5; 6];
    Sample.el "script" [("src", "x.js")] (Some 3) [];
    Sample.el "script" [("src", "vendor/v.js")] (Some 3) [];
    Sample.el "script" [("src", "gone.js")] (Some 3) [] ].

(** The same page without the script that cannot be found. *)
Definition h_scripts_ok : Heap :=
  [ Sample.docn [1];
    Sample.el "html" [] (Some 0) [2; 3];
    Sample.el "head" [] (Some 1) [];
    Sample.el "body" [] (Some 1) [4; 5];
    Sample.el "script" [("src", "x.js")] (Some 3) [];
    Sample.el "script" [("src", "vendor/v.js")] (Some 3) [] ].

(** A loader that has every file but [gone.js]. *)
Definition loader : Loader.t :=
  Loader.mk (fun uri =>
    if String.eqb uri "gone.js" then Throw (Error "not found")
    else Ok (Some "console.log(1)")).

(** [Sample.h0] where [a.html] carries two license comments, one under
    the document (node 15) and one under its root element (node 16). *)
Definition h_lic_import : Heap :=
  [ Sample.docn [1];
    Sample.el "html" [] (Some 0) [2; 3];
    Sample.el "head" [] (Some 1) [4; 5];
    Sample.el "body" [] (Some 1) [6; 13; 14];
    Sample.el "link" [("rel", "import"); ("href", "a.html")] (Some 2) [];
    Sample.txt Sample.nl (Some 2);
    Sample.el "link" [("rel", "import"); ("href", "a.html")] (Some 3) [];
    Sample.docn [15; 8];
    Sample.el "html" [] (Some 7) [16; 9; 10];
    Sample.el "head" [] (Some 8) [11];
    Sample.el "body" [] (Some 8) [12];
    Sample.el "script" [("src", "x.js")] (Some 9) [];
    Sample.el "p" [] (Some 10) [];
    Sample.txt Sample.nl (Some 3);
    Sample.el "link" [("rel", "import"); ("href", "vendor/lib.html")]
      (Some 3) [];
    Sample.cmt "@license MIT" (Some 7);
    Sample.cmt "@license BSD" (Some 8) ].

(** The heap once [a.html] is flattened as an import of that page. *)
Definition h_lic_flat : Heap :=
    match flatten Sample.search Sample.K Sample.M Sample.pathResolver
            Sample.this Sample.ta false
            (h_lic_import ++ [dom5.newDocumentFragment]) with
    | Ok (_, h) => h
    | Throw _ => []
    end.

(** A page with a stylesheet for print (node 4) and, in the body, a
    [dom-module] (node 6) that holds a Polymer external style (node 7)
    and a template (node 8) with its content (node 9). *)
Definition h_css : Heap :=
  [ Sample.docn [1];
    Sample.el "html" [] (Some 0) [2; 3];
    Sample.el "head" [] (Some 1) [4; 5];
    Sample.el "body" [] (Some 1) [6];
    Sample.el "link"
      [("rel", "stylesheet"); ("href", "a.css"); ("media", "print")]
      (Some 2) [];
    Sample.txt Sample.nl (Some 2);
    Sample.el "dom-module" [("id", "x-foo")] (Some 3) [7; 8];
    Sample.el "link"
      [("rel", "import"); ("type", "css"); ("href", "x-foo.css")]
      (Some 6) [];
    Sample.el "template" [] (Some 6) [9];
    mkNode KFragment "" [] "" None [10] None;
    Sample.el "p" [] (Some 9) [] ].

(** The same [dom-module] without template. *)
Definition h_css_bare : Heap :=
  [ Sample.docn [1];
    Sample.el "html" [] (Some 0) [2; 3];
    Sample.el "head" [] (Some 1) [];
    Sample.el "body" [] (Some 1) [4];
    Sample.el "dom-module" [("id", "x-foo")] (Some 3) [5];
    Sample.el "link"
      [("rel", "import"); ("type", "css"); ("href", "x-foo.css")]
      (Some 4) [] ].

Definition rewriteURL (uri href content : string) : string := content.

(** A walk that finds the [dom-module] right above the node, if the
    parent of the node is one. *)
Definition nodeWalkPrior (h : Heap) (node : nat) (p : Node -> bool)
  : Res (option nat) :=
  match parentNode (h !!! node) with
  | Some parent => Ok (if p (h !!! parent) then Some parent else None)
  | None => Ok None
  end.

(** A page with two scripts and a title between them in [<head>]. *)
Definition h_head : Heap :=
  [ Sample.docn [1];
    Sample.el "html" [] (Some 0) [2; 3];
    Sample.el "head" [] (Some 1) [4; 5; 6];
    Sample.el "body" [] (Some 1) [7];
    Sample.el "script" [("src", "a.js")] (Some 2) [];
    Sample.el "title" [] (Some 2) [];
    Sample.el "script" [("src", "b.js")] (Some 2) [];
    Sample.el "p" [] (Some 3) [] ].
Definition t_head : ImportTree :=
  mkImportTree (Some "page.html") (Some (mkHtml 0 [])) None.

(** An instance with two added imports. *)
Definition this_added : Vulcan.t :=
  Vulcan.mk false None ["first.html"; "second.html"] [] [] false false
    false "" [].

End Sample2.

(** ** The callbacks of the loops, by name *)

(** The callback of [scripts.forEach] in [fixFakeExternalScripts]. *)
Definition fix_fake_script (h : Heap) (script : nat) : Heap :=
  match inlined (h !!! script) with
  | Some src =>
      if truthy_string src
      then dom5.setTextContent script ""
             (dom5.setAttribute script "src" src h)
      else h
  | None => h
  end.

(** What [fixFakeExternalScripts] has done once the scripts [seen] are
    dealt with: the marked ones carry their mark as [src] and hold one
    empty text node, every other node of the old heap is as it was. *)
Definition fake_scripts_fixed (h : Heap) (seen : list nat) (hi : Heap)
  : Prop :=
  length h <= length hi /\
  (forall j, j < length h ->
     j ∉ seen \/ truthy (inlined (h !!! j)) = false -> hi !!! j = h !!! j) /\
  (forall j, j < length h ->
     kind (hi !!! j) = kind (h !!! j) /\
     tagName (hi !!! j) = tagName (h !!! j) /\
     inlined (hi !!! j) = inlined (h !!! j) /\
     parentNode (hi !!! j) = parentNode (h !!! j)) /\
  (forall s src, s ∈ seen -> s < length h ->
     kind (h !!! s) = KElement ->
     inlined (h !!! s) = Some src -> truthy_string src = true ->
     dom5.getAttribute (hi !!! s) "src" = Some src /\
     exists t, childNodes (hi !!! s) = [t] /\
       length h <= t /\ t < length hi /\
       hi !!! t = mkNode KText "" [] "" (Some s) [] None).

(** Lines 237 to 244 of [flatten]: the children of the [<head>] and of the
    [<body>] of the import get the fragment as their parent, and the
    fragment takes the license comments, the children of [<head>] and the
    children of [<body>], in this order. *)
Definition fill_fragment (bodyFragment : nat)
  (licenseComments importHeadChildren importBodyChildren : list nat)
  (h : Heap) : Heap :=
  alter (fun f =>
           set_childNodes
             (childNodes f ++ licenseComments ++ importHeadChildren ++
              importBodyChildren) f) bodyFragment
    (set_parents bodyFragment importBodyChildren
       (set_parents bodyFragment importHeadChildren h)).

(** ** Inlining of stylesheets

    The two callbacks of [inlineCss]: the one given to [css_links.map],
    which reads the link and issues the request, and the one given to
    [then], which puts the stylesheet into the document. The promises of
    the links are settled in an order the loader decides; each callback is
    modelled on the heap it finds. *)

Definition newline : string := String (ascii_of_nat 10) "".

(** What the callback given to [then] keeps of its link: [tag], [media],
    [uri], the [href] of the document and [isPolymerExternalStyle]. *)
Record CssTask : Type := mkCssTask {
  css_tag : nat;
  css_media : option string;
  css_uri : string;
  css_href : string;
  css_polymer : bool
}.

(** [if (media) { content = '@media ' + media + ' {' + content + '}'; }] *)
Definition media_wrap (media : option string) (content : string) : string :=
  if truthy media
  then String.append "@media "
         (String.append (to_js_string media)
            (String.append " {" (String.append content "}")))
  else content.

(** The [<style>] element and its text, as [dom5.constructors.element] and
    [dom5.setTextContent] leave them. *)
Definition style_node (textNode : nat) : Node :=
  mkNode KElement "style" [] "" None [textNode] None.
Definition style_text (style : nat) (content : string) : Node :=
  mkNode KText "" [] content (Some style) [] None.

Section InlineCss.

Variable search : string -> string -> Z.
Variable K : constants.t.
Variable M : matchers.t.
(** [pathResolver.rewriteURL(uri, href, content)] *)
Variable rewriteURL : string -> string -> string -> string.
Variable url_resolve : string -> string -> string.
(** [dom5.nodeWalkPrior(node, predicate)] *)
Variable nodeWalkPrior : Heap -> nat -> (Node -> bool) -> Res (option nat).
Variable this : Vulcan.t.

(** The synchronous part of the callback given to [css_links.map]: the
    task to run on the answer of the loader, or nothing for an excluded
    stylesheet. *)
Definition css_request (h : Heap) (href : option string) (link : nat)
  : Res (option CssTask) :=
  match dom5.getAttribute (h !!! link) "href", href with
  | Some src, Some href =>
      let media := dom5.getAttribute (h !!! link) "media" in
      let uri := url_resolve href src in
      let isPolymerExternalStyle :=
        matchers.polymerExternalStyle M (h !!! link) in
      excluded ← isExcludedHref search K this (Some src);
      Ok (if excluded : bool then None
          else Some (mkCssTask link media uri href isPolymerExternalStyle))
  | _, _ => Throw TypeError
  end.

(** [domTemplate = dom5.constructors.element('template');
    domTemplate.childNodes.push(dom5.constructors.fragment());
    dom5.append(ownerDomModule, domTemplate);]: the fragment is pushed
    into the array, its [parentNode] is not set. *)
Definition new_template (ownerDomModule : nat) (h : Heap) : nat * Heap :=
  let '(domTemplate, h1) := dom5.constructors.element "template" h in
  let '(f, h2) := dom5.constructors.fragment h1 in
  let h3 := alter (fun t => set_childNodes (childNodes t ++ [f]) t)
              domTemplate h2 in
  (domTemplate, dom5.append ownerDomModule domTemplate h3).

(** The callback given to [then] for the content of one stylesheet. *)
Definition css_loaded (t : CssTask) (content : option string) (h : Heap)
  : Res Heap :=
  match content with
  | Some c =>
      if truthy_string c then
        let c1 := rewriteURL (css_uri t) (css_href t) c in
        let c2 := media_wrap (css_media t) c1 in
        let '(style, h1) := dom5.constructors.element "style" h in
        let h2 := dom5.setTextContent style
                    (String.append newline (String.append c2 newline)) h1 in
        if css_polymer t then
          owner ← nodeWalkPrior h2 (css_tag t) (dom5.hasTagName "dom-module");
          match owner with
          | Some ownerDomModule =>
              found ← dom5.query h2 ownerDomModule
                        (dom5.hasTagName "template");
              let '(domTemplate, h3) :=
                match found with
                | Some domTemplate => (domTemplate, h2)
                | None => new_template ownerDomModule h2
                end in
              let h4 := dom5.remove (css_tag t) h3 in
              prepend (head (childNodes (h4 !!! domTemplate))) style h4
          | None => Ok h2
          end
        else dom5.replace (css_tag t) style h2
      else Ok h
  | None => Ok h
  end.

End InlineCss.

(** * Lemmas *)

(** ** The heap *)

Section HeapLemmas.
Implicit Types (h : Heap) (i j : nat) (f : Node -> Node).

Lemma node_out_of_range h i : length h <= i -> h !!! i = blank_node.
Proof.
  intros Hi. rewrite list_lookup_total_alt.
  rewrite lookup_ge_None_2; [done | lia].
Qed.

Lemma node_alter_ne f i j h : i <> j -> alter f i h !!! j = h !!! j.
Proof. intros. by apply list_lookup_total_alter_ne. Qed.

Lemma node_alter_eq f i h : i < length h -> alter f i h !!! i = f (h !!! i).
Proof. intros. by apply list_lookup_total_alter_eq. Qed.

Lemma node_alter f i j h :
  alter f i h !!! j =
  if decide (i = j /\ i < length h) then f (h !!! j) else h !!! j.
Proof.
  case_decide as H.
  - destruct H as [-> H]. by apply node_alter_eq.
  - destruct (decide (i = j)) as [->|Hne].
    + assert (length h <= j) by lia.
      rewrite !list_lookup_total_alt.
      rewrite list_lookup_alter_eq. rewrite lookup_ge_None_2; [done|lia].
    + by apply node_alter_ne.
Qed.
End HeapLemmas.

(** ** Arrays *)

Section ArrayLemmas.
Implicit Types (l pre post items : list nat) (x y : nat).

Lemma indexOf_lower x l : (-1 <= indexOf x l)%Z.
Proof.
  induction l as [|y l IH]; simpl; [lia|].
  destruct (Nat.eqb y x); [lia|].
  destruct (Z.ltb_spec (indexOf x l) 0); lia.
Qed.

Lemma indexOf_first x pre post :
  x ∉ pre -> indexOf x (pre ++ x :: post) = Z.of_nat (length pre).
Proof.
  induction pre as [|y pre IH]; simpl; intros Hx.
  - by rewrite Nat.eqb_refl.
  - apply not_elem_of_cons in Hx as [Hne Hx].
    destruct (Nat.eqb_spec y x); [congruence|].
    rewrite IH by done.
    destruct (Z.ltb_spec (Z.of_nat (length pre)) 0); lia.
Qed.

Lemma indexOf_absent x l : x ∉ l -> indexOf x l = (-1)%Z.
Proof.
  induction l as [|y l IH]; simpl; intros Hx; [done|].
  apply not_elem_of_cons in Hx as [Hne Hx].
  destruct (Nat.eqb_spec y x); [congruence|].
  rewrite IH by done. done.
Qed.

Lemma indexOf_head x l : indexOf x (x :: l) = 0%Z.
Proof. simpl. by rewrite Nat.eqb_refl. Qed.

Lemma splice_at_length pre post items del :
  splice (Z.of_nat (length pre)) del items (pre ++ post)
  = pre ++ items ++ drop del post.
Proof.
  unfold splice, splice_start.
  destruct (Z.ltb_spec (Z.of_nat (length pre)) 0); [lia|].
  rewrite Nat2Z.id, length_app.
  replace (length pre `min` (length pre + length post)) with (length pre) by lia.
  rewrite take_app_length. f_equal. f_equal.
  rewrite drop_app_ge by lia. f_equal. lia.
Qed.

Lemma splice_delete_at x pre post :
  splice (Z.of_nat (length pre)) 1 [] (pre ++ x :: post) = pre ++ post.
Proof. by rewrite splice_at_length. Qed.

Lemma splice_replace_at x pre post items :
  splice (Z.of_nat (length pre)) 1 items (pre ++ x :: post)
  = pre ++ items ++ post.
Proof. by rewrite splice_at_length. Qed.

Lemma splice_insert_front items l : splice 0 0 items l = items ++ l.
Proof. apply (splice_at_length [] l items 0). Qed.

Lemma splice_insert_back items l :
  splice (Z.of_nat (length l)) 0 items l = l ++ items.
Proof.
  rewrite <- (app_nil_r l) at 2. rewrite splice_at_length. simpl.
  by rewrite app_nil_r.
Qed.

Lemma splice_nil start del : splice start del [] [] = [].
Proof. unfold splice. by rewrite take_nil, drop_nil. Qed.

Lemma at_index_length x pre post :
  at_index (pre ++ x :: post) (Z.of_nat (length pre)) = Some x.
Proof.
  unfold at_index. destruct (Z.ltb_spec (Z.of_nat (length pre)) 0); [lia|].
  rewrite Nat2Z.id. by rewrite list_lookup_middle.
Qed.

Lemma at_index_next x pre post :
  at_index (pre ++ x :: post) (Z.of_nat (length pre) + 1) = head post.
Proof.
  unfold at_index.
  destruct (Z.ltb_spec (Z.of_nat (length pre) + 1) 0); [lia|].
  replace (Z.to_nat (Z.of_nat (length pre) + 1)) with (length pre + 1) by lia.
  rewrite lookup_app_r by lia.
  replace (length pre + 1 - length pre) with 1 by lia.
  simpl. by destruct post.
Qed.

Lemma at_index_nil i : at_index [] i = None.
Proof. unfold at_index. by destruct (i <? 0)%Z. Qed.

Lemma at_index_elem l i x : at_index l i = Some x -> x ∈ l.
Proof.
  unfold at_index. destruct (i <? 0)%Z; [done|].
  intros H. by eapply list_elem_of_lookup_2.
Qed.

End ArrayLemmas.

(** ** dom5 on the heap *)

Section DomLemmas.
Implicit Types (h : Heap) (i j n p : nat) (f : Node -> Node).

Lemma frame_alter {X} (g : Node -> X) f i j h :
  (forall x, g (f x) = g x) -> g (alter f i h !!! j) = g (h !!! j).
Proof. intros Hg. rewrite node_alter. case_decide; [apply Hg|done]. Qed.

Lemma parent_set_parent h i j v :
  parentNode (alter (set_parentNode v) i h !!! j) =
  if decide (i = j /\ i < length h) then v else parentNode (h !!! j).
Proof. rewrite node_alter. by case_decide. Qed.

Lemma parent_clear h i j :
  parentNode (alter (set_parentNode None) i h !!! j) =
  if decide (j = i) then None else parentNode (h !!! j).
Proof.
  rewrite parent_set_parent. destruct (decide (j = i)) as [->|].
  - case_decide as Hc; [done|]. rewrite node_out_of_range; [done|].
    lia.
  - case_decide as Hd; [destruct Hd; congruence|done].
Qed.

Lemma children_set_children h i j cs :
  childNodes (alter (set_childNodes cs) i h !!! j) =
  if decide (i = j /\ i < length h) then cs else childNodes (h !!! j).
Proof. rewrite node_alter. by case_decide. Qed.

Lemma children_update h i j (g : list nat -> list nat) :
  g [] = [] ->
  childNodes (alter (fun x => set_childNodes (g (childNodes x)) x) i h !!! j) =
  if decide (j = i) then g (childNodes (h !!! i)) else childNodes (h !!! j).
Proof.
  intros Hg. rewrite node_alter. destruct (decide (j = i)) as [->|].
  - case_decide; [done|].
    rewrite node_out_of_range; [simpl; by rewrite Hg|].
    lia.
  - case_decide as Hd; [destruct Hd; congruence|done].
Qed.

(** dom5.remove *)

Lemma length_remove n h : length (dom5.remove n h) = length h.
Proof.
  unfold dom5.remove. rewrite length_alter.
  destruct (parentNode (h !!! n)); [by rewrite length_alter|done].
Qed.

Lemma payload_remove n h j :
  payload (dom5.remove n h !!! j) = payload (h !!! j).
Proof.
  unfold dom5.remove. rewrite (frame_alter payload) by done.
  destruct (parentNode (h !!! n)); [|done].
  by rewrite (frame_alter payload).
Qed.

Lemma parent_remove n h j :
  parentNode (dom5.remove n h !!! j) =
  if decide (j = n) then None else parentNode (h !!! j).
Proof.
  unfold dom5.remove. rewrite parent_clear. case_decide; [done|].
  destruct (parentNode (h !!! n)); [|done].
  by rewrite (frame_alter parentNode).
Qed.

Lemma children_remove n h j :
  childNodes (dom5.remove n h !!! j) =
  match parentNode (h !!! n) with
  | Some p =>
      if decide (j = p)
      then splice (indexOf n (childNodes (h !!! p))) 1 [] (childNodes (h !!! p))
      else childNodes (h !!! j)
  | None => childNodes (h !!! j)
  end.
Proof.
  unfold dom5.remove. rewrite (frame_alter childNodes) by done.
  destruct (parentNode (h !!! n)) as [p|]; [|done].
  rewrite (children_update h p j (fun l => splice (indexOf n (childNodes (h !!! p))) 1 [] l)).
  - done.
  - apply splice_nil.
Qed.

Lemma remove_detached_children n h j :
  parentNode (h !!! n) = None ->
  childNodes (dom5.remove n h !!! j) = childNodes (h !!! j).
Proof. intros H. by rewrite children_remove, H. Qed.

Lemma remove_detached_parent n h j :
  parentNode (h !!! n) = None ->
  parentNode (dom5.remove n h !!! j) = parentNode (h !!! j).
Proof. intros H. rewrite parent_remove. case_decide; by subst. Qed.

(** [newNodes.forEach(function(n) { n.parentNode = parent; })] *)

Lemma length_set_parents p ns h : length (set_parents p ns h) = length h.
Proof.
  revert h. induction ns as [|n ns IH]; intros h; simpl; [done|].
  unfold set_parents in *. simpl. by rewrite IH, length_alter.
Qed.

Lemma frame_set_parents {X} (g : Node -> X) p ns h j :
  (forall v x, g (set_parentNode v x) = g x) ->
  g (set_parents p ns h !!! j) = g (h !!! j).
Proof.
  intros Hg. revert h. induction ns as [|n ns IH]; intros h; [done|].
  unfold set_parents in *. simpl. rewrite IH. by apply frame_alter.
Qed.

Lemma parent_set_parents p ns h j :
  parentNode (set_parents p ns h !!! j) =
  if decide (j ∈ ns /\ j < length h) then Some p else parentNode (h !!! j).
Proof.
  revert h. induction ns as [|n ns IH]; intros h.
  - rewrite decide_False; [done|]. intros [H _]. by apply elem_of_nil in H.
  - unfold set_parents in *. simpl. rewrite IH, length_alter, parent_set_parent.
    destruct (decide (j ∈ ns /\ j < length h)) as [[H1 H2]|H1].
    + rewrite decide_True; [done|]. split; [by apply elem_of_cons; right|done].
    + destruct (decide (n = j /\ n < length h)) as [[-> H2]|H2].
      * rewrite decide_True; [done|]. split; [by apply elem_of_cons; left|done].
      * rewrite decide_False; [done|]. intros [H3 H4].
        apply elem_of_cons in H3 as [->|H3]; [by apply H2|by apply H1].
Qed.

End DomLemmas.

Lemma length_clear_removed r h : length (clear_removed r h) = length h.
Proof. destruct r; simpl; [apply length_alter|done]. Qed.

Lemma frame_clear_removed {X} (g : Node -> X) r h j :
  (forall v x, g (set_parentNode v x) = g x) ->
  g (clear_removed r h !!! j) = g (h !!! j).
Proof. intros Hg. destruct r; simpl; [by apply frame_alter|done]. Qed.

Lemma parent_clear_removed r h j :
  parentNode (clear_removed r h !!! j) =
  if decide (r = Some j) then None else parentNode (h !!! j).
Proof.
  destruct r as [r|]; unfold clear_removed.
  - rewrite parent_clear. repeat case_decide; congruence.
  - case_decide; [congruence|done].
Qed.

(** dom5.insertNode with a detached node that is not a fragment *)
Section InsertNode.
Variables (h : Heap) (parent n : nat) (index : Z) (replace : bool).
Hypothesis Hkind : dom5.isDocumentFragment (h !!! n) = false.
Hypothesis Hdetached : parentNode (h !!! n) = None.
Hypothesis Hn : n < length h.
Hypothesis Hp : parent < length h.

Let l := childNodes (h !!! parent).
Let removed := if replace then at_index l index else None.
Let h' := dom5.insertNode parent index n replace h.

Lemma insertNode_node_eq :
  h' = clear_removed removed
         (set_parents parent [n]
            (alter (fun x => set_childNodes
                      (splice index (if replace then 1 else 0) [n]
                         (childNodes x)) x) parent (dom5.remove n h))).
Proof.
  subst h' removed l. unfold dom5.insertNode. rewrite Hkind.
  by rewrite remove_detached_children.
Qed.

Lemma length_insertNode_node : length h' = length h.
Proof.
  rewrite insertNode_node_eq.
  by rewrite length_clear_removed, length_set_parents, length_alter,
    length_remove.
Qed.

Lemma payload_insertNode_node j : payload (h' !!! j) = payload (h !!! j).
Proof.
  rewrite insertNode_node_eq.
  rewrite (frame_clear_removed payload) by done.
  rewrite (frame_set_parents payload) by done.
  rewrite (frame_alter payload) by done.
  apply payload_remove.
Qed.

Lemma children_insertNode_node j :
  childNodes (h' !!! j) =
  if decide (j = parent)
  then splice index (if replace then 1 else 0) [n] l
  else childNodes (h !!! j).
Proof.
  rewrite insertNode_node_eq.
  rewrite (frame_clear_removed childNodes) by done.
  rewrite (frame_set_parents childNodes) by done.
  rewrite node_alter, length_remove.
  destruct (decide (j = parent)) as [->|Hne].
  - rewrite decide_True by done. simpl.
    by rewrite remove_detached_children.
  - rewrite decide_False by (intros [? _]; congruence).
    by rewrite remove_detached_children.
Qed.

Lemma parent_insertNode_node j :
  parentNode (h' !!! j) =
  if decide (removed = Some j) then None
  else if decide (j = n) then Some parent
  else parentNode (h !!! j).
Proof.
  rewrite insertNode_node_eq.
  rewrite parent_clear_removed. case_decide; [done|].
  rewrite parent_set_parents, length_alter, length_remove.
  destruct (decide (j = n)) as [->|Hne].
  - rewrite decide_True; [done|]. split; [by apply list_elem_of_singleton|done].
  - rewrite decide_False by (intros [?%list_elem_of_singleton _]; congruence).
    rewrite (frame_alter parentNode) by done.
    by rewrite remove_detached_parent.
Qed.
End InsertNode.

(** dom5.insertNode with a fragment: its children move, it stays empty *)
Section InsertFragment.
Variables (h : Heap) (parent frag : nat) (index : Z) (replace : bool).
Hypothesis Hkind : dom5.isDocumentFragment (h !!! frag) = true.
Hypothesis Hf : frag < length h.
Hypothesis Hp : parent < length h.
Hypothesis Hne : frag <> parent.

Let cs := childNodes (h !!! frag).
Let l := childNodes (h !!! parent).
Let removed := if replace then at_index l index else None.
Let h' := dom5.insertNode parent index frag replace h.

Lemma insertNode_fragment_eq :
  h' = clear_removed removed
         (set_parents parent cs
            (alter (fun x => set_childNodes
                      (splice index (if replace then 1 else 0) cs
                         (childNodes x)) x) parent
               (alter (set_childNodes []) frag h))).
Proof.
  subst h' removed l cs. unfold dom5.insertNode. rewrite Hkind.
  by rewrite node_alter_ne.
Qed.

Lemma length_insertNode_fragment : length h' = length h.
Proof.
  rewrite insertNode_fragment_eq.
  by rewrite length_clear_removed, length_set_parents, !length_alter.
Qed.

Lemma payload_insertNode_fragment j :
  payload (h' !!! j) = payload (h !!! j).
Proof.
  rewrite insertNode_fragment_eq.
  rewrite (frame_clear_removed payload) by done.
  rewrite (frame_set_parents payload) by done.
  by rewrite !(frame_alter payload).
Qed.

Lemma children_insertNode_fragment j :
  childNodes (h' !!! j) =
  if decide (j = parent)
  then splice index (if replace then 1 else 0) cs l
  else if decide (j = frag) then [] else childNodes (h !!! j).
Proof.
  rewrite insertNode_fragment_eq.
  rewrite (frame_clear_removed childNodes) by done.
  rewrite (frame_set_parents childNodes) by done.
  rewrite node_alter, length_alter.
  destruct (decide (j = parent)) as [->|Hj].
  - rewrite decide_True by done. simpl. by rewrite node_alter_ne.
  - rewrite decide_False by (intros [? _]; congruence).
    rewrite children_set_children.
    destruct (decide (j = frag)) as [->|Hj'].
    + by rewrite decide_True.
    + by rewrite decide_False by (intros [? _]; congruence).
Qed.

Lemma parent_insertNode_fragment j :
  parentNode (h' !!! j) =
  if decide (removed = Some j) then None
  else if decide (j ∈ cs /\ j < length h) then Some parent
  else parentNode (h !!! j).
Proof.
  rewrite insertNode_fragment_eq.
  rewrite parent_clear_removed. case_decide; [done|].
  rewrite parent_set_parents, !length_alter.
  case_decide; [done|].
  by rewrite !(frame_alter parentNode).
Qed.
End InsertFragment.

(** ** Removal of an element and of the blank text after it *)

Lemma isBlankTextNode_Some h n :
  isBlankTextNode h (Some n) =
  dom5.isTextNode (h !!! n) && no_nonspace (text (h !!! n)).
Proof.
  unfold isBlankTextNode, dom5.getTextContent.
  destruct (dom5.isTextNode (h !!! n)) eqn:Ht; [|done].
  by destruct (dom5.isCommentNode (h !!! n)).
Qed.

Lemma children_nonempty_in_range h p c :
  c ∈ childNodes (h !!! p) -> p < length h.
Proof.
  intros Hc. destruct (decide (p < length h)); [done|].
  rewrite node_out_of_range in Hc by lia. by apply elem_of_nil in Hc.
Qed.

Lemma parent_Some_in_range h n p :
  parentNode (h !!! n) = Some p -> n < length h.
Proof.
  intros Hc. destruct (decide (n < length h)); [done|].
  by rewrite node_out_of_range in Hc by lia.
Qed.

Lemma trailing_blank_elem h post nx :
  trailing_blank h post = Some nx -> nx ∈ post.
Proof.
  unfold trailing_blank. destruct post as [|y ?]; [done|].
  destruct (isBlankTextNode h (Some y)); [|done].
  intros [= ->]. by left.
Qed.

Lemma after_blank_subset h post x : x ∈ after_blank h post -> x ∈ post.
Proof.
  unfold after_blank. destruct (trailing_blank h post); [|done].
  destruct post; [done|]. simpl. by right.
Qed.

(** The removal of the blank text node after [node]. *)
Section RemoveBlank.
Variables (h : Heap) (node p : nat) (pre post : list nat).
Hypothesis Hsplit : childNodes (h !!! p) = pre ++ node :: post.
Hypothesis Hwf : wf_children h p.

Let next := at_index (childNodes (h !!! p))
              (indexOf node (childNodes (h !!! p)) + 1).
Let h1 := remove_if_blank next h.

Lemma split_first : (node ∉ pre) /\ (node ∉ post).
Proof.
  destruct Hwf as [Hnd _]. rewrite Hsplit in Hnd.
  apply NoDup_app in Hnd as (_ & Hpre & Hnd).
  apply NoDup_cons in Hnd as [Hpost _].
  split; [|done]. intros Hin. apply (Hpre _ Hin). by left.
Qed.

Lemma next_is_head : next = head post.
Proof.
  subst next. rewrite Hsplit, indexOf_first by apply split_first.
  apply at_index_next.
Qed.

Lemma remove_if_blank_cases :
  (trailing_blank h post = None /\ h1 = h) \/
  (exists nx post', post = nx :: post' /\ trailing_blank h post = Some nx /\
     h1 = dom5.remove nx h).
Proof.
  subst h1. rewrite next_is_head. unfold remove_if_blank, trailing_blank.
  destruct post as [|nx post']; cbn [head].
  - by left.
  - destruct (isBlankTextNode h (Some nx)) eqn:E.
    + right. by exists nx, post'.
    + by left.
Qed.

Lemma length_remove_if_blank : length h1 = length h.
Proof.
  destruct remove_if_blank_cases as [[_ ->]|(nx & post' & _ & _ & ->)];
    [done|apply length_remove].
Qed.

Lemma payload_remove_if_blank j : payload (h1 !!! j) = payload (h !!! j).
Proof.
  destruct remove_if_blank_cases as [[_ ->]|(nx & post' & _ & _ & ->)];
    [done|apply payload_remove].
Qed.

Lemma parent_remove_if_blank j :
  parentNode (h1 !!! j) =
  if decide (trailing_blank h post = Some j) then None
  else parentNode (h !!! j).
Proof.
  destruct remove_if_blank_cases as [[Ht ->]|(nx & post' & _ & Ht & ->)];
    rewrite Ht.
  - by rewrite decide_False.
  - rewrite parent_remove. repeat case_decide; congruence.
Qed.

Lemma children_remove_if_blank j :
  childNodes (h1 !!! j) =
  if decide (j = p) then pre ++ node :: after_blank h post
  else childNodes (h !!! j).
Proof.
  unfold after_blank.
  destruct remove_if_blank_cases as [[Ht ->]|(nx & post' & Hpost & Ht & ->)];
    rewrite Ht.
  - case_decide; [by subst|done].
  - rewrite children_remove.
    destruct Hwf as [Hnd Hpar].
    rewrite (Hpar nx) by (rewrite Hsplit, Hpost; set_solver).
    case_decide; [subst j|done].
    rewrite Hsplit, Hpost. simpl.
    rewrite Hsplit, Hpost in Hnd.
    replace (pre ++ node :: nx :: post') with ((pre ++ [node]) ++ nx :: post')
      by (rewrite <- app_assoc; reflexivity).
    replace (pre ++ node :: nx :: post') with ((pre ++ [node]) ++ nx :: post')
      in Hnd by (rewrite <- app_assoc; reflexivity).
    apply NoDup_app in Hnd as (_ & Hpre & _).
    rewrite indexOf_first, splice_delete_at.
    + by rewrite <- app_assoc.
    + intros Hin. apply (Hpre _ Hin). by left.
Qed.

Lemma trailing_blank_not_node : trailing_blank h post <> Some node.
Proof.
  intros H%trailing_blank_elem. destruct split_first as [_ Hp]. by apply Hp.
Qed.

End RemoveBlank.

Lemma payload_kind a b : payload a = payload b -> kind a = kind b.
Proof. unfold payload. congruence. Qed.

Lemma payload_text a b : payload a = payload b -> text a = text b.
Proof. unfold payload. congruence. Qed.

Lemma payload_attrs a b : payload a = payload b -> attrs a = attrs b.
Proof. unfold payload. congruence. Qed.

Lemma payload_tagName a b : payload a = payload b -> tagName a = tagName b.
Proof. unfold payload. congruence. Qed.

Lemma payload_isDocumentFragment a b :
  payload a = payload b ->
  dom5.isDocumentFragment a = dom5.isDocumentFragment b.
Proof. intros H%payload_kind. unfold dom5.isDocumentFragment. by rewrite H. Qed.

(** removeElementAndNewline on an attached node *)
Section RemoveElementAndNewline.
Variables (h : Heap) (node p : nat) (pre post : list nat).
Hypothesis Hparent : parentNode (h !!! node) = Some p.
Hypothesis Hsplit : childNodes (h !!! p) = pre ++ node :: post.
Hypothesis Hwf : wf_children h p.

Let next := at_index (childNodes (h !!! p))
              (indexOf node (childNodes (h !!! p)) + 1).
Let h1 := remove_if_blank next h.

Lemma node_parent_after_blank : parentNode (h1 !!! node) = Some p.
Proof.
  subst h1 next. rewrite (parent_remove_if_blank h node p pre post) by done.
  rewrite decide_False; [done|].
  by apply (trailing_blank_not_node h node p pre post).
Qed.

Lemma children_after_blank :
  childNodes (h1 !!! p) = pre ++ node :: after_blank h post.
Proof.
  subst h1 next. rewrite (children_remove_if_blank h node p pre post) by done.
  by rewrite decide_True.
Qed.

Lemma indexOf_after_blank :
  indexOf node (childNodes (h1 !!! p)) = Z.of_nat (length pre).
Proof.
  rewrite children_after_blank. apply indexOf_first.
  by apply (split_first h node p pre post).
Qed.

(** No replacement: the node goes away. *)
Section Plain.
Let h' := dom5.remove node h1.

Lemma removeElementAndNewline_plain :
  removeElementAndNewline (Some node) None h = Ok h'.
Proof. unfold removeElementAndNewline. by rewrite Hparent. Qed.

Lemma length_removed : length h' = length h.
Proof.
  subst h' h1 next. rewrite length_remove.
  by apply (length_remove_if_blank h node p pre post).
Qed.

Lemma payload_removed j : payload (h' !!! j) = payload (h !!! j).
Proof.
  subst h' h1 next. rewrite payload_remove.
  by apply (payload_remove_if_blank h node p pre post).
Qed.

Lemma children_removed j :
  childNodes (h' !!! j) =
  if decide (j = p) then pre ++ after_blank h post
  else childNodes (h !!! j).
Proof.
  subst h'. rewrite children_remove, node_parent_after_blank.
  case_decide.
  - rewrite indexOf_after_blank, children_after_blank.
    apply splice_delete_at.
  - subst h1 next.
    rewrite (children_remove_if_blank h node p pre post) by done.
    by rewrite decide_False.
Qed.

Lemma parent_removed j :
  parentNode (h' !!! j) =
  if decide (j = node \/ trailing_blank h post = Some j) then None
  else parentNode (h !!! j).
Proof.
  subst h'. rewrite parent_remove.
  subst h1 next.
  rewrite (parent_remove_if_blank h node p pre post) by done.
  repeat case_decide; try done; tauto.
Qed.
End Plain.

(** A detached node takes the place. *)
Section ByNode.
Variable r : nat.
Hypothesis Hr_kind : dom5.isDocumentFragment (h !!! r) = false.
Hypothesis Hr_detached : parentNode (h !!! r) = None.
Hypothesis Hr : r < length h.

Let h' := dom5.insertNode p (Z.of_nat (length pre)) r true h1.

Lemma removeElementAndNewline_by_node :
  removeElementAndNewline (Some node) (Some r) h = Ok h'.
Proof.
  unfold removeElementAndNewline. rewrite Hparent.
  fold next. fold h1. unfold dom5.replace.
  by rewrite node_parent_after_blank, indexOf_after_blank.
Qed.

Lemma replaced_by_node_side :
  dom5.isDocumentFragment (h1 !!! r) = false /\
  parentNode (h1 !!! r) = None /\ r < length h1 /\ p < length h1.
Proof.
  subst h1 next.
  rewrite (length_remove_if_blank h node p pre post) by done.
  rewrite (parent_remove_if_blank h node p pre post) by done.
  rewrite (payload_isDocumentFragment _ (h !!! r))
    by by apply (payload_remove_if_blank h node p pre post).
  repeat split; try done.
  - by case_decide.
  - apply (children_nonempty_in_range h p node). rewrite Hsplit.
    set_solver.
Qed.

Lemma length_replaced_by_node : length h' = length h.
Proof.
  destruct replaced_by_node_side as (H1 & H2 & H3 & H4).
  subst h'. rewrite length_insertNode_node by done.
  subst h1 next. by apply (length_remove_if_blank h node p pre post).
Qed.

Lemma payload_replaced_by_node j : payload (h' !!! j) = payload (h !!! j).
Proof.
  destruct replaced_by_node_side as (H1 & H2 & H3 & H4).
  subst h'. rewrite payload_insertNode_node by done.
  subst h1 next. by apply (payload_remove_if_blank h node p pre post).
Qed.

Lemma children_replaced_by_node j :
  childNodes (h' !!! j) =
  if decide (j = p) then pre ++ r :: after_blank h post
  else childNodes (h !!! j).
Proof.
  destruct replaced_by_node_side as (H1 & H2 & H3 & H4).
  subst h'. rewrite children_insertNode_node by done.
  case_decide.
  - rewrite children_after_blank. apply splice_replace_at.
  - subst h1 next.
    rewrite (children_remove_if_blank h node p pre post) by done.
    by rewrite decide_False.
Qed.

Lemma parent_replaced_by_node j :
  parentNode (h' !!! j) =
  if decide (j = node) then None
  else if decide (j = r) then Some p
  else if decide (trailing_blank h post = Some j) then None
  else parentNode (h !!! j).
Proof.
  destruct replaced_by_node_side as (H1 & H2 & H3 & H4).
  subst h'. rewrite parent_insertNode_node by done.
  rewrite children_after_blank, at_index_length.
  destruct (decide (j = node)) as [->|].
  - by rewrite decide_True.
  - rewrite decide_False by congruence.
    case_decide; [done|].
    subst h1 next.
    by rewrite (parent_remove_if_blank h node p pre post).
Qed.
End ByNode.

(** A fragment takes the place: its children do. *)
Section ByFragment.
Variable frag : nat.
Hypothesis Hf_kind : dom5.isDocumentFragment (h !!! frag) = true.
Hypothesis Hf : frag < length h.
Hypothesis Hf_ne : frag <> p.

Let cs := childNodes (h !!! frag).
Let h' := dom5.insertNode p (Z.of_nat (length pre)) frag true h1.

Lemma removeElementAndNewline_by_fragment :
  removeElementAndNewline (Some node) (Some frag) h = Ok h'.
Proof.
  unfold removeElementAndNewline. rewrite Hparent.
  fold next. fold h1. unfold dom5.replace.
  by rewrite node_parent_after_blank, indexOf_after_blank.
Qed.

Lemma replaced_by_fragment_side :
  dom5.isDocumentFragment (h1 !!! frag) = true /\
  frag < length h1 /\ p < length h1 /\
  childNodes (h1 !!! frag) = cs.
Proof.
  subst h1 next cs.
  rewrite (length_remove_if_blank h node p pre post) by done.
  rewrite (children_remove_if_blank h node p pre post) by done.
  rewrite (payload_isDocumentFragment _ (h !!! frag))
    by by apply (payload_remove_if_blank h node p pre post).
  repeat split; try done.
  - apply (children_nonempty_in_range h p node). rewrite Hsplit.
    set_solver.
  - by rewrite decide_False.
Qed.

Lemma length_replaced_by_fragment : length h' = length h.
Proof.
  destruct replaced_by_fragment_side as (H1 & H2 & H3 & H4).
  subst h'. rewrite length_insertNode_fragment by done.
  subst h1 next. by apply (length_remove_if_blank h node p pre post).
Qed.

Lemma payload_replaced_by_fragment j :
  payload (h' !!! j) = payload (h !!! j).
Proof.
  destruct replaced_by_fragment_side as (H1 & H2 & H3 & H4).
  subst h'. rewrite payload_insertNode_fragment by done.
  subst h1 next. by apply (payload_remove_if_blank h node p pre post).
Qed.

Lemma children_replaced_by_fragment j :
  childNodes (h' !!! j) =
  if decide (j = p) then pre ++ cs ++ after_blank h post
  else if decide (j = frag) then []
  else childNodes (h !!! j).
Proof.
  destruct replaced_by_fragment_side as (H1 & H2 & H3 & H4).
  subst h'. rewrite children_insertNode_fragment by done.
  rewrite H4. case_decide.
  - rewrite children_after_blank. apply splice_replace_at.
  - case_decide; [done|]. subst h1 next.
    rewrite (children_remove_if_blank h node p pre post) by done.
    by rewrite decide_False.
Qed.

Lemma parent_replaced_by_fragment j :
  parentNode (h' !!! j) =
  if decide (j = node) then None
  else if decide (j ∈ cs /\ j < length h) then Some p
  else if decide (trailing_blank h post = Some j) then None
  else parentNode (h !!! j).
Proof.
  destruct replaced_by_fragment_side as (H1 & H2 & H3 & H4).
  subst h'. rewrite parent_insertNode_fragment by done.
  rewrite children_after_blank, at_index_length, H4.
  destruct (decide (j = node)) as [->|].
  - by rewrite decide_True.
  - rewrite decide_False by congruence.
    assert (length h1 = length h) as ->
      by (subst h1 next; by apply (length_remove_if_blank h node p pre post)).
    case_decide; [done|].
    subst h1 next.
    by rewrite (parent_remove_if_blank h node p pre post).
Qed.
End ByFragment.
End RemoveElementAndNewline.

(** ** Fresh nodes *)

Lemma node_alloc_old (h : Heap) (x : Node) j : j < length h -> (h ++ [x]) !!! j = h !!! j.
Proof.
  intros Hj. rewrite !list_lookup_total_alt. by rewrite lookup_app_l.
Qed.

Lemma node_alloc_new (h : Heap) (x : Node) : (h ++ [x]) !!! length h = x.
Proof.
  rewrite list_lookup_total_alt, lookup_app_r by lia.
  by rewrite Nat.sub_diag.
Qed.

Lemma alter_alloc_new (f : Node -> Node) (h : Heap) (x : Node) :
  alter f (length h) (h ++ [x]) = h ++ [f x].
Proof.
  rewrite <- (Nat.add_0_r (length h)). by rewrite alter_app_r.
Qed.

Lemma setAttribute_alloc_new (h : Heap) (x : Node) name value :
  dom5.setAttribute (length h) name value (h ++ [x]) =
  h ++ [match dom5.getAttributeIndex (attrs x) name with
        | Some i => set_attrs (alter (fun kv => (fst kv, value)) i (attrs x)) x
        | None => set_attrs (attrs x ++ [(name, value)]) x
        end].
Proof. unfold dom5.setAttribute. apply alter_alloc_new. Qed.

Lemma new_hidden_div_eq h : new_hidden_div h = (length h, h ++ [hidden_div]).
Proof.
  unfold new_hidden_div, dom5.constructors.element, alloc.
  by rewrite !setAttribute_alloc_new.
Qed.

Lemma length_setAttribute e name value h :
  length (dom5.setAttribute e name value h) = length h.
Proof. apply length_alter. Qed.

Lemma children_setAttribute e name value h j :
  childNodes (dom5.setAttribute e name value h !!! j) = childNodes (h !!! j).
Proof.
  unfold dom5.setAttribute. apply (frame_alter childNodes).
  intros x. by destruct (dom5.getAttributeIndex _ _).
Qed.

Lemma parent_setAttribute e name value h j :
  parentNode (dom5.setAttribute e name value h !!! j) = parentNode (h !!! j).
Proof.
  unfold dom5.setAttribute. apply (frame_alter parentNode).
  intros x. by destruct (dom5.getAttributeIndex _ _).
Qed.

(** ** prepend and append of a detached node *)

Section Prepend.
Variables (h : Heap) (parent n : nat).
Hypothesis Hkind : dom5.isDocumentFragment (h !!! n) = false.
Hypothesis Hdetached : parentNode (h !!! n) = None.
Hypothesis Hn : n < length h.
Hypothesis Hp : parent < length h.

Lemma prepend_detached :
  exists h', prepend (Some parent) n h = Ok h' /\
    length h' = length h /\
    (forall j, payload (h' !!! j) = payload (h !!! j)) /\
    (forall j, childNodes (h' !!! j) =
               if decide (j = parent) then n :: childNodes (h !!! parent)
               else childNodes (h !!! j)) /\
    (forall j, parentNode (h' !!! j) =
               if decide (j = n) then Some parent else parentNode (h !!! j)).
Proof.
  unfold prepend.
  assert (Hgen : forall index l,
    childNodes (h !!! parent) = l ->
    splice index 0 [n] l = n :: l ->
    let h' := dom5.insertNode parent index n false h in
    length h' = length h /\
    (forall j, payload (h' !!! j) = payload (h !!! j)) /\
    (forall j, childNodes (h' !!! j) =
               if decide (j = parent) then n :: l
               else childNodes (h !!! j)) /\
    (forall j, parentNode (h' !!! j) =
               if decide (j = n) then Some parent else parentNode (h !!! j))).
  { intros index l Hl Hsplice h'. subst h'. repeat split.
    - by apply length_insertNode_node.
    - intros j. by apply payload_insertNode_node.
    - intros j. rewrite children_insertNode_node by done.
      by rewrite Hl, Hsplice.
    - intros j. rewrite parent_insertNode_node by done.
      by rewrite decide_False. }
  destruct (childNodes (h !!! parent)) as [|first rest] eqn:Hl.
  - eexists. split; [reflexivity|]. unfold dom5.append. rewrite Hl.
    by apply Hgen.
  - eexists. split; [reflexivity|]. unfold dom5.insertBefore. rewrite Hl.
    rewrite indexOf_head. apply Hgen; [done|]. apply splice_insert_front.
Qed.

Lemma append_detached :
  let h' := dom5.append parent n h in
  length h' = length h /\
  (forall j, payload (h' !!! j) = payload (h !!! j)) /\
  (forall j, childNodes (h' !!! j) =
             if decide (j = parent) then childNodes (h !!! parent) ++ [n]
             else childNodes (h !!! j)) /\
  (forall j, parentNode (h' !!! j) =
             if decide (j = n) then Some parent else parentNode (h !!! j)).
Proof.
  intros h'. subst h'. unfold dom5.append. repeat split.
  - by apply length_insertNode_node.
  - intros j. by apply payload_insertNode_node.
  - intros j. rewrite children_insertNode_node by done.
    by rewrite splice_insert_back.
  - intros j. rewrite parent_insertNode_node by done.
    by rewrite decide_False.
Qed.
End Prepend.

(** ** The hidden wrapper *)

Lemma isBlankTextNode_alloc (h : Heap) (x : Node) c :
  c < length h ->
  isBlankTextNode (h ++ [x]) (Some c) = isBlankTextNode h (Some c).
Proof. intros Hc. by rewrite !isBlankTextNode_Some, node_alloc_old. Qed.

Lemma after_blank_alloc (h : Heap) (x : Node) post :
  (forall c, c ∈ post -> c < length h) ->
  after_blank (h ++ [x]) post = after_blank h post.
Proof.
  intros Hpost. unfold after_blank, trailing_blank.
  destruct post as [|c post']; [done|].
  rewrite isBlankTextNode_alloc; [done|]. apply Hpost. by left.
Qed.

Lemma wf_children_in_range h p c :
  wf_children h p -> c ∈ childNodes (h !!! p) -> c < length h.
Proof.
  intros [_ Hback] Hc. eapply parent_Some_in_range. by apply Hback.
Qed.

Lemma wf_children_alloc (h : Heap) (x : Node) p :
  wf_children h p -> p < length h -> wf_children (h ++ [x]) p.
Proof.
  intros Hwf Hp. pose proof Hwf as [Hnd Hback]. unfold wf_children.
  rewrite node_alloc_old by done. split; [done|].
  intros c Hc. rewrite node_alloc_old; [by apply Hback|].
  by apply (wf_children_in_range h p).
Qed.

Lemma bind_Ok {A B} (x : A) (f : A -> Res B) : (Ok x ≫= f) = f x.
Proof. done. Qed.

Lemma place_import_hidden_eq h node moveTarget frag :
  ancestorWalk h (Some node) moveTarget = Ok false ->
  place_import true moveTarget (Some node) frag h =
  (h2 ← removeElementAndNewline (Some node) (Some (length h))
          (h ++ [hidden_div]);
   removeElementAndNewline (Some node) (Some frag)
     (dom5.append (length h) node h2)).
Proof.
  intros Hwalk. unfold place_import. rewrite Hwalk. rewrite bind_Ok.
  unfold hide. rewrite new_hidden_div_eq.
  change (true && negb false) with true. cbv iota.
  by destruct (removeElementAndNewline (Some node) (Some (length h))
                 (h ++ [hidden_div])).
Qed.

Section PlaceImport.
Variables (h : Heap) (node p frag moveTarget : nat) (pre post : list nat).
Hypothesis Hparent : parentNode (h !!! node) = Some p.
Hypothesis Hsplit : childNodes (h !!! p) = pre ++ node :: post.
Hypothesis Hwf : wf_children h p.
Hypothesis Hnode_kind : dom5.isDocumentFragment (h !!! node) = false.
Hypothesis Hfrag_kind : dom5.isDocumentFragment (h !!! frag) = true.
Hypothesis Hfrag : frag < length h.
Hypothesis Hfrag_ne : frag <> p.
Hypothesis Hcs : forall c, c ∈ childNodes (h !!! frag) -> c < length h.

Let cs := childNodes (h !!! frag).
Let hidden := length h.

Lemma place_import_range : node < length h /\ p < length h.
Proof.
  split; [by eapply parent_Some_in_range|].
  apply (children_nonempty_in_range h p node). rewrite Hsplit. set_solver.
Qed.

(** Without a wrapper: the merged nodes take the place of the import. *)
Lemma place_import_direct isMainDoc :
  (isMainDoc = false \/
   ancestorWalk h (Some node) moveTarget = Ok true) ->
  exists h',
    place_import isMainDoc moveTarget (Some node) frag h = Ok h' /\
    length h' = length h /\
    (forall j, payload (h' !!! j) = payload (h !!! j)) /\
    childNodes (h' !!! p) = pre ++ cs ++ after_blank h post /\
    parentNode (h' !!! node) = None /\
    (forall c, c ∈ cs -> c <> node -> parentNode (h' !!! c) = Some p).
Proof.
  intros Hcase.
  exists (dom5.insertNode p (Z.of_nat (length pre)) frag true
            (remove_if_blank
               (at_index (childNodes (h !!! p))
                  (indexOf node (childNodes (h !!! p)) + 1)) h)).
  split.
  { unfold place_import.
    assert (Hskip : (inside ← (if isMainDoc
                       then ancestorWalk h (Some node) moveTarget
                       else Ok false);
                     h' ← (if isMainDoc && negb inside
                           then hide (Some node) h else Ok h);
                     removeElementAndNewline (Some node) (Some frag) h')
                    = removeElementAndNewline (Some node) (Some frag) h).
    { destruct isMainDoc; [|done]. by destruct Hcase as [?| ->]. }
    rewrite Hskip.
    by apply (removeElementAndNewline_by_fragment h node p pre post). }
  repeat split.
  - by apply (length_replaced_by_fragment h node p pre post).
  - intros j. by apply (payload_replaced_by_fragment h node p pre post).
  - rewrite (children_replaced_by_fragment h node p pre post) by done.
    by rewrite decide_True.
  - rewrite (parent_replaced_by_fragment h node p pre post) by done.
    by rewrite decide_True.
  - intros c Hc Hne.
    rewrite (parent_replaced_by_fragment h node p pre post) by done.
    rewrite decide_False by done. rewrite decide_True; [done|].
    split; [done|by apply Hcs].
Qed.

(** With a wrapper: a new hidden container takes the place of the
    import, and the merged nodes are its children. *)
Lemma place_import_hidden :
  ancestorWalk h (Some node) moveTarget = Ok false ->
  exists h',
    place_import true moveTarget (Some node) frag h = Ok h' /\
    length h' = S (length h) /\
    (forall j, j < length h -> payload (h' !!! j) = payload (h !!! j)) /\
    payload (h' !!! hidden) = payload hidden_div /\
    parentNode (h' !!! hidden) = Some p /\
    childNodes (h' !!! hidden) = cs /\
    childNodes (h' !!! p) = pre ++ hidden :: after_blank h post /\
    parentNode (h' !!! node) = None /\
    (forall c, c ∈ cs -> c <> node -> parentNode (h' !!! c) = Some hidden).
Proof.
  intros Hwalk. destruct place_import_range as [Hnode Hp].
  rewrite place_import_hidden_eq by done.
  set (h1 := h ++ [hidden_div]).
  assert (Hlen1 : length h1 = S (length h))
    by (subst h1; rewrite length_app; simpl; lia).
  assert (Hold : forall j, j < length h -> h1 !!! j = h !!! j)
    by (intros; by apply node_alloc_old).
  assert (Hnew : h1 !!! hidden = hidden_div) by apply node_alloc_new.
  (* the import is replaced by the wrapper *)
  assert (Hparent1 : parentNode (h1 !!! node) = Some p)
    by by rewrite Hold.
  assert (Hsplit1 : childNodes (h1 !!! p) = pre ++ node :: post)
    by by rewrite Hold.
  assert (Hwf1 : wf_children h1 p) by by apply wf_children_alloc.
  assert (Hpost : after_blank h1 post = after_blank h post).
  { apply after_blank_alloc. intros c Hc.
    apply (wf_children_in_range h p); [done|]. rewrite Hsplit. set_solver. }
  assert (Hk1 : dom5.isDocumentFragment (h1 !!! hidden) = false)
    by by rewrite Hnew.
  assert (Hd1 : parentNode (h1 !!! hidden) = None) by by rewrite Hnew.
  assert (Hr1 : hidden < length h1) by (subst hidden; lia).
  rewrite (removeElementAndNewline_by_node h1 node p pre post) by done.
  rewrite bind_Ok.
  set (h2 := dom5.insertNode p (Z.of_nat (length pre)) hidden true
               (remove_if_blank
                  (at_index (childNodes (h1 !!! p))
                     (indexOf node (childNodes (h1 !!! p)) + 1)) h1)).
  assert (Hlen2 : length h2 = length h1)
    by by apply (length_replaced_by_node h1 node p pre post).
  assert (Hpay2 : forall j, payload (h2 !!! j) = payload (h1 !!! j))
    by (intros; by apply (payload_replaced_by_node h1 node p pre post)).
  assert (Hch2 : forall j, childNodes (h2 !!! j) =
            if decide (j = p) then pre ++ hidden :: after_blank h1 post
            else childNodes (h1 !!! j))
    by (intros; by apply (children_replaced_by_node h1 node p pre post)).
  assert (Hpa2 : forall j, parentNode (h2 !!! j) =
            if decide (j = node) then None
            else if decide (j = hidden) then Some p
            else if decide (trailing_blank h1 post = Some j) then None
            else parentNode (h1 !!! j))
    by (intros; by apply (parent_replaced_by_node h1 node p pre post)).
  (* the import goes into the wrapper *)
  assert (Hne_hp : hidden <> p) by (subst hidden; lia).
  assert (Hne_hn : hidden <> node) by (subst hidden; lia).
  assert (Hne_hf : hidden <> frag) by (subst hidden; lia).
  destruct (append_detached h2 hidden node) as (Hlen3 & Hpay3 & Hch3 & Hpa3).
  { rewrite (payload_isDocumentFragment _ (h1 !!! node)) by apply Hpay2.
    by rewrite Hold. }
  { by rewrite Hpa2, decide_True. }
  { lia. }
  { lia. }
  set (h3 := dom5.append hidden node h2) in *.
  (* the fragment replaces the import inside the wrapper *)
  assert (Hparent3 : parentNode (h3 !!! node) = Some hidden)
    by by rewrite Hpa3, decide_True.
  assert (Hsplit3 : childNodes (h3 !!! hidden) = [] ++ node :: []).
  { rewrite Hch3, decide_True by done.
    rewrite Hch2, decide_False by done. by rewrite Hnew. }
  assert (Hwf3 : wf_children h3 hidden).
  { split; rewrite Hsplit3; simpl.
    - apply NoDup_singleton.
    - by intros c ->%list_elem_of_singleton. }
  assert (Hk3 : dom5.isDocumentFragment (h3 !!! frag) = true).
  { rewrite (payload_isDocumentFragment _ (h2 !!! frag)) by apply Hpay3.
    rewrite (payload_isDocumentFragment _ (h1 !!! frag)) by apply Hpay2.
    by rewrite Hold. }
  assert (Hf3 : frag < length h3) by lia.
  assert (Hcs3 : childNodes (h3 !!! frag) = cs).
  { rewrite Hch3, decide_False by done.
    rewrite Hch2, decide_False by done. by rewrite Hold. }
  rewrite (removeElementAndNewline_by_fragment h3 node hidden [] [])
    by done.
  eexists. split; [reflexivity|].
  set (h4 := dom5.insertNode hidden (Z.of_nat (length (@nil nat))) frag true
               (remove_if_blank
                  (at_index (childNodes (h3 !!! hidden))
                     (indexOf node (childNodes (h3 !!! hidden)) + 1)) h3)).
  assert (Hlen4 : length h4 = length h3)
    by by apply (length_replaced_by_fragment h3 node hidden [] []).
  assert (Hpay4 : forall j, payload (h4 !!! j) = payload (h3 !!! j))
    by (intros; by apply (payload_replaced_by_fragment h3 node hidden [] [])).
  assert (Hch4 : forall j, childNodes (h4 !!! j) =
            if decide (j = hidden)
            then [] ++ childNodes (h3 !!! frag) ++ after_blank h3 []
            else if decide (j = frag) then []
            else childNodes (h3 !!! j))
    by (intros; by apply (children_replaced_by_fragment h3 node hidden [] [])).
  assert (Hpa4 : forall j, parentNode (h4 !!! j) =
            if decide (j = node) then None
            else if decide (j ∈ childNodes (h3 !!! frag) /\ j < length h3)
                 then Some hidden
            else if decide (trailing_blank h3 [] = Some j) then None
            else parentNode (h3 !!! j))
    by (intros; by apply (parent_replaced_by_fragment h3 node hidden [] [])).
  assert (Hall : forall j, payload (h4 !!! j) = payload (h1 !!! j))
    by (intros; by rewrite Hpay4, Hpay3, Hpay2).
  repeat split.
  - lia.
  - intros j Hj. by rewrite Hall, Hold.
  - by rewrite Hall, Hnew.
  - rewrite Hpa4, decide_False by done.
    rewrite decide_False.
    + simpl. rewrite Hpa3, decide_False by done.
      rewrite Hpa2, decide_False by done. by rewrite decide_True.
    + rewrite Hcs3. intros [Hin _]. apply Hcs in Hin. subst hidden. lia.
  - rewrite Hch4, decide_True by done. rewrite Hcs3. simpl.
    by rewrite app_nil_r.
  - rewrite Hch4, decide_False by done. rewrite decide_False by done.
    rewrite Hch3, decide_False by done.
    by rewrite Hch2, decide_True, Hpost.
  - by rewrite Hpa4, decide_True.
  - intros c Hc Hne. rewrite Hpa4, decide_False by done.
    rewrite decide_True; [done|]. rewrite Hcs3. split; [done|].
    apply Hcs in Hc. lia.
Qed.
End PlaceImport.

(** ** New elements at the top of [<head>] *)

Lemma prepend_new (h : Heap) (x : Node) hd :
  dom5.isDocumentFragment x = false -> parentNode x = None ->
  hd < length h ->
  exists h', prepend (Some hd) (length h) (h ++ [x]) = Ok h' /\
    length h' = S (length h) /\
    (forall j, j < length h -> payload (h' !!! j) = payload (h !!! j)) /\
    (forall j, j < length h -> parentNode (h' !!! j) = parentNode (h !!! j)) /\
    (forall j, j < length h ->
       childNodes (h' !!! j) =
       if decide (j = hd) then length h :: childNodes (h !!! hd)
       else childNodes (h !!! j)) /\
    payload (h' !!! length h) = payload x /\
    parentNode (h' !!! length h) = Some hd /\
    childNodes (h' !!! length h) = childNodes x.
Proof.
  intros Hk Hd Hhd.
  assert (Hlen : length (h ++ [x]) = S (length h))
    by (rewrite length_app; simpl; lia).
  destruct (prepend_detached (h ++ [x]) hd (length h))
    as (h' & Hrun & Hlen' & Hpay & Hch & Hpa).
  - by rewrite node_alloc_new.
  - by rewrite node_alloc_new.
  - lia.
  - lia.
  - exists h'. split; [done|]. repeat split.
    + lia.
    + intros j Hj. by rewrite Hpay, node_alloc_old.
    + intros j Hj. rewrite Hpa, decide_False by lia. by rewrite node_alloc_old.
    + intros j Hj. rewrite Hch. rewrite !node_alloc_old by done.
      done.
    + by rewrite Hpay, node_alloc_new.
    + by rewrite Hpa, decide_True.
    + rewrite Hch, decide_False by lia. by rewrite node_alloc_new.
Qed.

Lemma new_link_eq (h : Heap) url :
  dom5.setAttribute (length h) "href" url
    (dom5.setAttribute (length h) "rel" "import"
       (h ++ [dom5.newElement "link"]))
  = h ++ [link_node url].
Proof. by rewrite !setAttribute_alloc_new. Qed.

Lemma new_meta_eq (h : Heap) :
  dom5.setAttribute (length h) "charset" "UTF-8"
    (h ++ [dom5.newElement "meta"])
  = h ++ [meta_node].
Proof. by rewrite !setAttribute_alloc_new. Qed.

Lemma add_imports_spec hd added : forall h,
  hd < length h ->
  exists h', add_imports (Some hd) added h = Ok h' /\
    length h' = length h + length added /\
    (forall j, j < length h -> payload (h' !!! j) = payload (h !!! j)) /\
    (forall j, j < length h -> parentNode (h' !!! j) = parentNode (h !!! j)) /\
    (forall j, j < length h ->
       childNodes (h' !!! j) =
       if decide (j = hd)
       then reverse (seq (length h) (length added)) ++ childNodes (h !!! hd)
       else childNodes (h !!! j)) /\
    (forall i url, added !! i = Some url ->
       payload (h' !!! (length h + i)) = payload (link_node url) /\
       parentNode (h' !!! (length h + i)) = Some hd).
Proof.
  induction added as [|url added IH]; intros h Hhd.
  - exists h. split; [done|]. split; [simpl; lia|].
    split; [done|]. split; [done|]. split.
    + intros j Hj. simpl. by case_decide; subst.
    + intros i url Hi. by rewrite lookup_nil in Hi.
  - unfold add_imports; fold add_imports.
    unfold dom5.constructors.element, alloc.
    rewrite new_link_eq.
    destruct (prepend_new h (link_node url) hd)
      as (h1 & -> & Hlen1 & Hpay1 & Hpa1 & Hch1 & Hnp & Hnpa & Hnch);
      [done..|].
    rewrite bind_Ok.
    destruct (IH h1) as (h' & -> & Hlen & Hpay & Hpa & Hch & Hnew); [lia|].
    exists h'. split; [done|]. repeat split.
    + simpl. lia.
    + intros j Hj. rewrite Hpay by lia. by apply Hpay1.
    + intros j Hj. rewrite Hpa by lia. by apply Hpa1.
    + intros j Hj. rewrite Hch by lia. rewrite !Hch1 by done.
      rewrite Hlen1. simpl. rewrite reverse_cons, <- app_assoc. simpl.
      case_decide; [|done]. by rewrite decide_True.
    + destruct i as [|i]; simpl in H; [injection H as <-|].
      * rewrite Nat.add_0_r. rewrite Hpay by lia. done.
      * replace (length h + S i) with (length h1 + i) by lia.
        by destruct (Hnew i _ H).
    + destruct i as [|i]; simpl in H; [injection H as <-|].
      * rewrite Nat.add_0_r. rewrite Hpa by lia. done.
      * replace (length h + S i) with (length h1 + i) by lia.
        by destruct (Hnew i _ H).
Qed.

(** ** Walks and reachability *)

Lemma reach_refl h r : reach h r r.
Proof. apply rtc_refl. Qed.

Lemma reach_child h r x c :
  reach h r x -> c ∈ childNodes (h !!! x) -> reach h r c.
Proof. intros Hr Hc. eapply rtc_r; [exact Hr|exact Hc]. Qed.

Lemma reach_last h r x :
  reach h r x -> x = r \/ exists m, reach h r m /\ x ∈ childNodes (h !!! m).
Proof.
  intros H. apply rtc_inv_r in H as [->|(m & Hm & Hc)]; [by left|].
  right. by exists m.
Qed.

Lemma reach_first h r x :
  reach h r x -> x = r \/ exists c, c ∈ childNodes (h !!! r) /\ reach h c x.
Proof.
  intros H. apply rtc_inv in H as [->|(c & Hc & Hx)]; [by left|].
  right. by exists c.
Qed.

(** Fewer edges, fewer reachable nodes. *)
Lemma reach_mono h h' r x :
  (forall m c, c ∈ childNodes (h' !!! m) -> c ∈ childNodes (h !!! m)) ->
  reach h' r x -> reach h r x.
Proof.
  intros Hsub H. induction H as [|a b c Hab Hbc IH]; [apply rtc_refl|].
  eapply rtc_l; [|exact IH]. by apply Hsub.
Qed.

Lemma all_matches_elem g cs rs x :
  dom5.all_matches g cs = Ok rs ->
  x ∈ rs <-> exists c lc, c ∈ cs /\ g c = Ok lc /\ x ∈ lc.
Proof.
  revert rs. induction cs as [|c cs IH]; intros rs; simpl.
  - intros [= <-]. split; [by intros ?%elem_of_nil|].
    by intros (c & lc & ?%elem_of_nil & _).
  - destruct (g c) as [lc|e] eqn:Hc; simpl; [|done].
    destruct (dom5.all_matches g cs) as [r|e] eqn:Hcs; simpl; [|done].
    intros [= <-]. rewrite elem_of_app, (IH r eq_refl). split.
    + intros [Hx|(c' & lc' & Hin & Hg & Hx)].
      * exists c, lc. split; [by left|done].
      * exists c', lc'. split; [by right|done].
    + intros (c' & lc' & Hin & Hg & Hx).
      apply elem_of_cons in Hin as [->|Hin].
      * left. congruence.
      * right. by exists c', lc'.
Qed.

Lemma all_matches_defined g cs rs c :
  dom5.all_matches g cs = Ok rs -> c ∈ cs -> exists lc, g c = Ok lc.
Proof.
  revert rs. induction cs as [|c' cs IH]; intros rs; simpl.
  - by intros _ ?%elem_of_nil.
  - destruct (g c') as [lc|e] eqn:Hc; simpl; [|done].
    destruct (dom5.all_matches g cs) as [r|e] eqn:Hcs; simpl; [|done].
    intros _ [->|Hin]%elem_of_cons; [by exists lc|].
    by apply (IH r).
Qed.

(** [nodeWalkAll] returns exactly the nodes under the root that satisfy
    the predicate. *)
Lemma nodeWalkAll_fuel_spec fuel h p r l x :
  dom5.nodeWalkAll_fuel fuel h p r = Ok l ->
  x ∈ l <-> reach h r x /\ p (h !!! x) = true.
Proof.
  revert r l. induction fuel as [|fuel IH]; intros r l; simpl; [done|].
  destruct (dom5.all_matches _ _) as [rs|e] eqn:Hrs; simpl; [|done].
  intros [= <-].
  assert (Hrest : x ∈ rs <->
            exists c, c ∈ childNodes (h !!! r) /\ reach h c x /\
                      p (h !!! x) = true).
  { rewrite (all_matches_elem _ _ _ _ Hrs). split.
    - intros (c & lc & Hin & Hg & Hx). exists c. split; [done|].
      by apply (IH c lc).
    - intros (c & Hin & Hreach & Hp).
      destruct (all_matches_defined _ _ _ c Hrs Hin) as [lc Hg].
      exists c, lc. split; [done|]. split; [done|]. by apply (IH c lc). }
  split.
  - intros Hx.
    assert (x = r /\ p (h !!! r) = true \/ x ∈ rs) as [[-> Hp]|Hx'].
    { destruct (p (h !!! r)); [|by right].
      apply elem_of_cons in Hx as [->|]; [by left|by right]. }
    + split; [apply reach_refl|done].
    + apply Hrest in Hx' as (c & Hin & Hreach & Hp). split; [|done].
      eapply rtc_l; [exact Hin|exact Hreach].
  - intros [Hreach Hp].
    apply reach_first in Hreach as [->|(c & Hin & Hreach)].
    + rewrite Hp. by left.
    + assert (x ∈ rs) by (apply Hrest; by exists c).
      destruct (p (h !!! r)); [by right|done].
Qed.

Lemma nodeWalkAll_spec h p r l x :
  dom5.nodeWalkAll h r p = Ok l ->
  x ∈ l <-> reach h r x /\ p (h !!! x) = true.
Proof. apply nodeWalkAll_fuel_spec. Qed.

Lemma descendants_spec h r l x :
  descendants h r = Ok l -> x ∈ l <-> reach h r x.
Proof.
  intros H. rewrite (nodeWalkAll_spec _ _ _ _ x H). tauto.
Qed.

Lemma wf_children_b_sound h p : wf_children_b h p = true -> wf_children h p.
Proof.
  unfold wf_children_b, wf_children.
  intros [Hnd Hall]%andb_prop. split.
  - by apply bool_decide_eq_true in Hnd.
  - intros c Hc. rewrite forallb_forall in Hall.
    apply list_elem_of_In in Hc. apply Hall in Hc.
    by apply bool_decide_eq_true in Hc.
Qed.

Lemma wf_doc_b_sound h doc : wf_doc_b h doc = true -> wf_doc h doc.
Proof.
  unfold wf_doc_b. destruct (descendants h doc) as [l|] eqn:Hl; [|done].
  intros Hall m Hm. apply wf_children_b_sound.
  rewrite forallb_forall in Hall. apply Hall.
  apply list_elem_of_In. by apply (descendants_spec _ _ _ _ Hl).
Qed.

Lemma reach_b_sound h doc x : reach_b h doc x = true -> reach h doc x.
Proof.
  unfold reach_b. destruct (descendants h doc) as [l|] eqn:Hl; [|done].
  intros H%bool_decide_eq_true. by apply (descendants_spec _ _ _ _ Hl).
Qed.
Lemma find_app {A} (q : A -> bool) (l1 l2 : list A) :
  List.find q (l1 ++ l2) =
  match List.find q l1 with
  | Some x => Some x
  | None => List.find q l2
  end.
Proof.
  induction l1 as [|a l1 IH]; simpl; [done|]. by destruct (q a).
Qed.

Lemma first_match_of_all g g' (q : nat -> bool) cs rs :
  dom5.all_matches g cs = Ok rs ->
  (forall c lc, g c = Ok lc -> g' c = Ok (List.find q lc)) ->
  dom5.first_match g' cs = Ok (List.find q rs).
Proof.
  intros Hall Hg. revert rs Hall.
  induction cs as [|c cs IH]; intros rs; simpl.
  - by intros [= <-].
  - destruct (g c) as [lc|e] eqn:Hc; simpl; [|done].
    destruct (dom5.all_matches g cs) as [r|e] eqn:Hcs; simpl; [|done].
    intros [= <-]. rewrite (Hg c lc Hc), find_app.
    destruct (List.find q lc); [done|]. by apply IH.
Qed.

(** On a document that can be walked through, [nodeWalk] returns the first
    node in document order that satisfies the predicate. *)
Lemma nodeWalk_fuel_of_descendants fuel h p r l :
  dom5.nodeWalkAll_fuel fuel h (fun _ => true) r = Ok l ->
  dom5.nodeWalk_fuel fuel h p r = Ok (List.find (fun x => p (h !!! x)) l).
Proof.
  revert r l. induction fuel as [|fuel IH]; intros r l; simpl; [done|].
  destruct (dom5.all_matches _ _) as [rs|e] eqn:Hrs; simpl; [|done].
  intros [= <-]. simpl. destruct (p (h !!! r)); [done|].
  eapply first_match_of_all; [exact Hrs|]. intros c lc. apply IH.
Qed.

Lemma nodeWalk_of_descendants h p r l :
  descendants h r = Ok l ->
  dom5.nodeWalk h r p = Ok (List.find (fun x => p (h !!! x)) l).
Proof. apply nodeWalk_fuel_of_descendants. Qed.

Lemma query_of_descendants h p r l :
  descendants h r = Ok l ->
  dom5.query h r p =
  Ok (List.find (fun x => dom5.AND dom5.isElement p (h !!! x)) l).
Proof. apply nodeWalk_of_descendants. Qed.

Lemma first_match_found g cs x :
  dom5.first_match g cs = Ok (Some x) ->
  exists c, c ∈ cs /\ g c = Ok (Some x).
Proof.
  induction cs as [|c cs IH]; simpl; [done|].
  destruct (g c) as [[y|]|e] eqn:Hc.
  - intros [= ->]. exists c. split; [by left|done].
  - intros (c' & Hin & Hg)%IH. exists c'. split; [by right|done].
  - done.
Qed.

Lemma nodeWalk_fuel_found fuel h p r x :
  dom5.nodeWalk_fuel fuel h p r = Ok (Some x) ->
  reach h r x /\ p (h !!! x) = true.
Proof.
  revert r. induction fuel as [|fuel IH]; intros r; simpl; [done|].
  destruct (p (h !!! r)) eqn:Hp.
  - intros [= <-]. split; [apply reach_refl|done].
  - intros (c & Hin & Hg)%first_match_found.
    apply IH in Hg as [Hreach Hpx]. split; [|done].
    eapply rtc_l; [exact Hin|exact Hreach].
Qed.

Lemma query_found h p r x :
  dom5.query h r p = Ok (Some x) ->
  reach h r x /\ dom5.isElement (h !!! x) = true /\ p (h !!! x) = true.
Proof.
  intros [Hreach Hp]%nodeWalk_fuel_found. split; [done|].
  unfold dom5.AND in Hp. by apply andb_prop in Hp.
Qed.


(** ** Removing the comments *)

Lemma filter_ext_in {A} (P Q : A -> Prop) `{!forall x, Decision (P x)}
  `{!forall x, Decision (Q x)} (l : list A) :
  (forall x, x ∈ l -> P x <-> Q x) -> filter P l = filter Q l.
Proof.
  induction l as [|a l IH]; intros Hext; [done|].
  rewrite !filter_cons.
  assert (Hl : filter P l = filter Q l).
  { apply IH. intros x Hx. apply Hext. by right. }
  assert (Ha : P a <-> Q a) by (apply Hext; by left).
  destruct (decide (P a)), (decide (Q a)); try tauto; by rewrite Hl.
Qed.

Lemma filter_all {A} (P : A -> Prop) `{!forall x, Decision (P x)}
  (l : list A) :
  (forall x, x ∈ l -> P x) -> filter P l = l.
Proof.
  induction l as [|a l IH]; intros Hall; [done|].
  rewrite filter_cons_True by (apply Hall; by left).
  f_equal. apply IH. intros x Hx. apply Hall. by right.
Qed.

Lemma splice_indexOf_NoDup (c : nat) (l : list nat) :
  c ∈ l -> NoDup l ->
  splice (indexOf c l) 1 [] l = filter (fun x => x <> c) l.
Proof.
  intros Hin Hnd.
  apply list_elem_of_split in Hin as (pre & post & ->).
  apply NoDup_app in Hnd as (_ & Hpre & Hnd).
  apply NoDup_cons in Hnd as [Hpost _].
  assert (Hc : c ∉ pre) by (intros Hc; apply (Hpre _ Hc); by left).
  rewrite indexOf_first, splice_delete_at by done.
  rewrite filter_app, filter_cons_False by (intros Hne; by apply Hne).
  rewrite !filter_all; [done|..]; intros x Hx ->; done.
Qed.

Section RemoveComments.
Variables (h : Heap) (doc : nat).
Hypothesis Hwf : wf_doc h doc.
Hypothesis Hdoc : dom5.isCommentNode (h !!! doc) = false.

Lemma removal_state_init : removal_state h doc [] h.
Proof.
  split; [done|]. split; [done|]. split.
  - intros m _. symmetry. apply filter_all. intros x _. apply not_elem_of_nil.
  - intros j. rewrite decide_False; [done|apply not_elem_of_nil].
Qed.

Lemma removal_state_step D hi c :
  removal_state h doc D hi ->
  reach h doc c -> dom5.isCommentNode (h !!! c) = true ->
  removal_state h doc (c :: D) (dom5.remove c hi).
Proof.
  intros (Hlen & Hpay & Hch & Hpa) Hreach Hcomment.
  assert (Hne : c <> doc) by (intros ->; congruence).
  split; [by rewrite length_remove|].
  split; [intros j; by rewrite payload_remove|].
  destruct (decide (c ∈ D)) as [HcD|HcD].
  - (* removed before: nothing happens *)
    assert (Hdet : parentNode (hi !!! c) = None)
      by by rewrite Hpa, decide_True.
    split.
    + intros m Hm. rewrite remove_detached_children, Hch by done.
      apply filter_ext_in. intros x _. rewrite not_elem_of_cons.
      split; [|tauto]. intros Hx. split; [|done]. by intros ->.
    + intros j. rewrite parent_remove, Hpa.
      destruct (decide (j = c)) as [->|Hj].
      * rewrite decide_True; [done|by left].
      * destruct (decide (j ∈ D)) as [Hin|Hin].
        -- rewrite decide_True; [done|by right].
        -- rewrite decide_False; [done|].
           intros [->|?]%elem_of_cons; done.
  - (* attached to its parent [m] *)
    apply reach_last in Hreach as [->|(m & Hm & Hcm)]; [done|].
    destruct (Hwf m Hm) as [Hnd Hback].
    assert (Hpc : parentNode (hi !!! c) = Some m).
    { rewrite Hpa, decide_False by done. by apply Hback. }
    split.
    + intros m' Hm'. rewrite children_remove, Hpc.
      destruct (decide (m' = m)) as [->|Hmm].
      * rewrite Hch by done.
        rewrite splice_indexOf_NoDup.
        -- rewrite list_filter_filter. apply filter_ext_in.
           intros x _. rewrite not_elem_of_cons. tauto.
        -- apply list_elem_of_filter. by split.
        -- by apply NoDup_filter.
      * rewrite Hch by done. apply filter_ext_in. intros x Hx.
        rewrite not_elem_of_cons. split; [|tauto].
        intros HxD. split; [|done]. intros ->.
        destruct (Hwf m' Hm') as [_ Hback'].
        apply Hback' in Hx. rewrite (Hback c Hcm) in Hx. congruence.
    + intros j. rewrite parent_remove, Hpa.
      destruct (decide (j = c)) as [->|Hj].
      * rewrite decide_True; [done|by left].
      * destruct (decide (j ∈ D)) as [Hin|Hin].
        -- rewrite decide_True; [done|by right].
        -- rewrite decide_False; [done|].
           intros [->|?]%elem_of_cons; done.
Qed.
End RemoveComments.

(** ** The comment map *)

Lemma CommentMap_get_None m key :
  CommentMap.get m key = None <-> key ∉ CommentMap.keys m.
Proof.
  unfold CommentMap.get, CommentMap.keys.
  induction m as [|[k v] m IH]; simpl.
  - split; [intros _; apply not_elem_of_nil|done].
  - destruct (String.eqb_spec k key) as [->|Hne]; simpl.
    + split; [done|]. intros Hnot. exfalso. apply Hnot. by left.
    + rewrite IH, not_elem_of_cons. split; [by split|by intros [_ ?]].
Qed.

Lemma CommentMap_has m key :
  CommentMap.has m key = true <-> key ∈ CommentMap.keys m.
Proof.
  unfold CommentMap.has. rewrite bool_decide_eq_true.
  destruct (CommentMap.get m key) as [v|] eqn:Hget.
  - split; [intros _|by eexists].
    destruct (decide (key ∈ CommentMap.keys m)) as [|Hnot]; [done|].
    apply CommentMap_get_None in Hnot. congruence.
  - split; [by intros [? ?]|]. intros Hin.
    apply CommentMap_get_None in Hget. done.
Qed.

Lemma CommentMap_get_elem m k v :
  NoDup (CommentMap.keys m) -> (k, v) ∈ m -> CommentMap.get m k = Some v.
Proof.
  unfold CommentMap.get, CommentMap.keys.
  induction m as [|[k' v'] m IH]; simpl; intros Hnd Hin.
  - by apply elem_of_nil in Hin.
  - apply NoDup_cons in Hnd as [Hk Hnd].
    apply elem_of_cons in Hin as [[= <- <-]|Hin].
    + by rewrite String.eqb_refl.
    + destruct (String.eqb_spec k' k) as [->|Hne]; [|by apply IH].
      exfalso. apply Hk. apply list_elem_of_fmap. by exists (k, v).
Qed.

Lemma map_state_init h : map_state h [] CommentMap.empty.
Proof.
  split; [apply NoDup_nil_2|]. split.
  - intros k v Hin. by apply elem_of_nil in Hin.
  - intros c Hin. by apply elem_of_nil in Hin.
Qed.

Lemma map_state_step h D comments c :
  map_state h D comments ->
  map_state h (c :: D) (CommentMap.set (text (h !!! c)) c comments).
Proof.
  intros (Hnd & Hent & Hkeys). unfold CommentMap.set.
  destruct (CommentMap.has comments (text (h !!! c))) eqn:Hhas.
  - apply CommentMap_has in Hhas. split; [done|]. split.
    + intros k v Hin. destruct (Hent k v Hin). split; [by right|done].
    + intros c' [->|Hin]%elem_of_cons; [done|by apply Hkeys].
  - assert (Hnot : text (h !!! c) ∉ CommentMap.keys comments).
    { intros Hin%CommentMap_has. congruence. }
    split; [|split]; unfold CommentMap.keys in *.
    + rewrite map_app. simpl. apply NoDup_app. split; [done|].
      split; [|apply NoDup_singleton].
      intros k Hk ->%list_elem_of_singleton. done.
    + intros k v [Hin|[= -> ->]%list_elem_of_singleton]%elem_of_app.
      * destruct (Hent k v Hin). split; [by right|done].
      * split; [by left|done].
    + intros c' Hin. rewrite map_app. apply elem_of_app.
      apply elem_of_cons in Hin as [->|Hin]; [right; by left|left].
      by apply Hkeys.
Qed.

Lemma remove_comments_spec h doc cs :
  wf_doc h doc -> dom5.isCommentNode (h !!! doc) = false ->
  (forall c, c ∈ cs ->
     reach h doc c /\ dom5.isCommentNode (h !!! c) = true) ->
  forall D comments hi,
    removal_state h doc D hi -> map_state h D comments ->
    let r := foldl (fun '(comments, h') comment =>
                      (CommentMap.set (text (h' !!! comment)) comment comments,
                       dom5.remove comment h'))
               (comments, hi) cs in
    removal_state h doc (reverse cs ++ D) (snd r) /\
    map_state h (reverse cs ++ D) (fst r).
Proof.
  intros Hwf Hdoc. induction cs as [|c cs IH]; intros Hcs D comments hi HR HM.
  - done.
  - simpl. rewrite reverse_cons, <- app_assoc. simpl.
    destruct (Hcs c) as [Hreach Hcomment]; [by left|].
    apply IH.
    + intros c' Hc'. apply Hcs. by right.
    + by apply removal_state_step.
    + destruct HR as (_ & Hpay & _).
      rewrite (payload_text _ _ (Hpay c)). by apply map_state_step.
Qed.

(** ** Putting the license comments back *)

Lemma kept_licenses_cons k v part :
  kept_licenses ((k, v) :: part) =
  if includes "@license" k then v :: kept_licenses part
  else kept_licenses part.
Proof.
  unfold kept_licenses. rewrite filter_cons. simpl.
  destruct (includes "@license" k); by case_decide.
Qed.

Lemma restore_licenses_part comments head part : forall h,
  NoDup (CommentMap.keys comments) ->
  (forall kv, kv ∈ part -> kv ∈ comments) ->
  restore_licenses comments head (map fst part) h
  = prepend_all head (kept_licenses part) h.
Proof.
  induction part as [|[k v] part IH]; intros h Hnd Hsub; [done|].
  rewrite kept_licenses_cons. simpl.
  assert (Hrest : forall kv, kv ∈ part -> kv ∈ comments)
    by (intros kv Hkv; apply Hsub; by right).
  destruct (includes "@license" k); simpl; [|by apply IH].
  rewrite (CommentMap_get_elem comments k v) by (try done; apply Hsub; by left).
  destruct (prepend head v h) as [h'|e]; simpl; [by apply IH|done].
Qed.

Lemma restore_licenses_eq comments head h :
  NoDup (CommentMap.keys comments) ->
  restore_licenses comments head (CommentMap.keys comments) h
  = prepend_all head (kept_licenses comments) h.
Proof. intros Hnd. by apply restore_licenses_part. Qed.

Lemma prepend_all_spec hd ns : forall h,
  hd < length h -> NoDup ns ->
  (forall n, n ∈ ns ->
     dom5.isDocumentFragment (h !!! n) = false /\
     parentNode (h !!! n) = None /\ n < length h) ->
  exists h', prepend_all (Some hd) ns h = Ok h' /\
    length h' = length h /\
    (forall j, payload (h' !!! j) = payload (h !!! j)) /\
    (forall j, childNodes (h' !!! j) =
               if decide (j = hd) then reverse ns ++ childNodes (h !!! hd)
               else childNodes (h !!! j)) /\
    (forall j, parentNode (h' !!! j) =
               if decide (j ∈ ns) then Some hd else parentNode (h !!! j)).
Proof.
  induction ns as [|n ns IH]; intros h Hhd Hnd Hns.
  - exists h. split; [done|]. split; [done|]. split; [done|]. split.
    + intros j. by case_decide; subst.
    + intros j. rewrite decide_False; [done|apply not_elem_of_nil].
  - apply NoDup_cons in Hnd as [Hn Hnd].
    destruct (Hns n) as (Hk & Hd & Hr); [by left|].
    destruct (prepend_detached h hd n Hk Hd Hr Hhd)
      as (h1 & Hrun & Hlen1 & Hpay1 & Hch1 & Hpa1).
    destruct (IH h1) as (h' & Hrun' & Hlen & Hpay & Hch & Hpa).
    + lia.
    + done.
    + intros n' Hn'. destruct (Hns n') as (Hk' & Hd' & Hr'); [by right|].
      rewrite (payload_isDocumentFragment _ (h !!! n')) by apply Hpay1.
      rewrite Hpa1, Hlen1. rewrite decide_False by (intros ->; done). done.
    + exists h'. split; [cbn [prepend_all]; by rewrite Hrun, bind_Ok|].
      split; [lia|]. split; [intros j; by rewrite Hpay|]. split.
      * intros j. rewrite Hch. destruct (decide (j = hd)) as [->|Hj].
        -- rewrite Hch1, !decide_True by done.
           by rewrite reverse_cons, <- app_assoc.
        -- by rewrite Hch1, !decide_False by done.
      * intros j. rewrite Hpa, Hpa1.
        destruct (decide (j ∈ ns)) as [Hin|Hin].
        -- rewrite decide_True; [done|by right].
        -- destruct (decide (j = n)) as [->|Hne].
           ++ rewrite decide_True; [done|by left].
           ++ rewrite decide_False; [done|].
              intros [->|?]%elem_of_cons; done.
Qed.

Lemma NoDup_map_filter {A B} (f : A -> B) (P : A -> Prop)
  `{!forall x, Decision (P x)} (l : list A) :
  NoDup (map f l) -> NoDup (map f (filter P l)).
Proof.
  induction l as [|a l IH]; simpl; intros Hnd; [done|].
  apply NoDup_cons in Hnd as [Ha Hnd]. rewrite filter_cons.
  destruct (decide (P a)); simpl; [|by apply IH].
  apply NoDup_cons. split; [|by apply IH].
  intros (x & Hfx & Hx)%list_elem_of_fmap. apply Ha.
  apply list_elem_of_fmap. exists x. split; [done|].
  by apply list_elem_of_filter in Hx as [_ ?].
Qed.

Lemma NoDup_map_inv {A B} (f : A -> B) (l : list A) :
  NoDup (map f l) -> NoDup l.
Proof.
  induction l as [|a l IH]; simpl; intros Hnd; [apply NoDup_nil_2|].
  apply NoDup_cons in Hnd as [Ha Hnd]. apply NoDup_cons. split; [|by apply IH].
  intros Hin. apply Ha. apply list_elem_of_fmap. by exists a.
Qed.

Lemma comment_in_range h x :
  dom5.isCommentNode (h !!! x) = true -> x < length h.
Proof.
  intros He. destruct (decide (x < length h)); [done|].
  by rewrite node_out_of_range in He by lia.
Qed.

Lemma kept_licenses_elem comments l :
  l ∈ kept_licenses comments <->
  exists k, (k, l) ∈ comments /\ includes "@license" k = true.
Proof.
  unfold kept_licenses. split.
  - intros ([k v] & -> & [Hlic Hin]%list_elem_of_filter)%list_elem_of_fmap.
    by exists k.
  - intros (k & Hin & Hlic). apply list_elem_of_fmap. exists (k, l).
    split; [done|]. by apply list_elem_of_filter.
Qed.

Lemma kept_licenses_texts h D comments :
  map_state h D comments ->
  map (fun c => text (h !!! c)) (kept_licenses comments)
  = map fst (filter (fun kv => includes "@license" (fst kv) = true) comments).
Proof.
  intros (_ & Hent & _). unfold kept_licenses. rewrite map_map.
  apply map_ext_in. intros [k v] Hin%list_elem_of_In.
  apply list_elem_of_filter in Hin as [_ Hin]. simpl.
  by destruct (Hent k v Hin).
Qed.

(** ** The import loop *)

(** The iteration at a position starts from the state the iterations
    before it have left, and works on the edge and on the import site of
    that position. *)
Lemma import_loop_app body importNodes ims1 im ims2 : forall i h,
  import_loop body importNodes (ims1 ++ im :: ims2) i h =
  (h1 ← import_loop body importNodes ims1 i h;
   h2 ← body im (importNodes !! (i + length ims1)) h1;
   import_loop body importNodes ims2 (S (i + length ims1)) h2).
Proof.
  induction ims1 as [|im1 ims1 IH]; intros i h; simpl.
  - by rewrite Nat.add_0_r.
  - destruct (body im1 (importNodes !! i) h) as [h'|e]; simpl; [|done].
    rewrite IH. by replace (S i + length ims1) with (i + S (length ims1)) by lia.
Qed.

(** ** Implicit excludes *)







(** * The properties of the design document *)

Section FlattenProperties.

Variable search : string -> string -> Z.
Variable K : constants.t.
Variable M : matchers.t.
Variable pathResolver : PathResolver.t.
Variable this : Vulcan.t.

Lemma flatten_import_elided flatten_rec tree_href isMainDoc moveTarget im
  thisImport h :
  isDuplicateImport im = true \/ isStrippedImport search this im = Ok true ->
  flatten_import search K M pathResolver this flatten_rec tree_href
    isMainDoc moveTarget im thisImport h
  = removeElementAndNewline thisImport None h.
Proof.
  unfold flatten_import. intros [->| ->]; [done|].
  by destruct (isDuplicateImport im).
Qed.

Lemma flatten_import_excluded flatten_rec tree_href isMainDoc moveTarget im
  thisImport h :
  isDuplicateImport im = false ->
  isStrippedImport search this im = Ok false ->
  isExcludedImport search K this im = Ok true ->
  flatten_import search K M pathResolver this flatten_rec tree_href
    isMainDoc moveTarget im thisImport h = Ok h.
Proof.
  intros Hdup Hstrip Hex. unfold flatten_import.
  by rewrite Hdup, Hstrip, Hex.
Qed.

(** The import loop at the position of an elided edge: the edges before
    it are processed, the import site of that position is removed, and
    the loop goes on with the edges after it. *)
Lemma import_loop_elides_at flatten_rec tree_href isMainDoc moveTarget
  importNodes ims1 im ims2 h :
  isDuplicateImport im = true \/ isStrippedImport search this im = Ok true ->
  let body := flatten_import search K M pathResolver this flatten_rec
                tree_href isMainDoc moveTarget in
  import_loop body importNodes (ims1 ++ im :: ims2) 0 h =
  (h1 ← import_loop body importNodes ims1 0 h;
   h2 ← removeElementAndNewline (importNodes !! length ims1) None h1;
   import_loop body importNodes ims2 (S (length ims1)) h2).
Proof.
  intros Helide body. rewrite import_loop_app. simpl.
  destruct (import_loop body importNodes ims1 0 h) as [h1|e]; [|done].
  rewrite !bind_Ok. subst body. by rewrite flatten_import_elided.
Qed.

(** The import loop at the position of an excluded edge: the loop goes
    from the edges before it to the edges after it. *)
Lemma import_loop_skips_at flatten_rec tree_href isMainDoc moveTarget
  importNodes ims1 im ims2 h :
  isDuplicateImport im = false ->
  isStrippedImport search this im = Ok false ->
  isExcludedImport search K this im = Ok true ->
  let body := flatten_import search K M pathResolver this flatten_rec
                tree_href isMainDoc moveTarget in
  import_loop body importNodes (ims1 ++ im :: ims2) 0 h =
  (h1 ← import_loop body importNodes ims1 0 h;
   import_loop body importNodes ims2 (S (length ims1)) h1).
Proof.
  intros Hdup Hstrip Hex body. rewrite import_loop_app. simpl.
  destruct (import_loop body importNodes ims1 0 h) as [h1|e]; [|done].
  rewrite !bind_Ok. subst body. by rewrite flatten_import_excluded.
Qed.

(** An error of the recursive call goes through the iteration. *)
Lemma flatten_import_propagates flatten_rec tree_href isMainDoc moveTarget
  im thisImport h e :
  isDuplicateImport im = false ->
  isStrippedImport search this im = Ok false ->
  isExcludedImport search K this im = Ok false ->
  isTemplated h thisImport = Ok false ->
  flatten_rec im (h ++ [dom5.newDocumentFragment]) = Throw e ->
  flatten_import search K M pathResolver this flatten_rec tree_href
    isMainDoc moveTarget im thisImport h = Throw e.
Proof.
  intros Hdup Hstrip Hex Htempl Hrec. unfold flatten_import.
  rewrite Hdup, Hstrip, Hex, Htempl. simpl.
  unfold merge_import, dom5.constructors.fragment, alloc.
  by rewrite Hrec.
Qed.




End FlattenProperties.

(** C4. In the main document, when the import site is attached to a parent
    and is not under the relocation target, [flatten] puts the merged
    content of the import under exactly one new container: one node is
    created, a [div] with the attributes [hidden] and [by-vulcanize], which
    takes the place of the import site among the children of its parent
    and has the merged nodes as its children. When the import site is
    under the relocation target already, no container is created and the
    merged nodes take the place of the import site directly. *)
Theorem import_site_hidden_exactly_once h node p frag moveTarget pre post :
  parentNode (h !!! node) = Some p ->
  childNodes (h !!! p) = pre ++ node :: post ->
  wf_children h p ->
  dom5.isDocumentFragment (h !!! node) = false ->
  dom5.isDocumentFragment (h !!! frag) = true ->
  frag < length h -> frag <> p ->
  (forall c, c ∈ childNodes (h !!! frag) -> c < length h) ->
  let cs := childNodes (h !!! frag) in
  let hidden := length h in
  (ancestorWalk h (Some node) moveTarget = Ok false ->
   exists h',
     place_import true moveTarget (Some node) frag h = Ok h' /\
     length h' = S (length h) /\
     (forall j, j < length h -> payload (h' !!! j) = payload (h !!! j)) /\
     payload (h' !!! hidden) = payload hidden_div /\
     parentNode (h' !!! hidden) = Some p /\
     childNodes (h' !!! hidden) = cs /\
     childNodes (h' !!! p) = pre ++ hidden :: after_blank h post /\
     parentNode (h' !!! node) = None /\
     (forall c, c ∈ cs -> c <> node -> parentNode (h' !!! c) = Some hidden))
  /\
  (ancestorWalk h (Some node) moveTarget = Ok true ->
   exists h',
     place_import true moveTarget (Some node) frag h = Ok h' /\
     length h' = length h /\
     (forall j, payload (h' !!! j) = payload (h !!! j)) /\
     childNodes (h' !!! p) = pre ++ cs ++ after_blank h post /\
     parentNode (h' !!! node) = None /\
     (forall c, c ∈ cs -> c <> node -> parentNode (h' !!! c) = Some p)).
Proof.
  intros Hparent Hsplit Hwf Hnk Hfk Hf Hfp Hcs cs hidden. split.
  - intros Hwalk. by apply place_import_hidden.
  - intros Hwalk. apply place_import_direct; try done. by right.
Qed.

Section PolicyProperties.

Variable search : string -> string -> Z.
Variable K : constants.t.


End PolicyProperties.

(** The statements above, on the sample run. *)





Lemma import_site_hidden_exactly_once_witness :
  (exists h',
     place_import true 2 (Some 6) 15 Sample.h_merge = Ok h' /\
     length h' = 17 /\
     payload (h' !!! 16) = payload hidden_div /\
     parentNode (h' !!! 16) = Some 3 /\
     childNodes (h' !!! 16) = [11; 12] /\
     childNodes (h' !!! 3) = [16; 14]) /\
  (exists h',
     place_import true 2 (Some 4) 15 Sample.h_merge = Ok h' /\
     length h' = 16 /\
     childNodes (h' !!! 2) = [11; 12]).
Proof.
  split.
  - destruct (import_site_hidden_exactly_once Sample.h_merge 6 3 15 2
                [] [13; 14]) as [Hwrap _].
    + reflexivity.
    + reflexivity.
    + apply wf_children_b_sound. reflexivity.
    + reflexivity.
    + reflexivity.
    + simpl. lia.
    + lia.
    + intros c Hc. simpl in Hc.
      repeat (apply elem_of_cons in Hc as [->|Hc]; [simpl; lia|]).
      by apply elem_of_nil in Hc.
    + destruct Hwrap as (h' & Hrun & Hlen & _ & Hpay & Hpar & Hch & Hp & _).
      { reflexivity. }
      exists h'. repeat split; done.
  - destruct (import_site_hidden_exactly_once Sample.h_merge 4 2 15 2
                [] [5]) as [_ Hplain].
    + reflexivity.
    + reflexivity.
    + apply wf_children_b_sound. reflexivity.
    + reflexivity.
    + reflexivity.
    + simpl. lia.
    + lia.
    + intros c Hc. simpl in Hc.
      repeat (apply elem_of_cons in Hc as [->|Hc]; [simpl; lia|]).
      by apply elem_of_nil in Hc.
    + destruct Hplain as (h' & Hrun & Hlen & _ & Hch & _).
      { reflexivity. }
      exists h'. repeat split; done.
Defined.

Section ProcessProperties.

Variable search : string -> string -> Z.
Variable K : constants.t.
Variable M : matchers.t.
Variable pathResolver : PathResolver.t.
Variable loader : Loader.t.
Variable url_resolve : string -> string -> string.
Variable encodeString : string -> string.
Variable analyzer : Analyzer.t.
Variable inlineCss : nat -> option string -> Heap -> Res Heap.
Variable serialize : Heap -> nat -> string.



Lemma element_in_range h x : dom5.isElement (h !!! x) = true -> x < length h.
Proof.
  intros He. destruct (decide (x < length h)); [done|].
  by rewrite node_out_of_range in He by lia.
Qed.


(** C3. The comment stage of [_process], on a document that is a tree:
    every comment node is taken out of the document; for each distinct
    comment text that contains [@license], exactly one of the comments
    with that text is put back, as a child of [<head>] and in front of
    all that [<head>] held before; every other comment, license or not,
    stays out: the comments left in the document are exactly the ones
    put back. So when the same license text occurs in the root document
    and in an import, one copy is left, in [<head>]. *)
Theorem comments_stripped_one_license_kept doc docHref h hd cs :
  wf_doc h doc ->
  dom5.isCommentNode (h !!! doc) = false ->
  dom5.query h doc (matchers.head M) = Ok (Some hd) ->
  dom5.nodeWalkAll h doc dom5.isCommentNode = Ok cs ->
  exists h' L,
    strip_stage M (doc, docHref, h) = Ok (doc, docHref, h') /\
    length h' = length h /\
    (forall j, payload (h' !!! j) = payload (h !!! j)) /\
    NoDup (map (fun c => text (h !!! c)) L) /\
    (forall l, l ∈ L ->
       reach h doc l /\ dom5.isCommentNode (h !!! l) = true /\
       includes "@license" (text (h !!! l)) = true) /\
    (forall c, reach h doc c -> dom5.isCommentNode (h !!! c) = true ->
       includes "@license" (text (h !!! c)) = true ->
       exists l, l ∈ L /\ text (h !!! l) = text (h !!! c)) /\
    childNodes (h' !!! hd) =
      reverse L ++
      filter (fun c => dom5.isCommentNode (h !!! c) = false)
        (childNodes (h !!! hd)) /\
    (forall l, l ∈ L -> parentNode (h' !!! l) = Some hd) /\
    (forall m, reach h doc m -> m <> hd ->
       childNodes (h' !!! m) =
       filter (fun c => dom5.isCommentNode (h !!! c) = false)
         (childNodes (h !!! m))) /\
    (forall x, reach h' doc x -> dom5.isCommentNode (h' !!! x) = true ->
       x ∈ L).
Proof.
  intros Hwf Hdoc Hhead Hwalk.
  assert (Hcs : forall x, x ∈ cs <->
            reach h doc x /\ dom5.isCommentNode (h !!! x) = true)
    by (intros x; by apply nodeWalkAll_spec).
  destruct (query_found _ _ _ _ Hhead) as (Hreach_hd & Hel_hd & _).
  pose proof (element_in_range _ _ Hel_hd) as Hhd.
  (* the removal loop *)
  pose proof (remove_comments_spec h doc cs Hwf Hdoc
                (fun c Hc => proj1 (Hcs c) Hc) [] CommentMap.empty h
                (removal_state_init h doc) (map_state_init h)) as Hloop.
  simpl in Hloop.
  unfold strip_stage. rewrite Hhead, Hwalk, !bind_Ok.
  unfold remove_comments.
  destruct (foldl _ (CommentMap.empty, h) cs) as [comments h1].
  simpl in Hloop.
  destruct Hloop as [(Hlen1 & Hpay1 & Hch1 & Hpa1) HM].
  pose proof HM as (Hnd & Hent & Hkeys).
  assert (HD : forall x, x ∈ reverse cs ++ [] <-> x ∈ cs).
  { intros x. by rewrite app_nil_r, elem_of_reverse. }
  (* a child list of the document without its comments *)
  assert (Hfilter : forall m, reach h doc m ->
            filter (fun c => c ∉ reverse cs ++ []) (childNodes (h !!! m))
            = filter (fun c => dom5.isCommentNode (h !!! c) = false)
                (childNodes (h !!! m))).
  { intros m Hm. apply filter_ext_in. intros x Hx. rewrite HD, Hcs.
    assert (reach h doc x) by by apply (reach_child h doc m).
    destruct (dom5.isCommentNode (h !!! x)); split; try done.
    - intros Hnot. exfalso. by apply Hnot.
    - by intros _ [_ ?]. }
  set (L := kept_licenses comments).
  assert (HL : forall l, l ∈ L -> l ∈ cs /\
            includes "@license" (text (h !!! l)) = true).
  { intros l (k & Hin & Hlic)%kept_licenses_elem.
    destruct (Hent k l Hin) as [HlD <-]. split; [by apply HD|done]. }
  assert (HLtexts : NoDup (map (fun c => text (h !!! c)) L)).
  { subst L. rewrite (kept_licenses_texts h _ comments HM).
    by apply NoDup_map_filter. }
  rewrite restore_licenses_eq by done. fold L.
  destruct (prepend_all_spec hd L h1) as (h2 & -> & Hlen2 & Hpay2 & Hch2 & Hpa2).
  { lia. }
  { by apply (NoDup_map_inv (fun c => text (h !!! c))). }
  { intros n Hn. destruct (HL n Hn) as [Hncs _].
    apply Hcs in Hncs as [_ Hcomment].
    split; [|split].
    - rewrite (payload_isDocumentFragment _ (h !!! n)) by apply Hpay1.
      unfold dom5.isCommentNode in Hcomment.
      apply bool_decide_eq_true in Hcomment.
      unfold dom5.isDocumentFragment. by rewrite Hcomment.
    - rewrite Hpa1, decide_True; [done|]. apply HD. by apply HL.
    - rewrite Hlen1. by apply comment_in_range. }
  assert (Hsub : forall m c, reach h doc m -> c ∈ childNodes (h2 !!! m) ->
            c ∈ L \/ (c ∈ childNodes (h !!! m) /\ c ∉ cs)).
  { intros m c Hm. rewrite Hch2.
    assert (Hin1 : c ∈ filter (fun c => c ∉ reverse cs ++ [])
                       (childNodes (h !!! m)) ->
                   c ∈ childNodes (h !!! m) /\ c ∉ cs).
    { intros [Hnot Hin]%list_elem_of_filter. split; [done|].
      intros Hc. apply Hnot. by apply HD. }
    case_decide as Hm'; [subst m|];
      rewrite Hch1 by done; [|intros Hc; right; by apply Hin1].
    intros [HcL|Hc]%elem_of_app; [left; by apply elem_of_reverse|right].
    by apply Hin1. }
  assert (Hback : forall x, reach h2 doc x -> reach h doc x).
  { apply (rtc_ind_r (fun x => reach h doc x)); [apply reach_refl|].
    intros m c _ Hc IH.
    destruct (Hsub m c IH Hc) as [HcL|[Hc' _]].
    - by apply Hcs, HL.
    - by apply (reach_child h doc m). }
  exists h2, L. split; [done|]. split; [lia|].
  split; [intros j; by rewrite Hpay2|]. split; [done|]. split.
  { intros l Hl. destruct (HL l Hl) as [Hlcs Hlic].
    apply Hcs in Hlcs as [? ?]. done. }
  split.
  { intros c Hreach Hcomment Hlic.
    assert (HcD : c ∈ reverse cs ++ []) by (apply HD, Hcs; done).
    apply Hkeys in HcD.
    apply list_elem_of_fmap in HcD as ([k v] & Hk & Hin). simpl in Hk.
    exists v. destruct (Hent k v Hin) as [_ Htext]. split; [|congruence].
    apply kept_licenses_elem. exists k. split; [done|congruence]. }
  split.
  { rewrite Hch2, decide_True by done. rewrite Hch1 by done.
    by rewrite Hfilter. }
  split.
  { intros l Hl. by rewrite Hpa2, decide_True. }
  split.
  { intros m Hm Hne. rewrite Hch2, decide_False by done.
    rewrite Hch1 by done. by apply Hfilter. }
  intros x Hreach Hcomment.
  assert (Hcomment' : dom5.isCommentNode (h !!! x) = true).
  { unfold dom5.isCommentNode in *.
    rewrite <- (payload_kind _ _ (Hpay1 x)), <- (payload_kind _ _ (Hpay2 x)).
    done. }
  apply reach_last in Hreach as [->|(m & Hm & Hc)]; [congruence|].
  apply Hback in Hm.
  destruct (Hsub m x Hm Hc) as [HxL|[Hx Hnot]]; [done|].
  exfalso. apply Hnot. apply Hcs. split; [|done].
  by apply (reach_child h doc m).
Qed.

End ProcessProperties.



Section InlineScriptsProperties.

Variable search : string -> string -> Z.
Variable K : constants.t.
Variable M : matchers.t.
Variable loader : Loader.t.
Variable url_resolve : string -> string -> string.
Variable encodeString : string -> string.
Variable this : Vulcan.t.

Lemma isExcludedHref_string src :
  exists b, isExcludedHref search K this (Some src) = Ok b.
Proof.
  unfold isExcludedHref, some_search.
  destruct (constants.EXTERNAL_URL K _); [by eexists|].
  destruct (Vulcan.excludes this); by eexists.
Qed.



End InlineScriptsProperties.


(** The statements about the stages, on the sample run. *)


Lemma comments_stripped_one_license_kept_witness :
  exists h' L,
    strip_stage Sample.M (0, Some "index.html", Sample.h_lic)
    = Ok (0, Some "index.html", h') /\
    NoDup (map (fun c => text (Sample.h_lic !!! c)) L) /\
    childNodes (h' !!! 2) = reverse L ++ [9] /\
    (forall x, reach h' 0 x -> dom5.isCommentNode (h' !!! x) = true ->
       x ∈ L).
Proof.
  destruct (comments_stripped_one_license_kept Sample.M 0 (Some "index.html")
              Sample.h_lic 2 [4; 6; 8; 5])
    as (h' & L & Hrun & _ & _ & Hnd & _ & _ & Hhead & _ & _ & Hall).
  - apply wf_doc_b_sound. reflexivity.
  - reflexivity.
  - reflexivity.
  - reflexivity.
  - exists h', L. repeat split; done.
Defined.


(** The whole chain on the sample: [index.html] imports [a.html] twice and
    an excluded [vendor/lib.html]; scripts are inlined, comments
    stripped. The first import of [a.html] ends in the hidden container
    (node 15), the second one (node 6) is removed with the blank text after
    it (node 13), the excluded link (node 14) is as it was. *)
Example sample_run :
  exists doc h,
    process_chain Sample.search Sample.K Sample.M Sample.pathResolver
      Sample.loader Sample.url_resolve Sample.encodeString Sample.analyzer
      Sample.inlineCss Sample.this "index.html"
    = Ok (doc, Some "index.html", h) /\
    childNodes (h !!! 2) = [18] /\
    payload (h !!! 18) = payload meta_node /\
    childNodes (h !!! 3) = [15; 14] /\
    parentNode (h !!! 6) = None /\
    parentNode (h !!! 13) = None /\
    h !!! 14 = Sample.h0 !!! 14 /\
    payload (h !!! 15) = payload hidden_div /\
    childNodes (h !!! 15) = [11; 12] /\
    attrs (h !!! 11) = [] /\
    dom5.getTextContent h 11 = Ok "console.log(1)".
Proof. eexists _, _. split; [vm_compute; reflexivity|]. by vm_compute. Qed.

(** * Further properties of the engine

    What the code shows beyond the design document: the walks up the chain
    of parents, the policy in the import loop, the implicit excludes, the
    surgery helpers, the edges of [flatten], the inlining of scripts and of
    stylesheets. *)

Lemma ancestorWalk_fuel_generic fuel h node target :
  ancestorWalk_fuel fuel h node target =
  parent_walk_fuel (fun n => Nat.eqb n target) fuel h node.
Proof.
  revert node. induction fuel as [|fuel IH]; intros [n|]; simpl; try reflexivity.
  destruct (Nat.eqb n target); [reflexivity|apply IH].
Qed.

Lemma isTemplated_fuel_generic fuel h node :
  isTemplated_fuel fuel h node =
  parent_walk_fuel (fun n => dom5.isDocumentFragment (h !!! n)) fuel h node.
Proof.
  revert node. induction fuel as [|fuel IH]; intros [n|]; simpl; try reflexivity.
  destruct (dom5.isDocumentFragment (h !!! n)); [reflexivity|apply IH].
Qed.

Lemma nth_parent_add h a b n :
  nth_parent h (a + b) n = nth_parent h a n ≫= nth_parent h b.
Proof.
  revert n. induction a as [|a IH]; intros n; simpl; [reflexivity|].
  destruct (parentNode (h !!! n)); [apply IH|reflexivity].
Qed.

Lemma nth_parent_S_r h k n m :
  nth_parent h k n = Some m ->
  nth_parent h (S k) n = parentNode (h !!! m).
Proof.
  intros Hk. replace (S k) with (k + 1) by lia.
  rewrite nth_parent_add, Hk. simpl.
  destruct (parentNode (h !!! m)); reflexivity.
Qed.

Lemma nth_parent_prefix h k n m j :
  nth_parent h k n = Some m -> j <= k -> is_Some (nth_parent h j n).
Proof.
  intros Hk Hj. replace k with (j + (k - j)) in Hk by lia.
  rewrite nth_parent_add in Hk.
  destruct (nth_parent h j n); [eauto|discriminate].
Qed.

(** The walk answers [true] only for a node of the chain that stops it. *)
Lemma parent_walk_true_sound stop fuel h : forall n,
  parent_walk_fuel stop fuel h (Some n) = Ok true ->
  exists k m, nth_parent h k n = Some m /\ stop m = true.
Proof.
  induction fuel as [|fuel IH]; intros n; simpl.
  - destruct (stop n) eqn:Hs; [|intros; discriminate]. intros _. exists 0, n. auto.
  - destruct (stop n) eqn:Hs.
    + intros _. exists 0, n. auto.
    + destruct (parentNode (h !!! n)) as [p|] eqn:Hp;
        [|intros; destruct fuel; discriminate].
      intros H. destruct (IH p H) as (k & m & Hk & Hm).
      exists (S k), m. simpl. rewrite Hp. auto.
Qed.

Lemma parent_walk_true_complete stop h : forall k fuel n m,
  nth_parent h k n = Some m -> stop m = true -> k <= fuel ->
  parent_walk_fuel stop fuel h (Some n) = Ok true.
Proof.
  induction k as [|k IH]; intros fuel n m Hk Hm Hle; simpl in Hk.
  - injection Hk as ->. destruct fuel; simpl; rewrite Hm; reflexivity.
  - destruct (parentNode (h !!! n)) as [p|] eqn:Hp; [|discriminate].
    destruct fuel as [|fuel]; [lia|]. simpl.
    destruct (stop n); [reflexivity|]. rewrite Hp.
    apply (IH fuel p m); auto. lia.
Qed.

(** The first node of the chain that stops the walk. *)
Lemma first_stop stop h : forall k n m,
  nth_parent h k n = Some m -> stop m = true ->
  exists k0 m0, nth_parent h k0 n = Some m0 /\ stop m0 = true /\
    forall j x, j < k0 -> nth_parent h j n = Some x -> stop x = false.
Proof.
  induction k as [|k IH]; intros n m Hk Hm; simpl in Hk.
  - exists 0, m. repeat split; auto. intros; lia.
  - destruct (stop n) eqn:Hs.
    + exists 0, n. repeat split; auto. intros; lia.
    + destruct (parentNode (h !!! n)) as [p|] eqn:Hp; [|discriminate].
      destruct (IH p m Hk Hm) as (k0 & m0 & Hk0 & Hm0 & Hmin).
      exists (S k0), m0. simpl. rewrite Hp. repeat split; auto.
      intros [|j] x Hj Hx; simpl in Hx.
      * injection Hx as <-. exact Hs.
      * rewrite Hp in Hx. apply (Hmin j); [lia|exact Hx].
Qed.

Lemma length_chain h : forall k n m,
  nth_parent h k n = Some m -> length (chain h k n) = k.
Proof.
  induction k as [|k IH]; intros n m Hk; simpl in *; [reflexivity|].
  destruct (parentNode (h !!! n)) as [p|]; [|discriminate].
  f_equal. apply (IH p m Hk).
Qed.

Lemma elem_of_chain h x : forall k n,
  x ∈ chain h k n -> exists j, j < k /\ nth_parent h j n = Some x.
Proof.
  induction k as [|k IH]; intros n Hx; simpl in Hx.
  - inversion Hx.
  - apply elem_of_cons in Hx as [->|Hx].
    + exists 0. split; [lia|reflexivity].
    + destruct (parentNode (h !!! n)) as [p|] eqn:Hp; [|inversion Hx].
      destruct (IH p Hx) as (j & Hj & Hjx).
      exists (S j). split; [lia|]. simpl. rewrite Hp. exact Hjx.
Qed.

(** Before the first node that stops the walk the chain does not repeat
    itself, and its nodes have a parent. *)
Lemma chain_before_stop stop h : forall k n m,
  nth_parent h k n = Some m -> stop m = true ->
  (forall j x, j < k -> nth_parent h j n = Some x -> stop x = false) ->
  NoDup (chain h k n) /\ forall x, x ∈ chain h k n -> x < length h.
Proof.
  induction k as [|k IH]; intros n m Hk Hm Hmin; simpl.
  - split; [constructor|]. intros x Hx. inversion Hx.
  - simpl in Hk.
    destruct (parentNode (h !!! n)) as [p|] eqn:Hp; [|discriminate].
    destruct (IH p m Hk Hm) as [Hnd Hrange].
    { intros j x Hj Hx. apply (Hmin (S j)); [lia|]. simpl. rewrite Hp. exact Hx. }
    split.
    + constructor; [|exact Hnd].
      intros Hin. apply elem_of_chain in Hin as (j & Hj & Hjn).
      assert (Hcycle : nth_parent h (S j) n = Some n).
      { simpl. rewrite Hp. exact Hjn. }
      assert (Hshort : nth_parent h (S k - S j) n = Some m).
      { assert (Hlong : nth_parent h (S j + (S k - S j)) n = Some m).
        { replace (S j + (S k - S j)) with (S k) by lia.
          simpl. rewrite Hp. exact Hk. }
        rewrite nth_parent_add, Hcycle in Hlong. exact Hlong. }
      assert (stop m = false) by (apply (Hmin (S k - S j)); [lia|exact Hshort]).
      congruence.
    + intros x Hx. apply elem_of_cons in Hx as [->|Hx]; [|auto].
      apply (parent_Some_in_range h n p Hp).
Qed.

Lemma NoDup_bounded_length (l : list nat) (b : nat) :
  NoDup l -> (forall x, x ∈ l -> x < b) -> length l <= b.
Proof.
  intros Hnd Hb.
  assert (Hsub : l ⊆+ seq 0 b).
  { apply NoDup_submseteq; [exact Hnd|].
    intros x Hx. apply elem_of_seq. specialize (Hb x Hx). lia. }
  apply submseteq_length in Hsub. rewrite length_seq in Hsub. exact Hsub.
Qed.

(** The fuel is enough for every node the walk can stop at. *)
Lemma parent_walk_true_iff stop h n :
  parent_walk_fuel stop (length h) h (Some n) = Ok true <->
  exists k m, nth_parent h k n = Some m /\ stop m = true.
Proof.
  split; [apply parent_walk_true_sound|].
  intros (k & m & Hk & Hm).
  destruct (first_stop stop h k n m Hk Hm) as (k0 & m0 & Hk0 & Hm0 & Hmin).
  apply (parent_walk_true_complete stop h k0 (length h) n m0 Hk0 Hm0).
  destruct (chain_before_stop stop h k0 n m0 Hk0 Hm0 Hmin) as [Hnd Hrange].
  rewrite <- (length_chain h k0 n m0 Hk0).
  apply NoDup_bounded_length; assumption.
Qed.

(** The walk answers [false] when the chain of parents ends before any
    node stops it. *)
Lemma parent_walk_false_sound stop fuel h : forall n,
  parent_walk_fuel stop fuel h (Some n) = Ok false ->
  (exists k, nth_parent h k n = None) /\
  forall k m, nth_parent h k n = Some m -> stop m = false.
Proof.
  induction fuel as [|fuel IH]; intros n; simpl.
  - destruct (stop n); intros; discriminate.
  - destruct (stop n) eqn:Hs; [intros; discriminate|].
    destruct (parentNode (h !!! n)) as [p|] eqn:Hp.
    + intros H. destruct (IH p H) as [(k & Hk) Hall]. split.
      * exists (S k). simpl. rewrite Hp. exact Hk.
      * intros [|j] m Hj; simpl in Hj.
        -- injection Hj as <-. exact Hs.
        -- rewrite Hp in Hj. apply (Hall j m Hj).
    + intros _. split.
      * exists 1. simpl. rewrite Hp. reflexivity.
      * intros [|j] m Hj; simpl in Hj.
        -- injection Hj as <-. exact Hs.
        -- rewrite Hp in Hj. discriminate.
Qed.

Lemma parent_walk_None stop fuel h : parent_walk_fuel stop fuel h None = Ok false.
Proof. destruct fuel; reflexivity. Qed.

Lemma parent_walk_false_complete stop h : forall k fuel n m,
  nth_parent h k n = Some m -> parentNode (h !!! m) = None ->
  (forall j x, nth_parent h j n = Some x -> stop x = false) ->
  k < fuel ->
  parent_walk_fuel stop fuel h (Some n) = Ok false.
Proof.
  induction k as [|k IH]; intros fuel n m Hk Hm Hno Hlt; simpl in Hk.
  - injection Hk as ->. destruct fuel as [|fuel]; [lia|]. simpl.
    rewrite (Hno 0 m eq_refl), Hm. apply parent_walk_None.
  - destruct (parentNode (h !!! n)) as [p|] eqn:Hp; [|discriminate].
    destruct fuel as [|fuel]; [lia|]. simpl.
    rewrite (Hno 0 n eq_refl), Hp.
    apply (IH fuel p m Hk Hm); [|lia].
    intros j x Hj. apply (Hno (S j)). simpl. rewrite Hp. exact Hj.
Qed.

Lemma chain_end h : forall k n,
  nth_parent h k n = None ->
  exists k1 m, nth_parent h k1 n = Some m /\ parentNode (h !!! m) = None.
Proof.
  induction k as [|k IH]; intros n Hk; simpl in Hk; [discriminate|].
  destruct (parentNode (h !!! n)) as [p|] eqn:Hp.
  - destruct (IH p Hk) as (k1 & m & Hk1 & Hm).
    exists (S k1), m. simpl. rewrite Hp. auto.
  - exists 0, n. auto.
Qed.

Lemma nth_parent_in_range h : forall k n x,
  parents_in_range h -> n < length h ->
  nth_parent h k n = Some x -> x < length h.
Proof.
  induction k as [|k IH]; intros n x Hr Hn Hk; simpl in Hk.
  - injection Hk as <-. exact Hn.
  - destruct (parentNode (h !!! n)) as [p|] eqn:Hp; [|discriminate].
    apply (IH p x Hr); [apply (Hr n p Hp)|exact Hk].
Qed.

Lemma parent_walk_false_iff stop h n :
  parents_in_range h -> n < length h ->
  parent_walk_fuel stop (length h) h (Some n) = Ok false <->
  (exists k, nth_parent h k n = None) /\
  forall k m, nth_parent h k n = Some m -> stop m = false.
Proof.
  intros Hr Hn. split; [apply parent_walk_false_sound|].
  intros [(k & Hk) Hno].
  destruct (chain_end h k n Hk) as (k1 & m & Hk1 & Hm).
  apply (parent_walk_false_complete stop h k1 (length h) n m Hk1 Hm Hno).
  set (root := fun x => bool_decide (parentNode (h !!! x) = None)).
  destruct (chain_before_stop root h k1 n m Hk1) as [Hnd Hrange].
  { unfold root. apply bool_decide_eq_true. exact Hm. }
  { intros j x Hj Hx. unfold root. apply bool_decide_eq_false. intros Hnone.
    replace k1 with (j + S (k1 - S j)) in Hk1 by lia.
    rewrite nth_parent_add, Hx in Hk1. simpl in Hk1.
    rewrite Hnone in Hk1. discriminate. }
  assert (Hlen : length (chain h k1 n ++ [m]) <= length h).
  { apply NoDup_bounded_length.
    - apply NoDup_app. split; [exact Hnd|]. split; [|apply NoDup_singleton].
      intros x Hx Hxm. apply list_elem_of_singleton in Hxm as ->.
      apply elem_of_chain in Hx as (j & Hj & Hjm).
      replace k1 with (j + S (k1 - S j)) in Hk1 by lia.
      rewrite nth_parent_add, Hjm in Hk1. simpl in Hk1.
      rewrite Hm in Hk1. discriminate.
    - intros x Hx. apply elem_of_app in Hx as [Hx|Hx]; [auto|].
      apply list_elem_of_singleton in Hx as ->.
      apply (nth_parent_in_range h k1 n m Hr Hn Hk1). }
  rewrite length_app, (length_chain h k1 n m Hk1) in Hlen. simpl in Hlen. lia.
Qed.

Lemma parents_in_range_b_sound h :
  parents_in_range_b h = true -> parents_in_range h.
Proof.
  unfold parents_in_range_b, parents_in_range. intros Hb j p Hj.
  rewrite forallb_forall in Hb.
  assert (Hlt : j < length h) by (apply (parent_Some_in_range h j p Hj)).
  destruct (lookup_lt_is_Some_2 h j Hlt) as [x Hx].
  assert (Hx' : h !!! j = x) by (apply list_lookup_total_correct; exact Hx).
  specialize (Hb x). rewrite Hx' in Hj. rewrite Hj in Hb.
  apply Nat.ltb_lt. apply Hb. apply list_elem_of_In.
  apply (list_elem_of_lookup_2 h j x Hx).
Qed.

(** X1. [ancestorWalk(node, target)] answers [true] exactly when [target]
    is [node] itself or is met on the way up the chain of parents of
    [node]. On a heap whose back references point into the heap it answers
    [false] exactly when that chain ends without meeting [target]. *)
Theorem ancestorWalk_follows_the_parents h n target :
  (ancestorWalk h (Some n) target = Ok true <->
   exists k, nth_parent h k n = Some target) /\
  (parents_in_range h -> n < length h ->
   (ancestorWalk h (Some n) target = Ok false <->
    (exists k, nth_parent h k n = None) /\
    forall k, nth_parent h k n <> Some target)).
Proof.
  unfold ancestorWalk. rewrite ancestorWalk_fuel_generic. split.
  - rewrite parent_walk_true_iff. split.
    + intros (k & m & Hk & Hm). apply Nat.eqb_eq in Hm as ->. eauto.
    + intros (k & Hk). exists k, target. split; [exact Hk|apply Nat.eqb_refl].
  - intros Hr Hn. rewrite (parent_walk_false_iff _ h n Hr Hn).
    split; intros [Hend Hno]; (split; [exact Hend|]).
    + intros k Hk. specialize (Hno k target Hk).
      rewrite Nat.eqb_refl in Hno. discriminate.
    + intros k m Hk. apply Nat.eqb_neq. intros ->. apply (Hno k Hk).
Qed.

Lemma ancestorWalk_follows_the_parents_witness :
  ancestorWalk Sample.h0 (Some 6) 1 = Ok true /\
  ancestorWalk Sample.h0 (Some 6) 2 = Ok false.
Proof.
  split.
  - apply (proj1 (ancestorWalk_follows_the_parents Sample.h0 6 1)).
    exists 2. reflexivity.
  - apply (proj2 (ancestorWalk_follows_the_parents Sample.h0 6 2)).
    + apply parents_in_range_b_sound. reflexivity.
    + simpl. lia.
    + split; [exists 4; reflexivity|].
      intros k. do 4 (destruct k as [|k]; [vm_compute; congruence|]).
      vm_compute. congruence.
Defined.

(** X2. [isTemplated(node)] answers [true] exactly when [node] or one of
    the nodes up its chain of parents is a document fragment, and, on a
    heap whose back references point into the heap, [false] exactly when
    the chain ends without one. *)
Theorem isTemplated_finds_a_fragment_ancestor h n :
  (isTemplated h (Some n) = Ok true <->
   exists k f, nth_parent h k n = Some f /\
     dom5.isDocumentFragment (h !!! f) = true) /\
  (parents_in_range h -> n < length h ->
   (isTemplated h (Some n) = Ok false <->
    (exists k, nth_parent h k n = None) /\
    forall k m, nth_parent h k n = Some m ->
      dom5.isDocumentFragment (h !!! m) = false)).
Proof.
  unfold isTemplated. rewrite isTemplated_fuel_generic. split.
  - apply parent_walk_true_iff.
  - intros Hr Hn.
    apply (parent_walk_false_iff
             (fun x => dom5.isDocumentFragment (h !!! x)) h n Hr Hn).
Qed.

Lemma isTemplated_finds_a_fragment_ancestor_witness :
  isTemplated Sample2.h_tpl (Some 6) = Ok true /\
  isTemplated Sample2.h_tpl (Some 4) = Ok false.
Proof.
  split.
  - apply (proj1 (isTemplated_finds_a_fragment_ancestor Sample2.h_tpl 6)).
    exists 1, 5. split; reflexivity.
  - apply (proj2 (isTemplated_finds_a_fragment_ancestor Sample2.h_tpl 4)).
    + apply parents_in_range_b_sound. reflexivity.
    + simpl. lia.
    + split; [exists 4; reflexivity|].
      intros k m H.
      do 4 (destruct k as [|k];
            [vm_compute in H; injection H as <-; reflexivity|]).
      vm_compute in H. discriminate.
Defined.

Section TemplatedImport.

Variable search : string -> string -> Z.
Variable K : constants.t.
Variable M : matchers.t.
Variable pathResolver : PathResolver.t.
Variable this : Vulcan.t.

(** X3. An import whose site stands in a template, that is under a
    document fragment, is passed over by the import loop of [flatten]:
    when the edge is neither a duplicate, nor stripped, nor excluded, the
    iteration leaves the document as it is and does not flatten the
    imported document. *)
Theorem flatten_passes_over_templated_import flatten_rec tree_href
  isMainDoc moveTarget im node k f h :
  isDuplicateImport im = false ->
  isStrippedImport search this im = Ok false ->
  isExcludedImport search K this im = Ok false ->
  nth_parent h k node = Some f ->
  dom5.isDocumentFragment (h !!! f) = true ->
  flatten_import search K M pathResolver this flatten_rec tree_href
    isMainDoc moveTarget im (Some node) h = Ok h.
Proof.
  intros Hdup Hstrip Hexcl Hk Hf. unfold flatten_import.
  rewrite Hdup, Hstrip. simpl. rewrite Hexcl. simpl.
  assert (Ht : isTemplated h (Some node) = Ok true).
  { unfold isTemplated. rewrite isTemplated_fuel_generic.
    apply parent_walk_true_iff. eauto. }
  rewrite Ht. reflexivity.
Qed.

End TemplatedImport.

Lemma flatten_passes_over_templated_import_witness :
  flatten_import Sample.search Sample.K Sample.M Sample.pathResolver
    Sample.this (fun _ _ => Throw TypeError) (Some "index.html") true 7
    Sample.ta (Some 6) Sample2.h_tpl = Ok Sample2.h_tpl.
Proof.
  apply (flatten_passes_over_templated_import Sample.search Sample.K Sample.M
           Sample.pathResolver Sample.this _ _ true 7 Sample.ta 6 1 5);
    reflexivity.
Defined.

(** ** More on the policy predicates *)

Section PolicyMore.

Variable search : string -> string -> Z.
Variable K : constants.t.

Lemma some_search_throws patterns href :
  some_search search patterns href = Throw TypeError <->
  href = None /\ patterns <> [].
Proof.
  unfold some_search. destruct patterns as [|r rs], href as [s|];
    split; try (intros [? ?]); try intros ?; try discriminate;
    try congruence; auto.
Qed.

Lemma some_search_Ok patterns s :
  some_search search patterns (Some s) =
  Ok (existsb (fun r => (0 <=? search s r)%Z) patterns).
Proof. destruct patterns; reflexivity. Qed.

End PolicyMore.




Lemma filter_filter_implied {A} (P Q : A -> Prop)
  `{!forall x, Decision (P x)} `{!forall x, Decision (Q x)} (l : list A) :
  (forall x, P x -> Q x) -> filter P (filter Q l) = filter P l.
Proof.
  intros HPQ. induction l as [|x l IH]; [reflexivity|].
  rewrite (filter_cons Q). destruct (decide (Q x)) as [HQ|HQ].
  - rewrite !filter_cons. destruct (decide (P x)); rewrite IH; reflexivity.
  - rewrite filter_cons. rewrite decide_False by (intros HP; auto). exact IH.
Qed.


Section PolicyInTheLoop.

Variable search : string -> string -> Z.
Variable K : constants.t.
Variable M : matchers.t.
Variable pathResolver : PathResolver.t.
Variable this : Vulcan.t.

(** X4. Taken alone, [isStrippedImport] throws a [TypeError] exactly on
    an edge without [href] when [stripExcludes] is not empty, and
    [isExcludedHref] throws exactly on an undefined [href] that is not
    external when [excludes] is not empty. In the import loop of
    [flatten] neither happens: the duplicate test comes first, so the two
    predicates only ever see an edge with a [href], and every iteration
    takes one of its three ways out, or goes on to the template test. *)
Theorem import_loop_policy_never_throws flatten_rec tree_href isMainDoc
  moveTarget im thisImport h :
  (isStrippedImport search this im = Throw TypeError <->
   href im = None /\ Vulcan.stripExcludes this <> []) /\
  (isExcludedImport search K this im = Throw TypeError <->
   href im = None /\ Vulcan.excludes this <> [] /\
   constants.EXTERNAL_URL K "undefined" = false) /\
  exists elide excluded : bool,
    (elide = true <->
     isDuplicateImport im = true \/
     isStrippedImport search this im = Ok true) /\
    (elide = false -> isExcludedImport search K this im = Ok excluded) /\
    flatten_import search K M pathResolver this flatten_rec tree_href
      isMainDoc moveTarget im thisImport h =
    if elide then removeElementAndNewline thisImport None h
    else if excluded then Ok h
    else
      templated ← isTemplated h thisImport;
      if templated : bool then Ok h
      else merge_import M pathResolver flatten_rec tree_href isMainDoc
             moveTarget im thisImport h.
Proof.
  split; [|split].
  - unfold isStrippedImport.
    destruct (Vulcan.stripExcludes this) as [|r rs] eqn:Hs; simpl.
    + split; [discriminate|]. intros [_ Hne]. congruence.
    + destruct (href im) as [s|]; simpl.
      * split; [discriminate|]. intros [? _]. discriminate.
      * split; [intros _; split; [reflexivity|discriminate]|reflexivity].
  - unfold isExcludedImport, isExcludedHref.
    destruct (href im) as [s|] eqn:Hh; simpl.
    + destruct (constants.EXTERNAL_URL K s).
      * split; [discriminate|]. intros [? _]. discriminate.
      * rewrite some_search_Ok. split; [discriminate|].
        intros [? _]. discriminate.
    + destruct (constants.EXTERNAL_URL K "undefined").
      * split; [discriminate|]. intros (_ & _ & ?). discriminate.
      * rewrite some_search_throws. split.
        -- intros [_ ?]. auto.
        -- intros (_ & ? & _). auto.
  - unfold flatten_import, isDuplicateImport, isStrippedImport,
      isExcludedImport, isExcludedHref.
    destruct (href im) as [s|] eqn:Hh; simpl.
    + destruct (truthy_string s) eqn:Hts; simpl.
      * set (stripped :=
               if is_empty (Vulcan.stripExcludes this) then false
               else existsb (fun r => (0 <=? search s r)%Z)
                      (Vulcan.stripExcludes this)).
        assert (Hstr : (if is_empty (Vulcan.stripExcludes this)
                        then Ok false
                        else some_search search (Vulcan.stripExcludes this)
                               (Some s)) = Ok stripped).
        { unfold stripped. rewrite some_search_Ok.
          destruct (is_empty _); reflexivity. }
        set (excluded :=
               if constants.EXTERNAL_URL K s then true
               else existsb (fun r => (0 <=? search s r)%Z)
                      (Vulcan.excludes this)).
        assert (Hexc : (if constants.EXTERNAL_URL K s then Ok true
                        else some_search search (Vulcan.excludes this)
                               (Some s)) = Ok excluded).
        { unfold excluded. rewrite some_search_Ok.
          destruct (constants.EXTERNAL_URL K s); reflexivity. }
        exists stripped, excluded. rewrite Hstr, Hexc. simpl.
        split; [|split].
        -- split; [intros ->; right; reflexivity|].
           intros [?|?]; congruence.
        -- reflexivity.
        -- destruct stripped; [reflexivity|]. simpl.
           destruct excluded; reflexivity.
      * exists true, false. simpl. split; [|split].
        -- split; auto.
        -- discriminate.
        -- reflexivity.
    + exists true, false. simpl. split; [|split].
      * split; auto.
      * discriminate.
      * reflexivity.
Qed.

End PolicyInTheLoop.









(** ** More on the surgery helpers *)

Lemma after_blank_sublist h post : sublist (after_blank h post) post.
Proof.
  unfold after_blank. destruct (trailing_blank h post); [|reflexivity].
  destruct post as [|y post']; [reflexivity|]. simpl.
  by apply sublist_cons.
Qed.

Lemma after_blank_not_blank h post nx :
  NoDup post -> trailing_blank h post = Some nx -> nx ∉ after_blank h post.
Proof.
  intros Hnd Hnx. unfold after_blank. rewrite Hnx.
  unfold trailing_blank in Hnx. destruct post as [|y post']; [done|].
  destruct (isBlankTextNode h (Some y)); [|done].
  injection Hnx as ->. simpl. by apply NoDup_cons in Hnd as [? _].
Qed.

Lemma after_blank_keeps h post c :
  c ∈ post -> trailing_blank h post <> Some c -> c ∈ after_blank h post.
Proof.
  intros Hc Hne. unfold after_blank.
  destruct (trailing_blank h post) as [nx|] eqn:Hnx; [|done].
  unfold trailing_blank in Hnx. destruct post as [|y post']; [done|].
  destruct (isBlankTextNode h (Some y)); [|done].
  injection Hnx as ->. simpl.
  apply elem_of_cons in Hc as [->|Hc]; [congruence|done].
Qed.

Lemma trailing_blank_is_blank h post nx :
  trailing_blank h post = Some nx -> isBlankTextNode h (Some nx) = true.
Proof.
  unfold trailing_blank. destruct post as [|y post']; [done|].
  destruct (isBlankTextNode h (Some y)) eqn:Hb; [|done]. by intros [= <-].
Qed.

Lemma node_eq_of_parts (a b : Node) :
  payload a = payload b -> parentNode a = parentNode b ->
  childNodes a = childNodes b -> a = b.
Proof.
  destruct a, b. unfold payload. simpl. intros [= -> -> -> -> ->] -> ->.
  reflexivity.
Qed.

Section Hide.
Variables (h : Heap) (node p : nat) (pre post : list nat).
Hypothesis Hparent : parentNode (h !!! node) = Some p.
Hypothesis Hsplit : childNodes (h !!! p) = pre ++ node :: post.
Hypothesis Hwf : wf_children h p.
Hypothesis Hnode_kind : dom5.isDocumentFragment (h !!! node) = false.

Let hidden := length h.

Lemma hide_spec :
  exists h',
    hide (Some node) h = Ok h' /\
    length h' = S (length h) /\
    (forall j, j < length h -> payload (h' !!! j) = payload (h !!! j)) /\
    payload (h' !!! hidden) = payload hidden_div /\
    (forall j, childNodes (h' !!! j) =
               if decide (j = p) then pre ++ hidden :: after_blank h post
               else if decide (j = hidden) then [node]
               else childNodes (h !!! j)) /\
    (forall j, parentNode (h' !!! j) =
               if decide (j = node) then Some hidden
               else if decide (j = hidden) then Some p
               else if decide (trailing_blank h post = Some j) then None
               else parentNode (h !!! j)).
Proof.
  assert (Hnode : node < length h) by by apply (parent_Some_in_range h node p).
  assert (Hp : p < length h).
  { apply (children_nonempty_in_range h p node). rewrite Hsplit. set_solver. }
  unfold hide. rewrite new_hidden_div_eq.
  set (h1 := h ++ [hidden_div]).
  assert (Hlen1 : length h1 = S (length h))
    by (subst h1; rewrite length_app; simpl; lia).
  assert (Hold : forall j, j < length h -> h1 !!! j = h !!! j)
    by (intros; by apply node_alloc_old).
  assert (Hnew : h1 !!! hidden = hidden_div) by apply node_alloc_new.
  assert (Hparent1 : parentNode (h1 !!! node) = Some p)
    by by rewrite Hold.
  assert (Hsplit1 : childNodes (h1 !!! p) = pre ++ node :: post)
    by by rewrite Hold.
  assert (Hwf1 : wf_children h1 p) by by apply wf_children_alloc.
  assert (Hrange : forall c, c ∈ post -> c < length h).
  { intros c Hc.
    apply (wf_children_in_range h p); [done|]. rewrite Hsplit. set_solver. }
  assert (Hpost : after_blank h1 post = after_blank h post)
    by by apply after_blank_alloc.
  assert (Htb : trailing_blank h1 post = trailing_blank h post).
  { unfold trailing_blank. destruct post as [|y post']; [done|].
    unfold h1. rewrite isBlankTextNode_alloc; [done|]. apply Hrange. by left. }
  assert (Hk1 : dom5.isDocumentFragment (h1 !!! hidden) = false)
    by by rewrite Hnew.
  assert (Hd1 : parentNode (h1 !!! hidden) = None) by by rewrite Hnew.
  assert (Hr1 : hidden < length h1) by (subst hidden; lia).
  rewrite (removeElementAndNewline_by_node h1 node p pre post) by done.
  rewrite bind_Ok.
  set (h2 := dom5.insertNode p (Z.of_nat (length pre)) hidden true
               (remove_if_blank
                  (at_index (childNodes (h1 !!! p))
                     (indexOf node (childNodes (h1 !!! p)) + 1)) h1)).
  assert (Hlen2 : length h2 = length h1)
    by by apply (length_replaced_by_node h1 node p pre post).
  assert (Hpay2 : forall j, payload (h2 !!! j) = payload (h1 !!! j))
    by (intros; by apply (payload_replaced_by_node h1 node p pre post)).
  assert (Hch2 : forall j, childNodes (h2 !!! j) =
            if decide (j = p) then pre ++ hidden :: after_blank h1 post
            else childNodes (h1 !!! j))
    by (intros; by apply (children_replaced_by_node h1 node p pre post)).
  assert (Hpa2 : forall j, parentNode (h2 !!! j) =
            if decide (j = node) then None
            else if decide (j = hidden) then Some p
            else if decide (trailing_blank h1 post = Some j) then None
            else parentNode (h1 !!! j))
    by (intros; by apply (parent_replaced_by_node h1 node p pre post)).
  assert (Hne_hp : hidden <> p) by (subst hidden; lia).
  assert (Hne_hn : hidden <> node) by (subst hidden; lia).
  destruct (append_detached h2 hidden node) as (Hlen3 & Hpay3 & Hch3 & Hpa3).
  { rewrite (payload_isDocumentFragment _ (h1 !!! node)) by apply Hpay2.
    by rewrite Hold. }
  { by rewrite Hpa2, decide_True. }
  { lia. }
  { lia. }
  set (h3 := dom5.append hidden node h2) in *.
  exists h3. split; [reflexivity|]. split; [lia|].
  split; [|split; [|split]].
  - intros j Hj. by rewrite Hpay3, Hpay2, Hold.
  - by rewrite Hpay3, Hpay2, Hnew.
  - intros j. rewrite Hch3. destruct (decide (j = hidden)) as [->|Hjh].
    + rewrite decide_False by done.
      rewrite Hch2, decide_False by done. by rewrite Hnew.
    + rewrite Hch2, Hpost. case_decide; [done|].
      destruct (decide (j < length h)) as [Hj|Hj]; [by rewrite Hold|].
      rewrite !node_out_of_range; [done|lia|subst h1 hidden; lia].
  - intros j. rewrite Hpa3. case_decide; [done|].
    rewrite Hpa2, decide_False by done. rewrite Htb.
    case_decide; [done|]. case_decide; [done|].
    destruct (decide (j < length h)) as [Hj|Hj]; [by rewrite Hold|].
    rewrite !node_out_of_range; [done|lia|subst h1 hidden; lia].
Qed.

End Hide.

(** [prepend] with a fragment: its children go first, in their order. *)
Section PrependFragment.
Variables (h : Heap) (parent frag : nat).
Hypothesis Hkind : dom5.isDocumentFragment (h !!! frag) = true.
Hypothesis Hf : frag < length h.
Hypothesis Hp : parent < length h.
Hypothesis Hne : frag <> parent.

Let cs := childNodes (h !!! frag).

Lemma prepend_fragment :
  exists h', prepend (Some parent) frag h = Ok h' /\
    length h' = length h /\
    (forall j, payload (h' !!! j) = payload (h !!! j)) /\
    (forall j, childNodes (h' !!! j) =
               if decide (j = parent) then cs ++ childNodes (h !!! parent)
               else if decide (j = frag) then []
               else childNodes (h !!! j)) /\
    (forall j, parentNode (h' !!! j) =
               if decide (j ∈ cs /\ j < length h) then Some parent
               else parentNode (h !!! j)).
Proof.
  unfold prepend.
  destruct (childNodes (h !!! parent)) as [|first rest] eqn:Hl.
  - eexists. split; [reflexivity|]. unfold dom5.append. rewrite Hl.
    split; [by apply length_insertNode_fragment|].
    split; [intros; by apply payload_insertNode_fragment|]. split.
    + intros j. rewrite children_insertNode_fragment by done.
      rewrite Hl. simpl. rewrite splice_insert_front. done.
    + intros j. rewrite parent_insertNode_fragment by done. done.
  - eexists. split; [reflexivity|]. unfold dom5.insertBefore.
    rewrite Hl, indexOf_head.
    split; [by apply length_insertNode_fragment|].
    split; [intros; by apply payload_insertNode_fragment|]. split.
    + intros j. rewrite children_insertNode_fragment by done.
      rewrite Hl, splice_insert_front. done.
    + intros j. rewrite parent_insertNode_fragment by done. done.
Qed.

End PrependFragment.

Lemma ancestorWalk_fuel_self fuel h t :
  ancestorWalk_fuel fuel h (Some t) t = Ok true.
Proof. destruct fuel; simpl; by rewrite Nat.eqb_refl. Qed.

(** X9. [removeElementAndNewline] keeps the document a tree. When a node
    that hangs under a node of a well-formed document is taken out, the
    call succeeds and what is left under the document is well formed
    again: child lists without repetition, every child pointing back to
    the node that lists it. Nothing new becomes reachable, and every child
    list keeps its order. *)
Theorem removeElementAndNewline_keeps_the_tree h doc node p :
  wf_doc h doc -> reach h doc p ->
  parentNode (h !!! node) = Some p -> node ∈ childNodes (h !!! p) ->
  exists h',
    removeElementAndNewline (Some node) None h = Ok h' /\
    wf_doc h' doc /\
    (forall x, reach h' doc x -> reach h doc x) /\
    (forall m, sublist (childNodes (h' !!! m)) (childNodes (h !!! m))).
Proof.
  intros Hwf Hp Hparent Hin.
  apply list_elem_of_split in Hin as (pre & post & Hsplit).
  pose proof (Hwf p Hp) as Hwfp.
  set (next := at_index (childNodes (h !!! p))
                 (indexOf node (childNodes (h !!! p)) + 1)).
  set (h' := dom5.remove node (remove_if_blank next h)).
  assert (Hch : forall j, childNodes (h' !!! j) =
            if decide (j = p) then pre ++ after_blank h post
            else childNodes (h !!! j))
    by (intros; by apply (children_removed h node p pre post)).
  assert (Hpa : forall j, parentNode (h' !!! j) =
            if decide (j = node \/ trailing_blank h post = Some j) then None
            else parentNode (h !!! j))
    by (intros; by apply (parent_removed h node p pre post)).
  destruct (split_first h node p pre post Hsplit Hwfp) as [Hpre Hpost].
  assert (Hsl : forall m, sublist (childNodes (h' !!! m)) (childNodes (h !!! m))).
  { intros m. rewrite Hch. case_decide as Hm; [subst m|reflexivity].
    rewrite Hsplit. apply sublist_app; [reflexivity|].
    apply sublist_cons, after_blank_sublist. }
  assert (Hsub : forall m c, c ∈ childNodes (h' !!! m) ->
                             c ∈ childNodes (h !!! m)).
  { intros m c Hc. by apply (elem_of_sublist _ _ _ Hc (Hsl m)). }
  assert (Hreach : forall x, reach h' doc x -> reach h doc x)
    by (intros x; by apply reach_mono).
  exists h'. split; [by apply (removeElementAndNewline_plain h node p)|].
  split; [|split; [exact Hreach|exact Hsl]].
  intros m Hm. apply Hreach in Hm. destruct (Hwf m Hm) as [Hnd Hback].
  split.
  - apply (sublist_NoDup _ _ Hnd (Hsl m)).
  - intros c Hc. rewrite Hpa.
    assert (Hcm : c ∈ childNodes (h !!! m)) by by apply Hsub.
    rewrite decide_False; [by apply Hback|].
    assert (Hnd' : NoDup (pre ++ node :: post)) by (rewrite <- Hsplit; apply Hwfp).
    apply NoDup_app in Hnd' as (Hnd1 & Hdisj & Hnd2).
    apply NoDup_cons in Hnd2 as [Hnode Hnd2].
    intros [->|Hnx].
    + assert (m = p) as -> by (apply Hback in Hcm; congruence).
      rewrite Hch, decide_True in Hc by done.
      apply elem_of_app in Hc as [Hc|Hc%after_blank_subset]; done.
    + assert (Hcp : c ∈ childNodes (h !!! p)).
      { rewrite Hsplit. apply trailing_blank_elem in Hnx. set_solver. }
      assert (m = p) as ->.
      { apply Hback in Hcm. destruct Hwfp as [_ Hbp]. apply Hbp in Hcp.
        congruence. }
      rewrite Hch, decide_True in Hc by done.
      apply elem_of_app in Hc as [Hc|Hc].
      * apply (Hdisj c Hc). right. by apply trailing_blank_elem in Hnx.
      * by apply (after_blank_not_blank h post c).
Qed.

Lemma removeElementAndNewline_keeps_the_tree_witness :
  exists h',
    removeElementAndNewline (Some 4) None Sample.h0 = Ok h' /\
    wf_doc h' 0 /\
    (forall x, reach h' 0 x -> reach Sample.h0 0 x) /\
    (forall m, sublist (childNodes (h' !!! m)) (childNodes (Sample.h0 !!! m))).
Proof.
  apply (removeElementAndNewline_keeps_the_tree Sample.h0 0 4 2).
  - apply wf_doc_b_sound. vm_compute. reflexivity.
  - apply reach_b_sound. vm_compute. reflexivity.
  - reflexivity.
  - simpl. left.
Defined.

(** X10. [hide(node)] wraps a node where it stands. For a node that hangs
    under a parent, one node is created, a [div] with the attributes
    [hidden] and [by-vulcanize]; it takes the place of the node among the
    children of the parent (the blank text after the node is dropped), the
    node becomes its only child, and no other node changes its children
    or, the dropped blank text apart, its parent. Afterwards
    [ancestorWalk] finds the container above the node. *)
Theorem hide_wraps_the_node h node p pre post :
  parentNode (h !!! node) = Some p ->
  childNodes (h !!! p) = pre ++ node :: post ->
  wf_children h p ->
  dom5.isDocumentFragment (h !!! node) = false ->
  let hidden := length h in
  exists h',
    hide (Some node) h = Ok h' /\
    length h' = S (length h) /\
    (forall j, j < length h -> payload (h' !!! j) = payload (h !!! j)) /\
    payload (h' !!! hidden) = payload hidden_div /\
    (forall j, childNodes (h' !!! j) =
               if decide (j = p) then pre ++ hidden :: after_blank h post
               else if decide (j = hidden) then [node]
               else childNodes (h !!! j)) /\
    (forall j, parentNode (h' !!! j) =
               if decide (j = node) then Some hidden
               else if decide (j = hidden) then Some p
               else if decide (trailing_blank h post = Some j) then None
               else parentNode (h !!! j)) /\
    ancestorWalk h' (Some node) hidden = Ok true.
Proof.
  intros Hparent Hsplit Hwf Hkind hidden.
  destruct (hide_spec h node p pre post Hparent Hsplit Hwf Hkind)
    as (h' & Hrun & Hlen & Hpay & Hnew & Hch & Hpa).
  exists h'. repeat (split; [assumption|]).
  assert (Hnode : node < length h) by by apply (parent_Some_in_range h node p).
  unfold ancestorWalk. rewrite Hlen.
  assert (Hne : Nat.eqb node hidden = false)
    by (apply Nat.eqb_neq; subst hidden; lia).
  change (ancestorWalk_fuel (S (length h)) h' (Some node) hidden)
    with (if Nat.eqb node hidden then Ok true
          else ancestorWalk_fuel (length h) h' (parentNode (h' !!! node))
                 hidden).
  rewrite Hne, Hpa, decide_True by done. apply ancestorWalk_fuel_self.
Qed.

Lemma hide_wraps_the_node_witness :
  exists h',
    hide (Some 4) Sample.h0 = Ok h' /\
    payload (h' !!! 15) = payload hidden_div /\
    childNodes (h' !!! 2) = [15] /\
    childNodes (h' !!! 15) = [4] /\
    parentNode (h' !!! 4) = Some 15 /\
    parentNode (h' !!! 5) = None /\
    ancestorWalk h' (Some 4) 15 = Ok true.
Proof.
  destruct (hide_wraps_the_node Sample.h0 4 2 [] [5])
    as (h' & Hrun & _ & _ & Hnew & Hch & Hpa & Hwalk).
  - reflexivity.
  - reflexivity.
  - apply wf_children_b_sound. reflexivity.
  - reflexivity.
  - exists h'. split; [exact Hrun|]. split; [exact Hnew|].
    split; [rewrite Hch; reflexivity|].
    split; [rewrite Hch; reflexivity|].
    split; [rewrite Hpa; reflexivity|].
    split; [rewrite Hpa; reflexivity|exact Hwalk].
Defined.



(** ** The relocation of the scripts and links of [<head>] *)

Lemma isBlankTextNode_payload h h' c :
  payload (h' !!! c) = payload (h !!! c) ->
  isBlankTextNode h' (Some c) = isBlankTextNode h (Some c).
Proof.
  intros Hpay. rewrite !isBlankTextNode_Some. unfold dom5.isTextNode.
  by rewrite (payload_kind _ _ Hpay), (payload_text _ _ Hpay).
Qed.

Lemma isBlankTextNode_is_text h c :
  isBlankTextNode h (Some c) = true -> dom5.isTextNode (h !!! c) = true.
Proof. rewrite isBlankTextNode_Some. by intros [? _]%andb_true_iff. Qed.

Section MoveToTarget.
Variables (head mt : nat).
Hypothesis Hne : mt <> head.

Lemma move_to_target_spec ns : forall h,
  wf_children h head -> mt < length h ->
  NoDup ns -> mt ∉ ns ->
  (forall n, n ∈ ns ->
     n ∈ childNodes (h !!! head) /\
     dom5.isTextNode (h !!! n) = false /\
     dom5.isDocumentFragment (h !!! n) = false) ->
  exists h',
    move_to_target mt ns h = Ok h' /\
    length h' = length h /\
    (forall j, payload (h' !!! j) = payload (h !!! j)) /\
    childNodes (h' !!! mt) = childNodes (h !!! mt) ++ ns /\
    (forall n, n ∈ ns -> parentNode (h' !!! n) = Some mt) /\
    wf_children h' head /\
    sublist (childNodes (h' !!! head)) (childNodes (h !!! head)) /\
    (forall c, c ∈ childNodes (h' !!! head) -> c ∉ ns) /\
    (forall c, c ∈ childNodes (h !!! head) -> c ∉ ns ->
       isBlankTextNode h (Some c) = false -> c ∈ childNodes (h' !!! head)) /\
    (forall j, j <> head -> j <> mt ->
       childNodes (h' !!! j) = childNodes (h !!! j)) /\
    (forall j, j ∉ childNodes (h !!! head) ->
       parentNode (h' !!! j) = parentNode (h !!! j)).
Proof.
  induction ns as [|n ns IH]; intros h Hwf Hmt Hnd Hmtns Hns.
  - exists h. simpl. rewrite app_nil_r.
    split; [done|]. split; [done|]. split; [done|]. split; [done|].
    split; [intros n Hn; inversion Hn|]. split; [done|].
    split; [reflexivity|]. split; [intros c _ Hc; inversion Hc|].
    split; [done|]. split; done.
  - apply NoDup_cons in Hnd as [Hn_ns Hnd].
    destruct (Hns n) as (Hn_in & Hn_text & Hn_frag); [by left|].
    apply list_elem_of_split in Hn_in as (pre & post & Hsplit).
    assert (Hparent : parentNode (h !!! n) = Some head).
    { apply Hwf. rewrite Hsplit. apply elem_of_app. right. left. }
    assert (Hn : n < length h) by by apply (parent_Some_in_range h n head).
    destruct (split_first h n head pre post Hsplit Hwf) as [Hpre Hpost].
    assert (Hndl : NoDup (pre ++ n :: post)) by (rewrite <- Hsplit; apply Hwf).
    apply NoDup_app in Hndl as (Hnd1 & Hdisj & Hnd2).
    apply NoDup_cons in Hnd2 as [_ Hnd2].
    cbn [move_to_target].
    rewrite (removeElementAndNewline_plain h n head) by done.
    rewrite bind_Ok.
    set (h1 := dom5.remove n
                 (remove_if_blank
                    (at_index (childNodes (h !!! head))
                       (indexOf n (childNodes (h !!! head)) + 1)) h)).
    assert (Hlen1 : length h1 = length h)
      by by apply (length_removed h n head pre post).
    assert (Hpay1 : forall j, payload (h1 !!! j) = payload (h !!! j))
      by (intros; by apply (payload_removed h n head pre post)).
    assert (Hch1 : forall j, childNodes (h1 !!! j) =
              if decide (j = head) then pre ++ after_blank h post
              else childNodes (h !!! j))
      by (intros; by apply (children_removed h n head pre post)).
    assert (Hpa1 : forall j, parentNode (h1 !!! j) =
              if decide (j = n \/ trailing_blank h post = Some j) then None
              else parentNode (h !!! j))
      by (intros; by apply (parent_removed h n head pre post)).
    destruct (append_detached h1 mt n) as (Hlen2 & Hpay2 & Hch2 & Hpa2).
    { by rewrite (payload_isDocumentFragment _ (h !!! n)) by apply Hpay1. }
    { rewrite Hpa1, decide_True; [done|by left]. }
    { lia. }
    { lia. }
    set (h2 := dom5.append mt n h1) in *.
    assert (Hpay : forall j, payload (h2 !!! j) = payload (h !!! j))
      by (intros; by rewrite Hpay2, Hpay1).
    assert (Hhead2 : childNodes (h2 !!! head) = pre ++ after_blank h post).
    { rewrite Hch2, decide_False by done. by rewrite Hch1, decide_True. }
    assert (Hsl : sublist (pre ++ after_blank h post) (pre ++ n :: post)).
    { apply sublist_app; [reflexivity|].
      apply sublist_cons, after_blank_sublist. }
    assert (Hn_gone : n ∉ pre ++ after_blank h post).
    { intros [?|?%after_blank_subset]%elem_of_app; done. }
    assert (Hmt_not_n : mt <> n) by (intros ->; apply Hmtns; by left).
    assert (Hwf2 : wf_children h2 head).
    { split; rewrite Hhead2.
      - apply (sublist_NoDup _ _ (proj1 Hwf)). by rewrite Hsplit.
      - intros c Hc. rewrite Hpa2.
        rewrite decide_False by (intros ->; done).
        rewrite Hpa1, decide_False.
        + apply Hwf. rewrite Hsplit. by apply (elem_of_sublist _ _ _ Hc Hsl).
        + intros [->|Hnx]; [done|].
          apply elem_of_app in Hc as [Hc|Hc].
          * apply (Hdisj c Hc). right. by apply trailing_blank_elem in Hnx.
          * by apply (after_blank_not_blank h post c). }
    destruct (IH h2) as (h' & Hrun & Hlen & Hpay' & Hmtch & Hpar & Hwf' &
                         Hsl' & Hnot & Hstay & Hframe & Hpframe).
    { exact Hwf2. }
    { lia. }
    { exact Hnd. }
    { intros Hin. apply Hmtns. by right. }
    { intros n' Hn'. destruct (Hns n') as (Hin' & Htext' & Hfrag');
        [by right|].
      split; [|split].
      - rewrite Hhead2. rewrite Hsplit in Hin'.
        apply elem_of_app in Hin' as [Hin'|Hin'];
          [apply elem_of_app; by left|].
        apply elem_of_cons in Hin' as [->|Hin']; [done|].
        apply elem_of_app. right. apply after_blank_keeps; [done|].
        intros Hnx%trailing_blank_is_blank%isBlankTextNode_is_text.
        congruence.
      - unfold dom5.isTextNode in *. by rewrite (payload_kind _ _ (Hpay n')).
      - by rewrite (payload_isDocumentFragment _ _ (Hpay n')). }
    exists h'. split; [exact Hrun|]. split; [lia|].
    split; [intros; by rewrite Hpay', Hpay|].
    split.
    { rewrite Hmtch, Hch2, decide_True by done.
      rewrite Hch1, decide_False by done. by rewrite <- app_assoc. }
    split.
    { intros n' [->|Hn']%elem_of_cons; [|by apply Hpar].
      rewrite Hpframe by (rewrite Hhead2; exact Hn_gone).
      by rewrite Hpa2, decide_True. }
    split; [exact Hwf'|]. split.
    { etrans; [exact Hsl'|]. by rewrite Hhead2, Hsplit. }
    split.
    { intros c Hc [->|Hcn]%elem_of_cons.
      - apply (elem_of_sublist _ _ _ Hc) in Hsl'. by rewrite Hhead2 in Hsl'.
      - by apply (Hnot c). }
    split.
    { intros c Hc Hcns Hblank. apply Hstay.
      - rewrite Hhead2. rewrite Hsplit in Hc.
        apply elem_of_app in Hc as [Hc|Hc]; [apply elem_of_app; by left|].
        apply elem_of_cons in Hc as [->|Hc]; [exfalso; apply Hcns; by left|].
        apply elem_of_app. right. apply after_blank_keeps; [done|].
        intros Hnx%trailing_blank_is_blank. congruence.
      - intros Hin. apply Hcns. by right.
      - by rewrite (isBlankTextNode_payload h h2 c (Hpay c)). }
    split.
    { intros j Hjh Hjm. rewrite Hframe by done.
      rewrite Hch2, decide_False by done. by rewrite Hch1, decide_False. }
    { intros j Hj. rewrite Hpframe.
      - rewrite Hpa2, decide_False.
        + rewrite Hpa1, decide_False; [done|].
          intros [->|Hnx]; apply Hj; rewrite Hsplit;
            [apply elem_of_app; right; left|].
          apply trailing_blank_elem in Hnx.
          apply elem_of_app. right. by right.
        + intros ->. apply Hj. rewrite Hsplit.
          apply elem_of_app. right. left.
      - rewrite Hhead2. intros Hin. apply Hj. rewrite Hsplit.
        by apply (elem_of_sublist _ _ _ Hin Hsl). }
Qed.

End MoveToTarget.

(** ** Walks over a document that can be walked through *)

Lemma all_matches_filter g g' (P : nat -> Prop) `{!forall x, Decision (P x)}
  cs rs :
  dom5.all_matches g cs = Ok rs ->
  (forall c lc, g c = Ok lc -> g' c = Ok (filter P lc)) ->
  dom5.all_matches g' cs = Ok (filter P rs).
Proof.
  intros Hall Hg. revert rs Hall.
  induction cs as [|c cs IH]; intros rs; simpl.
  - by intros [= <-].
  - destruct (g c) as [lc|e] eqn:Hc; simpl; [|done].
    destruct (dom5.all_matches g cs) as [r|e] eqn:Hcs; simpl; [|done].
    intros [= <-]. rewrite (Hg c lc Hc). simpl.
    rewrite (IH r eq_refl). simpl. by rewrite filter_app.
Qed.

(** [nodeWalkAll] returns the nodes that satisfy the predicate, in
    document order. *)
Lemma nodeWalkAll_fuel_of_descendants fuel h p r l :
  dom5.nodeWalkAll_fuel fuel h (fun _ => true) r = Ok l ->
  dom5.nodeWalkAll_fuel fuel h p r =
  Ok (filter (fun x => p (h !!! x) = true) l).
Proof.
  revert r l. induction fuel as [|fuel IH]; intros r l; simpl; [done|].
  destruct (dom5.all_matches _ _) as [rs|e] eqn:Hrs; simpl; [|done].
  intros [= <-].
  rewrite (all_matches_filter _ _ (fun x => p (h !!! x) = true) _ rs Hrs);
    [|intros c lc; apply IH].
  simpl. rewrite filter_cons. by destruct (p (h !!! r)).
Qed.

Lemma nodeWalkAll_of_descendants h p r l :
  descendants h r = Ok l ->
  dom5.nodeWalkAll h r p = Ok (filter (fun x => p (h !!! x) = true) l).
Proof. apply nodeWalkAll_fuel_of_descendants. Qed.

Lemma queryAll_of_descendants h p r l :
  descendants h r = Ok l ->
  dom5.queryAll h r p =
  Ok (filter (fun x => dom5.AND dom5.isElement p (h !!! x) = true) l).
Proof. apply nodeWalkAll_of_descendants. Qed.

Lemma find_none_of_all {A} (q : A -> bool) (l : list A) :
  (forall x, x ∈ l -> q x = false) -> List.find q l = None.
Proof.
  induction l as [|a l IH]; intros H; simpl; [done|].
  rewrite H by left. apply IH. intros; apply H; by right.
Qed.

Lemma query_none h p r l :
  descendants h r = Ok l ->
  (forall x, x ∈ l -> dom5.isElement (h !!! x) = true -> p (h !!! x) = false) ->
  dom5.query h r p = Ok None.
Proof.
  intros Hl Hno. rewrite (query_of_descendants _ _ _ _ Hl).
  f_equal. apply find_none_of_all. intros x Hx. unfold dom5.AND.
  destruct (dom5.isElement (h !!! x)) eqn:He; [|done]. by apply Hno.
Qed.

Lemma fixFakeExternalScripts_unmarked M h doc l :
  descendants h doc = Ok l ->
  (forall x, x ∈ l -> truthy (inlined (h !!! x)) = false) ->
  fixFakeExternalScripts M doc h = Ok h.
Proof.
  intros Hl Hno. unfold fixFakeExternalScripts.
  rewrite (queryAll_of_descendants _ _ _ _ Hl). simpl. f_equal.
  assert (Hsub : forall s,
            s ∈ filter (fun x => dom5.AND dom5.isElement (matchers.JS_INLINE M)
                                   (h !!! x) = true) l ->
            truthy (inlined (h !!! s)) = false).
  { intros s [_ Hs]%list_elem_of_filter. by apply Hno. }
  induction (filter _ l) as [|s ss IH]; simpl; [done|].
  assert (Hs : truthy (inlined (h !!! s)) = false) by (apply Hsub; left).
  unfold truthy in Hs. destruct (inlined (h !!! s)) as [src|].
  - rewrite Hs. apply IH. intros; apply Hsub; by right.
  - apply IH. intros; apply Hsub; by right.
Qed.

Lemma moveToBodyMatcher_is_element M x :
  moveToBodyMatcher M x = true -> dom5.isElement x = true.
Proof.
  unfold moveToBodyMatcher, dom5.AND, dom5.OR, dom5.hasTagName.
  intros [H _]%andb_true_iff. apply orb_true_iff in H as [H|H];
    by apply andb_true_iff in H as [? _].
Qed.

Lemma heap_eq_of_nodes (h1 h2 : Heap) :
  length h1 = length h2 ->
  (forall j, j < length h1 -> h1 !!! j = h2 !!! j) -> h1 = h2.
Proof.
  intros Hlen Hn. apply (list_eq_same_length _ _ (length h1)); [done..|].
  intros i x y Hi Hx Hy.
  apply list_lookup_total_correct in Hx, Hy. rewrite <- Hx, <- Hy.
  by apply Hn.
Qed.

Lemma filter_none {A} (P : A -> Prop) `{!forall x, Decision (P x)}
  (l : list A) :
  (forall x, x ∈ l -> ~ P x) -> filter P l = [].
Proof.
  induction l as [|a l IH]; intros Hno; [done|].
  rewrite filter_cons, decide_False by (apply Hno; left).
  apply IH. intros; apply Hno; by right.
Qed.

(** X12. The relocation of [flatten]: every child of [<head>] that passes
    [moveToBodyMatcher] (the scripts and the links that are not Polymer
    external styles) ends up under the relocation target, behind what the
    target held, in the order it had in [<head>]. None of them is left in
    [<head>], whose other children keep their order; of these only blank
    text can be gone (the blank text that followed a moved node). No other
    child list changes. *)
Theorem head_scripts_and_links_move_in_order M h head mt :
  wf_children h head -> mt < length h -> mt <> head ->
  mt ∉ childNodes (h !!! head) ->
  let ns := filter (fun n => moveToBodyMatcher M (h !!! n) = true)
              (childNodes (h !!! head)) in
  exists h',
    move_to_target mt ns h = Ok h' /\
    length h' = length h /\
    (forall j, payload (h' !!! j) = payload (h !!! j)) /\
    childNodes (h' !!! mt) = childNodes (h !!! mt) ++ ns /\
    (forall n, n ∈ ns -> parentNode (h' !!! n) = Some mt) /\
    wf_children h' head /\
    sublist (childNodes (h' !!! head)) (childNodes (h !!! head)) /\
    (forall c, c ∈ childNodes (h' !!! head) ->
       moveToBodyMatcher M (h !!! c) = false) /\
    (forall c, c ∈ childNodes (h !!! head) ->
       moveToBodyMatcher M (h !!! c) = false ->
       isBlankTextNode h (Some c) = false -> c ∈ childNodes (h' !!! head)) /\
    (forall j, j <> head -> j <> mt ->
       childNodes (h' !!! j) = childNodes (h !!! j)).
Proof.
  intros Hwf Hmt Hne Hfresh ns.
  destruct (move_to_target_spec head mt Hne ns h Hwf Hmt)
    as (h' & Hrun & Hlen & Hpay & Hmtch & Hpar & Hwf' & Hsl & Hnot & Hstay &
        Hframe & _).
  { apply NoDup_filter, Hwf. }
  { intros [_ Hin]%list_elem_of_filter. done. }
  { intros n [Hm Hin]%list_elem_of_filter. split; [done|].
    apply moveToBodyMatcher_is_element in Hm.
    unfold dom5.isElement, dom5.isTextNode, dom5.isDocumentFragment in *.
    apply bool_decide_eq_true in Hm.
    split; apply bool_decide_eq_false; congruence. }
  exists h'. repeat (split; [assumption|]). split; [|split; [|exact Hframe]].
  - intros c Hc. destruct (moveToBodyMatcher M (h !!! c)) eqn:Hm; [|done].
    exfalso. apply (Hnot c Hc). apply list_elem_of_filter. split; [done|].
    by apply (elem_of_sublist _ _ _ Hc Hsl).
  - intros c Hc Hm Hblank. apply Hstay; [done| |done].
    intros [Hm' _]%list_elem_of_filter. congruence.
Qed.

Lemma head_scripts_and_links_move_in_order_witness :
  exists h',
    move_to_target 7 [4] Sample.h0 = Ok h' /\
    childNodes (h' !!! 7) = [8; 4] /\
    parentNode (h' !!! 4) = Some 7 /\
    (forall c, c ∈ childNodes (h' !!! 2) ->
       moveToBodyMatcher Sample.M (Sample.h0 !!! c) = false).
Proof.
  destruct (head_scripts_and_links_move_in_order Sample.M Sample.h0 2 7)
    as (h' & Hrun & _ & _ & Hmt & Hpar & _ & _ & Hnone & _).
  - apply wf_children_b_sound. reflexivity.
  - simpl. lia.
  - lia.
  - simpl. intros Hin. apply elem_of_cons in Hin as [?|Hin]; [lia|].
    apply list_elem_of_singleton in Hin. lia.
  - exists h'. split; [exact Hrun|]. split; [exact Hmt|].
    split; [apply Hpar; simpl; left|exact Hnone].
Defined.

Section FlattenEdges.

Variable search : string -> string -> Z.
Variable K : constants.t.
Variable M : matchers.t.
Variable pathResolver : PathResolver.t.
Variable loader : Loader.t.
Variable url_resolve : string -> string -> string.
Variable encodeString : string -> string.
Variable analyzer : Analyzer.t.
Variable inlineCss : nat -> option string -> Heap -> Res Heap.
Variable serialize : Heap -> nat -> string.
Variable this : Vulcan.t.


(** X14. A document in which [flatten] finds nothing to do comes back as
    it was. When the document has a [<head>] and a [<body>], no fake
    external script, no script or link among the children of [<head>]
    and no import, and the path resolver leaves it alone, then [flatten]
    returns the document with every node unchanged: the relocation
    target it created (the hidden container in the main document, a
    fragment in an import) is the one node added to the heap, and it is
    left detached and empty. *)
Theorem flatten_leaves_a_plain_document_alone tree_href doc importNodes
  tree_imports isMainDoc h l hd b :
  descendants h doc = Ok l ->
  dom5.query h doc (matchers.head M) = Ok (Some hd) ->
  dom5.query h doc (matchers.body M) = Ok (Some b) ->
  (forall x, x ∈ l -> dom5.isElement (h !!! x) = true ->
     matchers.polymerElement M (h !!! x) = false) ->
  (forall x, x ∈ l -> truthy (inlined (h !!! x)) = false) ->
  PathResolver.acid pathResolver doc tree_href h = h ->
  (forall c, c ∈ childNodes (h !!! hd) ->
     moveToBodyMatcher M (h !!! c) = false) ->
  tree_imports = None \/ tree_imports = Some [] ->
  flatten search K M pathResolver this
    (mkImportTree tree_href (Some (mkHtml doc importNodes)) tree_imports)
    isMainDoc h
  = Ok (doc, h ++ [if isMainDoc then hidden_div
                   else dom5.newDocumentFragment]).
Proof.
  intros Hl Hhead Hbody Hold Hfake Hacid Hmove Himports.
  assert (Hb : b < length h).
  { apply query_found in Hbody as (_ & He & _). by apply element_in_range. }
  assert (Hhd : hd < length h).
  { apply query_found in Hhead as (_ & He & _). by apply element_in_range. }
  simpl. rewrite Hhead, Hbody, !bind_Ok.
  unfold hasOldPolymer.
  rewrite (query_none h (matchers.polymerElement M) doc l Hl Hold).
  rewrite !bind_Ok.
  change (bool_decide (is_Some (@None nat))) with false. cbv iota.
  rewrite (fixFakeExternalScripts_unmarked M h doc l Hl Hfake), bind_Ok.
  rewrite Hacid.
  set (x := if isMainDoc then hidden_div else dom5.newDocumentFragment).
  assert (Hmt : (if isMainDoc then new_hidden_div h
                 else dom5.constructors.fragment h) = (length h, h ++ [x])).
  { subst x. destruct isMainDoc; [apply new_hidden_div_eq|done]. }
  rewrite Hmt.
  assert (Hnone : filter (fun n => moveToBodyMatcher M ((h ++ [x]) !!! n) = true)
                    (childNodes ((h ++ [x]) !!! hd)) = []).
  { rewrite node_alloc_old by done.
    apply filter_none. intros c Hc.
    destruct (decide (c < length h)) as [Hlt|Hge].
    - rewrite node_alloc_old by done. rewrite Hmove by done. done.
    - destruct (decide (c = length h)) as [->|Hne].
      + rewrite node_alloc_new. subst x. by destruct isMainDoc.
      + rewrite node_out_of_range; [done|]. rewrite length_app. simpl. lia. }
  rewrite Hnone. cbn [move_to_target]. rewrite bind_Ok.
  assert (Hloop : match tree_imports with
            | None => Ok (A:=Heap)
            | Some ims =>
                import_loop
                  (flatten_import search K M pathResolver this
                     (fun t => flatten search K M pathResolver this t false)
                     tree_href isMainDoc (length h))
                  importNodes ims 0
            end = Ok).
  { by destruct Himports as [-> | ->]. }
  destruct isMainDoc; subst x.
  - destruct (prepend_new h hidden_div b) as
      (h5 & Hrun & Hlen5 & Hpay5 & Hpa5 & Hch5 & Hpayn & Hpan & Hchn);
      [done..|].
    rewrite Hrun, bind_Ok.
    assert (Hloop5 : match tree_imports with
              | None => Ok h5
              | Some ims =>
                  import_loop
                    (flatten_import search K M pathResolver this
                       (fun t => flatten search K M pathResolver this t false)
                       tree_href true (length h))
                    importNodes ims 0 h5
              end = Ok h5).
    { by destruct Himports as [-> | ->]. }
    rewrite Hloop5, bind_Ok. rewrite Hchn. simpl. f_equal. f_equal.
    apply heap_eq_of_nodes.
    { rewrite length_remove, Hlen5, length_app. simpl. lia. }
    rewrite length_remove, Hlen5. intros j Hj.
    apply node_eq_of_parts.
    + rewrite payload_remove.
      destruct (decide (j < length h)) as [Hlt|Hge].
      * rewrite Hpay5 by done. by rewrite node_alloc_old.
      * assert (j = length h) as -> by lia.
        by rewrite Hpayn, node_alloc_new.
    + rewrite parent_remove. case_decide as Hjm.
      * subst j. by rewrite node_alloc_new.
      * assert (Hlt : j < length h) by lia.
        rewrite Hpa5 by done. by rewrite node_alloc_old.
    + rewrite children_remove, Hpan.
      destruct (decide (j < length h)) as [Hlt|Hge].
      * rewrite !Hch5 by done. rewrite node_alloc_old by done.
        case_decide as Hjb; [|done]. subst j.
        rewrite decide_True by done. rewrite indexOf_head.
        apply (splice_delete_at (length h) [] (childNodes (h !!! b))).
      * assert (j = length h) as -> by lia.
        rewrite decide_False by lia. by rewrite Hchn, node_alloc_new.
  - assert (Hlen3 : length (h ++ [dom5.newDocumentFragment]) = S (length h))
      by (rewrite length_app; simpl; lia).
    destruct (prepend_fragment (h ++ [dom5.newDocumentFragment]) b
                (length h)) as (h5 & Hrun & Hlen5 & Hpay5 & Hch5 & Hpa5).
    { by rewrite node_alloc_new. }
    { lia. }
    { lia. }
    { lia. }
    rewrite Hrun, bind_Ok.
    assert (Hloop5 : match tree_imports with
              | None => Ok h5
              | Some ims =>
                  import_loop
                    (flatten_import search K M pathResolver this
                       (fun t => flatten search K M pathResolver this t false)
                       tree_href false (length h))
                    importNodes ims 0 h5
              end = Ok h5).
    { by destruct Himports as [-> | ->]. }
    rewrite Hloop5, bind_Ok. simpl. f_equal. f_equal.
    apply heap_eq_of_nodes; [done|].
    intros j Hj. rewrite node_alloc_new in Hch5, Hpa5. simpl in Hch5, Hpa5.
    apply node_eq_of_parts.
    + apply Hpay5.
    + apply Hpa5.
    + rewrite Hch5. case_decide as Hjb; [by subst j|].
      case_decide as Hjf; [|done]. subst j. by rewrite node_alloc_new.
Qed.

End FlattenEdges.


Lemma flatten_leaves_a_plain_document_alone_witness :
  flatten Sample.search Sample.K Sample.M Sample.pathResolver Sample.this
    (mkImportTree (Some "plain.html") (Some (mkHtml 0 [])) (Some [])) true
    Sample2.h_plain
  = Ok (0, Sample2.h_plain ++ [hidden_div]).
Proof.
  apply (flatten_leaves_a_plain_document_alone Sample.search Sample.K
           Sample.M Sample.pathResolver Sample.this (Some "plain.html") 0 []
           (Some []) true Sample2.h_plain [0; 1; 2; 4; 3; 5] 2 3).
  - reflexivity.
  - reflexivity.
  - reflexivity.
  - intros x Hx _. apply list_elem_of_In in Hx. simpl in Hx.
    repeat (destruct Hx as [<-|Hx]; [reflexivity|]). destruct Hx.
  - intros x Hx. apply list_elem_of_In in Hx. simpl in Hx.
    repeat (destruct Hx as [<-|Hx]; [reflexivity|]). destruct Hx.
  - reflexivity.
  - intros c Hc. apply list_elem_of_In in Hc. simpl in Hc.
    repeat (destruct Hc as [<-|Hc]; [reflexivity|]). destruct Hc.
  - right. reflexivity.
Defined.

(** ** Attributes and text content *)

Lemma getAttribute_after_set (a : list (string * string)) name value :
  let a' := match dom5.getAttributeIndex a name with
            | Some i => alter (fun kv => (fst kv, value)) i a
            | None => a ++ [(name, value)]
            end in
  (i ← dom5.getAttributeIndex a' name; snd <$> a' !! i) = Some value.
Proof.
  induction a as [|[k v] a IH]; simpl.
  - by rewrite String.eqb_refl.
  - destruct (String.eqb (toLowerCase k) (toLowerCase name)) eqn:Hk; simpl.
    + by rewrite Hk.
    + simpl in IH.
      destruct (dom5.getAttributeIndex a name) as [i|] eqn:Hi.
      * change (dom5.getAttributeIndex
                  ((k, v) :: alter (fun kv => (fst kv, value)) i a) name
                ≫= (fun j => snd <$>
                      ((k, v) :: alter (fun kv => (fst kv, value)) i a) !! j)
                = Some value).
        simpl. rewrite Hk.
        set (a' := alter (fun kv => (fst kv, value)) i a) in *.
        destruct (dom5.getAttributeIndex a' name) as [i'|]; simpl in *; done.
      * simpl. rewrite Hk.
        set (a' := a ++ [(name, value)]) in *.
        destruct (dom5.getAttributeIndex a' name) as [i'|]; simpl in *; done.
Qed.

Lemma getAttribute_setAttribute e name value h :
  e < length h ->
  dom5.getAttribute (dom5.setAttribute e name value h !!! e) name = Some value.
Proof.
  intros He. unfold dom5.setAttribute. rewrite node_alter_eq by done.
  unfold dom5.getAttribute.
  pose proof (getAttribute_after_set (attrs (h !!! e)) name value) as Hset.
  simpl in Hset.
  by destruct (dom5.getAttributeIndex (attrs (h !!! e)) name).
Qed.

Lemma setAttribute_frame e name value h j :
  j <> e -> dom5.setAttribute e name value h !!! j = h !!! j.
Proof. intros. unfold dom5.setAttribute. by rewrite node_alter_ne. Qed.

Lemma removeAttribute_frame e name h j :
  j <> e -> dom5.removeAttribute e name h !!! j = h !!! j.
Proof. intros. unfold dom5.removeAttribute. by rewrite node_alter_ne. Qed.

Lemma length_removeAttribute e name h :
  length (dom5.removeAttribute e name h) = length h.
Proof. apply length_alter. Qed.

Lemma setTextContent_frame s v h j :
  j <> s -> j < length h -> dom5.setTextContent s v h !!! j = h !!! j.
Proof.
  intros Hne Hj. unfold dom5.setTextContent.
  destruct (dom5.isCommentNode (h !!! s)); [by rewrite node_alter_ne|].
  destruct (dom5.isTextNode (h !!! s)); [by rewrite node_alter_ne|].
  simpl. rewrite node_alter_ne by done. by apply node_alloc_old.
Qed.

Lemma length_setTextContent s v h :
  length h <= length (dom5.setTextContent s v h).
Proof.
  unfold dom5.setTextContent.
  destruct (dom5.isCommentNode (h !!! s)); [by rewrite length_alter|].
  destruct (dom5.isTextNode (h !!! s)); [by rewrite length_alter|].
  simpl. rewrite length_alter, length_app. lia.
Qed.

Lemma setTextContent_element s v h :
  s < length h -> kind (h !!! s) = KElement ->
  let h' := dom5.setTextContent s v h in
  length h' = S (length h) /\
  h' !!! s = set_childNodes [length h] (h !!! s) /\
  h' !!! length h = mkNode KText "" [] v (Some s) [] None.
Proof.
  intros Hs Hk h'. subst h'. unfold dom5.setTextContent.
  unfold dom5.isCommentNode, dom5.isTextNode. rewrite Hk. simpl.
  split; [|split].
  - rewrite length_alter, length_app. simpl. lia.
  - rewrite node_alter_eq by (rewrite length_app; simpl; lia).
    by rewrite node_alloc_old.
  - rewrite node_alter_ne by lia. apply node_alloc_new.
Qed.

(** ** Fake external scripts *)

Lemma fixFakeExternalScripts_eq M doc h :
  fixFakeExternalScripts M doc h =
  (scripts ← dom5.queryAll h doc (matchers.JS_INLINE M);
   Ok (foldl fix_fake_script h scripts)).
Proof. reflexivity. Qed.

Lemma fix_fake_script_marked h s src :
  s < length h -> kind (h !!! s) = KElement ->
  inlined (h !!! s) = Some src -> truthy_string src = true ->
  let h' := fix_fake_script h s in
  length h' = S (length h) /\
  (forall j, j <> s -> j < length h -> h' !!! j = h !!! j) /\
  kind (h' !!! s) = kind (h !!! s) /\
  tagName (h' !!! s) = tagName (h !!! s) /\
  inlined (h' !!! s) = inlined (h !!! s) /\
  parentNode (h' !!! s) = parentNode (h !!! s) /\
  dom5.getAttribute (h' !!! s) "src" = Some src /\
  childNodes (h' !!! s) = [length h] /\
  h' !!! length h = mkNode KText "" [] "" (Some s) [] None.
Proof.
  intros Hs Hk Hin Ht h'. subst h'. unfold fix_fake_script. rewrite Hin, Ht.
  set (h1 := dom5.setAttribute s "src" src h).
  assert (Hlen1 : length h1 = length h) by apply length_setAttribute.
  assert (Hget : dom5.getAttribute (h1 !!! s) "src" = Some src)
    by by apply getAttribute_setAttribute.
  assert (Hs1 : exists a, h1 !!! s = set_attrs a (h !!! s)).
  { subst h1. unfold dom5.setAttribute. rewrite node_alter_eq by done.
    destruct (dom5.getAttributeIndex _ _); eauto. }
  destruct Hs1 as [a Hs1].
  assert (Hk1 : kind (h1 !!! s) = KElement) by by rewrite Hs1.
  destruct (setTextContent_element s "" h1) as (Hlen2 & Hs2 & Ht2);
    [lia|done|].
  rewrite Hlen1 in *.
  split; [done|]. split.
  { intros j Hj Hlt. rewrite setTextContent_frame by (done || lia).
    by apply setAttribute_frame. }
  rewrite Hs2. simpl. rewrite Hs1. simpl. repeat split; try done.
  unfold dom5.getAttribute in *. simpl. by rewrite Hs1 in Hget.
Qed.

Lemma fake_scripts_fixed_init h : fake_scripts_fixed h [] h.
Proof.
  split; [done|]. split; [done|]. split; [done|].
  intros s src Hs. inversion Hs.
Qed.

Lemma fake_scripts_fixed_step h seen hi s :
  fake_scripts_fixed h seen hi ->
  s < length h -> kind (h !!! s) = KElement ->
  fake_scripts_fixed h (s :: seen) (fix_fake_script hi s).
Proof.
  intros (Hlen & Hsame & Hkeep & Hfixed) Hs Hk.
  destruct (Hkeep s Hs) as (Hks & _ & Hins & _).
  destruct (truthy (inlined (h !!! s))) eqn:Hmark.
  - (* a marked script *)
    destruct (inlined (h !!! s)) as [src|] eqn:Hin; [|done].
    simpl in Hmark.
    destruct (fix_fake_script_marked hi s src) as
      (Hlen' & Hframe & Hk' & Htag' & Hin' & Hpa' & Hget & Hch & Ht);
      [lia|congruence|congruence|done|].
    split; [lia|]. split; [|split].
    + intros j Hj Hcase.
      assert (Hne : j <> s).
      { intros ->. destruct Hcase as [Hnot|Hun].
        - apply Hnot. by left.
        - rewrite Hin in Hun. simpl in Hun. congruence. }
      rewrite Hframe by (done || lia). apply Hsame; [done|].
      destruct Hcase as [Hnot|Hun]; [left|by right].
      intros Hd. apply Hnot. by right.
    + intros j Hj. destruct (decide (j = s)) as [->|Hne].
      * destruct (Hkeep s Hs) as (? & ? & ? & ?).
        repeat split; congruence.
      * rewrite Hframe by (done || lia). by apply Hkeep.
    + intros s' src' Hs' Hlt' Hk'' Hin'' Ht'.
      destruct (decide (s' = s)) as [->|Hne].
      * assert (src' = src) as -> by congruence.
        split; [done|]. exists (length hi). rewrite Hch. repeat split; try lia.
        done.
      * apply elem_of_cons in Hs' as [?|Hs']; [done|].
        destruct (Hfixed s' src' Hs' Hlt' Hk'' Hin'' Ht') as
          (Hget' & t & Hcht & Hge & Hlt & Hnode).
        rewrite Hframe by (done || lia). split; [done|].
        exists t. rewrite Hframe by (lia || done). repeat split; try done; lia.
  - (* nothing to do *)
    assert (Hid : fix_fake_script hi s = hi).
    { unfold fix_fake_script. rewrite Hins.
      unfold truthy in Hmark. destruct (inlined (h !!! s)); [|done].
      by rewrite Hmark. }
    rewrite Hid. split; [done|]. split; [|split; [done|]].
    + intros j Hj Hcase. apply Hsame; [done|].
      destruct Hcase as [Hnot|Hun]; [|by right].
      destruct (decide (j = s)) as [->|Hne]; [by right|].
      left. intros Hd. apply Hnot. by right.
    + intros s' src' Hs' Hlt' Hk'' Hin'' Ht'.
      apply elem_of_cons in Hs' as [->|Hs']; [|by apply Hfixed].
      rewrite Hin'' in Hmark. simpl in Hmark. congruence.
Qed.

Lemma fake_scripts_fixed_fold h ss : forall seen hi,
  fake_scripts_fixed h seen hi ->
  (forall s, s ∈ ss -> s < length h /\ kind (h !!! s) = KElement) ->
  fake_scripts_fixed h (reverse ss ++ seen) (foldl fix_fake_script hi ss).
Proof.
  induction ss as [|s ss IH]; intros seen hi Hinv Hss; simpl; [done|].
  rewrite reverse_cons, <- app_assoc. simpl. apply IH.
  - destruct (Hss s) as [Hs Hk]; [by left|]. by apply fake_scripts_fixed_step.
  - intros; apply Hss; by right.
Qed.

(** X15. [fixFakeExternalScripts] gives a script that the analyzer has
    inlined its external form back. On a document that can be walked
    through, every inline script element that carries a non-empty
    [__hydrolysisInlined] mark ends up with that mark as its [src]
    attribute and with one empty text node as its only child; the nodes
    that are not such scripts are left exactly as they were. *)
Theorem fixFakeExternalScripts_restores_src M h doc l :
  descendants h doc = Ok l ->
  exists h',
    fixFakeExternalScripts M doc h = Ok h' /\
    length h <= length h' /\
    (forall j, j < length h ->
       j ∉ l \/
       dom5.AND dom5.isElement (matchers.JS_INLINE M) (h !!! j) = false \/
       truthy (inlined (h !!! j)) = false ->
       h' !!! j = h !!! j) /\
    (forall s src, s ∈ l ->
       dom5.isElement (h !!! s) = true ->
       matchers.JS_INLINE M (h !!! s) = true ->
       inlined (h !!! s) = Some src -> truthy_string src = true ->
       dom5.getAttribute (h' !!! s) "src" = Some src /\
       exists t, childNodes (h' !!! s) = [t] /\ length h <= t /\
         h' !!! t = mkNode KText "" [] "" (Some s) [] None).
Proof.
  intros Hl. rewrite fixFakeExternalScripts_eq.
  rewrite (queryAll_of_descendants _ _ _ _ Hl), bind_Ok.
  set (scripts := filter (fun x => dom5.AND dom5.isElement
                                     (matchers.JS_INLINE M) (h !!! x) = true) l).
  destruct (fake_scripts_fixed_fold h scripts [] h (fake_scripts_fixed_init h))
    as (Hlen & Hsame & _ & Hfixed).
  { intros s [Hs _]%list_elem_of_filter.
    apply andb_true_iff in Hs as [He _].
    split; [by apply element_in_range|].
    unfold dom5.isElement in He. by apply bool_decide_eq_true in He. }
  eexists. split; [reflexivity|]. split; [exact Hlen|]. split.
  - intros j Hj Hcase. apply Hsame; [done|].
    destruct Hcase as [Hnot|[Hno|Hun]]; [left|left|by right].
    + rewrite app_nil_r, elem_of_reverse. intros Hin.
      by apply list_elem_of_filter in Hin as [_ ?].
    + rewrite app_nil_r, elem_of_reverse. intros Hin.
      apply list_elem_of_filter in Hin as [? _]. congruence.
  - intros s src Hs He Hm Hin Ht.
    destruct (Hfixed s src) as (Hget & t & Hch & Hge & _ & Hnode);
      try done.
    + rewrite app_nil_r, elem_of_reverse. apply list_elem_of_filter.
      split; [|done]. unfold dom5.AND. by rewrite He, Hm.
    + by apply element_in_range.
    + unfold dom5.isElement in He. by apply bool_decide_eq_true in He.
    + split; [done|]. by exists t.
Qed.

Lemma fixFakeExternalScripts_restores_src_witness :
  exists h',
    fixFakeExternalScripts Sample.M 0 Sample2.h_fake = Ok h' /\
    dom5.getAttribute (h' !!! 4) "src" = Some "app.js" /\
    (exists t, childNodes (h' !!! 4) = [t] /\
       h' !!! t = mkNode KText "" [] "" (Some 4) [] None) /\
    h' !!! 6 = Sample2.h_fake !!! 6.
Proof.
  destruct (fixFakeExternalScripts_restores_src Sample.M Sample2.h_fake 0
              [0; 1; 2; 4; 5; 6; 7; 3])
    as (h' & Hrun & _ & Hsame & Hfixed).
  - reflexivity.
  - exists h'. split; [exact Hrun|].
    destruct (Hfixed 4 "app.js") as (Hget & t & Hch & _ & Hnode);
      try reflexivity.
    + simpl. do 3 right. left.
    + split; [exact Hget|]. split; [by exists t|].
      apply Hsame; [simpl; lia|]. right. right. reflexivity.
Defined.

Section InlineScriptsMore.

Variable search : string -> string -> Z.
Variable K : constants.t.
Variable M : matchers.t.
Variable loader : Loader.t.
Variable url_resolve : string -> string -> string.
Variable encodeString : string -> string.
Variable this : Vulcan.t.

Lemma script_request_task h href s s' uri :
  script_request search K url_resolve this h href s = Ok (Some (s', uri)) ->
  s' = s /\
  exists src, dom5.getAttribute (h !!! s) "src" = Some src /\
    isExcludedHref search K this (Some src) = Ok false.
Proof.
  unfold script_request.
  destruct (dom5.getAttribute (h !!! s) "src") as [src|]; [|done].
  destruct href as [hr|]; [|done].
  destruct (isExcludedHref search K this (Some src)) as [[]|] eqn:Hex;
    simpl; [done| |done].
  intros [= <- <-]. split; [done|]. by exists src.
Qed.

Lemma map_requests_task h href scripts : forall tasks s' uri,
  map_requests search K url_resolve this h href scripts = Ok tasks ->
  Some (s', uri) ∈ tasks ->
  s' ∈ scripts /\
  exists src, dom5.getAttribute (h !!! s') "src" = Some src /\
    isExcludedHref search K this (Some src) = Ok false.
Proof.
  induction scripts as [|s scripts IH]; intros tasks s' uri; simpl.
  - intros [= <-] Hin. inversion Hin.
  - destruct (script_request search K url_resolve this h href s)
      as [t|] eqn:Ht; simpl; [|done].
    destruct (map_requests search K url_resolve this h href scripts)
      as [ts|]; simpl; [|done].
    intros [= <-] [<-|Hin]%elem_of_cons.
    + apply script_request_task in Ht as [-> Hsrc]. split; [by left|done].
    + destruct (IH ts s' uri eq_refl Hin) as [? ?]. split; [by right|done].
Qed.

Lemma script_loaded_frame s content h j :
  j <> s -> j < length h ->
  script_loaded encodeString s content h !!! j = h !!! j.
Proof.
  intros Hne Hj. unfold script_loaded.
  destruct content as [c|]; [|done]. destruct (truthy_string c); [|done].
  rewrite setTextContent_frame; [|done|by rewrite length_removeAttribute].
  by apply removeAttribute_frame.
Qed.

Lemma length_script_loaded s content h :
  length h <= length (script_loaded encodeString s content h).
Proof.
  unfold script_loaded.
  destruct content as [c|]; [|done]. destruct (truthy_string c); [|done].
  etrans; [|apply length_setTextContent].
  by rewrite length_removeAttribute.
Qed.

Lemma settle_all_frame tasks : forall h h',
  settle_all loader encodeString tasks h = Ok h' ->
  length h <= length h' /\
  forall j, j < length h -> (forall uri, Some (j, uri) ∉ tasks) ->
    h' !!! j = h !!! j.
Proof.
  induction tasks as [|t tasks IH]; intros h h'; simpl.
  - intros [= <-]. done.
  - destruct (script_settle loader encodeString t h) as [h1|] eqn:H1;
      simpl; [|done].
    intros Hrest. destruct (IH h1 h' Hrest) as [Hlen Hframe].
    assert (Hstep : length h <= length h1 /\
              forall j, j < length h -> (forall uri, t <> Some (j, uri)) ->
                h1 !!! j = h !!! j).
    { unfold script_settle in H1. destruct t as [[s uri]|].
      - destruct (Loader.request loader uri) as [content|]; [|done].
        simpl in H1. injection H1 as <-.
        split; [apply length_script_loaded|].
        intros j Hj Hne. apply script_loaded_frame; [|done].
        intros ->. by apply (Hne uri).
      - injection H1 as <-. done. }
    destruct Hstep as [Hlen1 Hframe1]. split; [lia|].
    intros j Hj Hnot. rewrite Hframe.
    + apply Hframe1; [done|]. intros uri ->. apply (Hnot uri). by left.
    + lia.
    + intros uri Hin. apply (Hnot uri). by right.
Qed.

(** X16. [inlineScripts] changes nothing but the scripts it inlines. When
    it succeeds, every node of the document's heap is as it was, unless
    it is an element under the document that matches [JS_SRC] and whose
    [src] is not excluded; nodes are only added, never dropped. In
    particular a script whose [src] is excluded keeps its [src]
    attribute and its content. *)
Theorem inlineScripts_touches_only_the_scripts_it_loads doc href h h' :
  inlineScripts search K M loader url_resolve encodeString this doc href h
  = Ok h' ->
  length h <= length h' /\
  forall j, j < length h ->
    ~ reach h doc j \/
    dom5.AND dom5.isElement (matchers.JS_SRC M) (h !!! j) = false \/
    (exists src, dom5.getAttribute (h !!! j) "src" = Some src /\
       isExcludedHref search K this (Some src) = Ok true) ->
    h' !!! j = h !!! j.
Proof.
  unfold inlineScripts.
  destruct (dom5.queryAll h doc (matchers.JS_SRC M)) as [scripts|] eqn:Hq;
    simpl; [|done].
  destruct (map_requests search K url_resolve this h href scripts)
    as [tasks|] eqn:Hmap; simpl; [|done].
  intros Hsettle. destruct (settle_all_frame tasks h h' Hsettle)
    as [Hlen Hframe].
  split; [exact Hlen|]. intros j Hj Hcase. apply Hframe; [done|].
  intros uri Hin.
  destruct (map_requests_task h href scripts tasks j uri Hmap Hin)
    as (Hjs & src & Hsrc & Hex).
  apply (nodeWalkAll_spec _ _ _ _ _ Hq) in Hjs as [Hreach Hmatch].
  destruct Hcase as [Hnot|[Hno|(src' & Hsrc' & Hex')]]; congruence.
Qed.

Lemma map_requests_defined h hr scripts :
  (forall s, s ∈ scripts -> is_Some (dom5.getAttribute (h !!! s) "src")) ->
  exists tasks,
    map_requests search K url_resolve this h (Some hr) scripts = Ok tasks /\
    forall s src, s ∈ scripts ->
      dom5.getAttribute (h !!! s) "src" = Some src ->
      isExcludedHref search K this (Some src) = Ok false ->
      Some (s, url_resolve hr src) ∈ tasks.
Proof.
  induction scripts as [|s scripts IH]; intros Hsrc; simpl.
  - exists []. split; [done|]. intros s src Hs. inversion Hs.
  - destruct (Hsrc s) as [src Hs]; [by left|].
    destruct IH as (ts & Hts & Hin); [intros; apply Hsrc; by right|].
    unfold script_request. rewrite Hs.
    destruct (isExcludedHref_string search K this src) as [b Hb].
    rewrite Hb. simpl. rewrite Hts. simpl. eexists. split; [done|].
    intros s' src' [->|Hs']%elem_of_cons Hsrc' Hex'.
    + assert (src' = src) as -> by congruence.
      assert (b = false) as -> by congruence. by left.
    + right. by apply Hin.
Qed.

Lemma settle_all_rejected tasks uri e : forall h,
  Loader.request loader uri = Throw e ->
  (forall uri', uri' <> uri -> exists c, Loader.request loader uri' = Ok c) ->
  (exists s, Some (s, uri) ∈ tasks) ->
  settle_all loader encodeString tasks h = Throw e.
Proof.
  induction tasks as [|t tasks IH]; intros h Hfail Hothers [s Hin].
  - inversion Hin.
  - simpl. destruct t as [[s' uri']|]; simpl.
    + destruct (decide (uri' = uri)) as [->|Hne].
      * by rewrite Hfail.
      * destruct (Hothers uri' Hne) as [c ->]. simpl.
        apply IH; [done..|]. exists s.
        apply elem_of_cons in Hin as [[=]|Hin]; [congruence|done].
    + apply IH; [done..|]. exists s.
      apply elem_of_cons in Hin as [[=]|Hin]; done.
Qed.

(** X17. One script that cannot be loaded makes [inlineScripts] fail.
    When the document has a script whose [src] is not excluded and the
    loader rejects the request for it, while it answers every other
    request, the promise of [inlineScripts] is rejected with the error of
    the loader, whatever the other scripts are. *)
Theorem inlineScripts_fails_with_the_loader doc hr h scripts s src e :
  dom5.queryAll h doc (matchers.JS_SRC M) = Ok scripts ->
  (forall s', s' ∈ scripts ->
     is_Some (dom5.getAttribute (h !!! s') "src")) ->
  s ∈ scripts ->
  dom5.getAttribute (h !!! s) "src" = Some src ->
  isExcludedHref search K this (Some src) = Ok false ->
  Loader.request loader (url_resolve hr src) = Throw e ->
  (forall uri, uri <> url_resolve hr src ->
     exists c, Loader.request loader uri = Ok c) ->
  inlineScripts search K M loader url_resolve encodeString this doc
    (Some hr) h = Throw e.
Proof.
  intros Hq Hsrcs Hs Hsrc Hex Hfail Hothers. unfold inlineScripts.
  rewrite Hq, bind_Ok.
  destruct (map_requests_defined h hr scripts Hsrcs) as (tasks & -> & Hin).
  rewrite bind_Ok.
  apply (settle_all_rejected tasks (url_resolve hr src) e h Hfail Hothers).
  exists s. by apply Hin.
Qed.

End InlineScriptsMore.

Lemma inlineScripts_touches_only_the_scripts_it_loads_witness :
  exists h',
    inlineScripts Sample.search Sample.K Sample.M Sample2.loader
      Sample.url_resolve Sample.encodeString Sample.this 0
      (Some "index.html") Sample2.h_scripts_ok = Ok h' /\
    h' !!! 5 = Sample2.h_scripts_ok !!! 5 /\
    h' !!! 3 = Sample2.h_scripts_ok !!! 3.
Proof.
  destruct (inlineScripts Sample.search Sample.K Sample.M Sample2.loader
              Sample.url_resolve Sample.encodeString Sample.this 0
              (Some "index.html") Sample2.h_scripts_ok) as [h'|err] eqn:Hrun;
    [|vm_compute in Hrun; discriminate].
  exists h'. split; [reflexivity|].
  destruct (inlineScripts_touches_only_the_scripts_it_loads Sample.search
              Sample.K Sample.M Sample2.loader Sample.url_resolve
              Sample.encodeString Sample.this 0 (Some "index.html")
              Sample2.h_scripts_ok h' Hrun) as [_ Hframe].
  split.
  - apply Hframe; [simpl; lia|]. right. right.
    exists "vendor/v.js". split; reflexivity.
  - apply Hframe; [simpl; lia|]. right. left. reflexivity.
Defined.

Lemma inlineScripts_fails_with_the_loader_witness :
  inlineScripts Sample.search Sample.K Sample.M Sample2.loader
    Sample.url_resolve Sample.encodeString Sample.this 0
    (Some "index.html") Sample2.h_scripts = Throw (Error "not found").
Proof.
  apply (inlineScripts_fails_with_the_loader Sample.search Sample.K Sample.M
           Sample2.loader Sample.url_resolve Sample.encodeString Sample.this
           0 "index.html" Sample2.h_scripts [4; 5; 6] 6 "gone.js").
  - reflexivity.
  - intros s' Hs'. apply list_elem_of_In in Hs'. simpl in Hs'.
    repeat (destruct Hs' as [<-|Hs']; [eexists; reflexivity|]). destruct Hs'.
  - simpl. do 2 right. left.
  - reflexivity.
  - reflexivity.
  - reflexivity.
  - intros uri Hne. exists (Some "console.log(1)"). simpl.
    destruct (String.eqb_spec uri "gone.js") as [->|_]; [|reflexivity].
    exfalso. apply Hne. reflexivity.
Defined.

(** ** An import without import site *)

Lemma ancestorWalk_None h target : ancestorWalk h None target = Ok false.
Proof. unfold ancestorWalk. by destruct (length h). Qed.

Lemma isTemplated_None h : isTemplated h None = Ok false.
Proof. unfold isTemplated. by destruct (length h). Qed.

Lemma place_import_None isMainDoc moveTarget frag h :
  place_import isMainDoc moveTarget None frag h = Throw TypeError.
Proof.
  unfold place_import. destruct isMainDoc; [|done].
  rewrite ancestorWalk_None, bind_Ok.
  change (true && negb false) with true. cbv iota.
  unfold hide. by rewrite new_hidden_div_eq.
Qed.

Lemma merge_import_None M pathResolver flatten_rec tree_href isMainDoc
  moveTarget im h :
  exists e, merge_import M pathResolver flatten_rec tree_href isMainDoc
              moveTarget im None h = Throw e.
Proof.
  unfold merge_import. simpl.
  destruct (flatten_rec im _) as [[importDoc h2]|e]; simpl; [|eauto].
  destruct (dom5.query _ importDoc (matchers.head M)) as [[ih|]|e]; simpl;
    [| |eauto].
  - destruct (dom5.query _ importDoc (matchers.body M)) as [[ib|]|e]; simpl;
      [|eauto|eauto].
    destruct (parentNode _); [|eauto].
    rewrite place_import_None. eauto.
  - destruct (dom5.query _ importDoc (matchers.body M)) as [[ib|]|e]; simpl;
      eauto.
Qed.

Lemma flatten_import_without_site search K M pathResolver this flatten_rec
  tree_href isMainDoc moveTarget im h h' :
  flatten_import search K M pathResolver this flatten_rec tree_href
    isMainDoc moveTarget im None h = Ok h' ->
  isDuplicateImport im = false /\
  isStrippedImport search this im = Ok false /\
  isExcludedImport search K this im = Ok true /\ h' = h.
Proof.
  unfold flatten_import.
  destruct (isDuplicateImport im); simpl; [done|].
  destruct (isStrippedImport search this im) as [[]|]; simpl; [done| |done].
  destruct (isExcludedImport search K this im) as [[]|]; simpl; [| |done].
  - by intros [= <-].
  - rewrite isTemplated_None, bind_Ok.
    destruct (merge_import_None M pathResolver flatten_rec tree_href
                isMainDoc moveTarget im h) as [e ->]. done.
Qed.

Section ImportSites.

Variable search : string -> string -> Z.
Variable K : constants.t.
Variable M : matchers.t.
Variable pathResolver : PathResolver.t.
Variable this : Vulcan.t.

(** X18. The import loop of [flatten] pairs [imports[i]] with
    [importNodes[i]] and needs the import site of every import it
    touches. When the loop succeeds, an import whose position holds no
    import site ([importNodes] is too short) can only be one that is
    neither a duplicate nor stripped and that is excluded, the one kind
    of import the loop passes over without looking at its site; for any
    other import the loop throws. *)
Theorem import_loop_needs_the_import_sites flatten_rec tree_href
  isMainDoc moveTarget importNodes ims : forall i h h',
  import_loop
    (flatten_import search K M pathResolver this flatten_rec tree_href
       isMainDoc moveTarget)
    importNodes ims i h = Ok h' ->
  forall k im, ims !! k = Some im -> importNodes !! (i + k) = None ->
    isDuplicateImport im = false /\
    isStrippedImport search this im = Ok false /\
    isExcludedImport search K this im = Ok true.
Proof.
  induction ims as [|im0 ims IH]; intros i h h' Hrun k im Hk Hsite.
  - done.
  - simpl in Hrun.
    destruct (flatten_import search K M pathResolver this flatten_rec
                tree_href isMainDoc moveTarget im0 (importNodes !! i) h)
      as [h1|e] eqn:Hstep; simpl in Hrun; [|done].
    destruct k as [|k]; simpl in Hk.
    + injection Hk as ->. rewrite Nat.add_0_r in Hsite.
      rewrite Hsite in Hstep.
      by destruct (flatten_import_without_site _ _ _ _ _ _ _ _ _ _ _ _ Hstep)
        as (? & ? & ? & _).
    + apply (IH (S i) h1 h' Hrun k im Hk).
      by replace (S i + k) with (i + S k) by lia.
Qed.

End ImportSites.

Lemma import_loop_needs_the_import_sites_witness :
  isDuplicateImport Sample.vend = false /\
  isStrippedImport Sample.search Sample.this Sample.vend = Ok false /\
  isExcludedImport Sample.search Sample.K Sample.this Sample.vend = Ok true.
Proof.
  apply (import_loop_needs_the_import_sites Sample.search Sample.K Sample.M
           Sample.pathResolver Sample.this (fun _ _ => Throw TypeError)
           (Some "index.html") true 15 [6] [Sample.dup; Sample.vend] 0
           Sample.h0
           (dom5.remove 6 (dom5.remove 13 Sample.h0)) eq_refl 1 Sample.vend);
    reflexivity.
Defined.

(** ** The merged fragment *)

Lemma after_blank_payload h h' post :
  (forall j, payload (h' !!! j) = payload (h !!! j)) ->
  after_blank h' post = after_blank h post.
Proof.
  intros Hpay. unfold after_blank, trailing_blank.
  destruct post as [|y post']; [done|].
  by rewrite (isBlankTextNode_payload h h' y (Hpay y)).
Qed.

Section FillFragment.
Variables (h : Heap) (frag : nat) (lic hc bc : list nat).
Hypothesis Hfrag : frag < length h.

Let h6 := fill_fragment frag lic hc bc h.

Lemma length_fill_fragment : length h6 = length h.
Proof.
  subst h6. unfold fill_fragment.
  by rewrite length_alter, !length_set_parents.
Qed.

Lemma payload_fill_fragment j : payload (h6 !!! j) = payload (h !!! j).
Proof.
  subst h6. unfold fill_fragment.
  rewrite (frame_alter payload) by done.
  by rewrite !(frame_set_parents payload).
Qed.

Lemma children_fill_fragment j :
  childNodes (h6 !!! j) =
  if decide (j = frag) then childNodes (h !!! frag) ++ lic ++ hc ++ bc
  else childNodes (h !!! j).
Proof.
  subst h6. unfold fill_fragment. rewrite node_alter.
  rewrite !length_set_parents.
  destruct (decide (j = frag)) as [->|Hne].
  - rewrite decide_True by done. simpl.
    by rewrite !(frame_set_parents childNodes).
  - rewrite decide_False by (intros [? _]; done).
    by rewrite !(frame_set_parents childNodes).
Qed.

Lemma parent_fill_fragment j :
  parentNode (h6 !!! j) =
  if decide (j ∈ hc ++ bc /\ j < length h) then Some frag
  else parentNode (h !!! j).
Proof.
  subst h6. unfold fill_fragment.
  rewrite (frame_alter parentNode) by done.
  rewrite !parent_set_parents, length_set_parents.
  destruct (decide (j ∈ bc /\ j < length h)) as [[Hb Hj]|Hb].
  - rewrite decide_True; [done|]. split; [|done]. apply elem_of_app. by right.
  - destruct (decide (j ∈ hc /\ j < length h)) as [[Hc Hj]|Hc].
    + rewrite decide_True; [done|]. split; [|done]. apply elem_of_app.
      by left.
    + rewrite decide_False; [done|].
      intros [[?|?]%elem_of_app ?]; [apply Hc|apply Hb]; done.
Qed.

End FillFragment.

Section MergeOrder.

Variable search : string -> string -> Z.
Variable K : constants.t.
Variable M : matchers.t.
Variable pathResolver : PathResolver.t.
Variable this : Vulcan.t.

(** X19. The content of an import takes the place of its import site in
    a fixed order: the license comments found among the children of the
    imported document and of its root element, then the children of its
    [<head>], then the children of its [<body>]. Once the import is
    flattened and its paths are resolved, the rest of the iteration is
    [place_import] on the heap in which the fragment holds these nodes.
    In an imported document, and in the main document for a site that is
    under the relocation target already, the nodes stand where the
    import site stood (the blank text after it is dropped) and get the
    parent of the site as their parent. In the main document otherwise,
    they are the children of the one hidden container that stands
    there. *)
Theorem import_content_replaces_its_site flatten_rec tree_href isMainDoc
  moveTarget im node h importDoc h2 ih ib ihtml p pre post :
  let frag := length h in
  flatten_rec im (h ++ [dom5.newDocumentFragment]) = Ok (importDoc, h2) ->
  let h3 := PathResolver.resolvePaths pathResolver importDoc (href im)
              tree_href h2 in
  dom5.query h3 importDoc (matchers.head M) = Ok (Some ih) ->
  dom5.query h3 importDoc (matchers.body M) = Ok (Some ib) ->
  parentNode (h3 !!! ih) = Some ihtml ->
  frag < length h3 -> h3 !!! frag = dom5.newDocumentFragment ->
  let hc := childNodes (h3 !!! ih) in
  let bc := childNodes (h3 !!! ib) in
  let lic := filter (fun n => isLicenseComment h3 n = true)
               (childNodes (h3 !!! importDoc) ++ childNodes (h3 !!! ihtml)) in
  let merged := lic ++ hc ++ bc in
  (forall c, c ∈ merged -> c < length h3) ->
  parentNode (h3 !!! node) = Some p ->
  childNodes (h3 !!! p) = pre ++ node :: post ->
  wf_children h3 p ->
  dom5.isDocumentFragment (h3 !!! node) = false ->
  (forall c, c ∈ pre ++ node :: post -> c ∉ hc ++ bc) ->
  let h6 := fill_fragment frag lic hc bc h3 in
  let run := merge_import M pathResolver flatten_rec tree_href isMainDoc
               moveTarget im (Some node) h in
  run = place_import isMainDoc moveTarget (Some node) frag h6 /\
  (isMainDoc = false \/ ancestorWalk h6 (Some node) moveTarget = Ok true ->
   exists h',
     run = Ok h' /\ length h' = length h3 /\
     (forall j, payload (h' !!! j) = payload (h3 !!! j)) /\
     childNodes (h' !!! p) = pre ++ merged ++ after_blank h3 post /\
     parentNode (h' !!! node) = None /\
     (forall c, c ∈ merged -> c <> node -> parentNode (h' !!! c) = Some p)) /\
  (isMainDoc = true ->
   ancestorWalk h6 (Some node) moveTarget = Ok false ->
   exists h',
     run = Ok h' /\ length h' = S (length h3) /\
     (forall j, j < length h3 -> payload (h' !!! j) = payload (h3 !!! j)) /\
     payload (h' !!! length h3) = payload hidden_div /\
     childNodes (h' !!! length h3) = merged /\
     childNodes (h' !!! p) = pre ++ length h3 :: after_blank h3 post /\
     parentNode (h' !!! node) = None /\
     (forall c, c ∈ merged -> c <> node ->
        parentNode (h' !!! c) = Some (length h3))).
Proof.
  intros frag Hrec h3 Hhead Hbody Hhtml Hfrag Hempty hc bc lic merged
    Hrange Hparent Hsplit Hwf Hkind Hdisj h6 run.
  assert (Hrun : run = place_import isMainDoc moveTarget (Some node) frag h6).
  { subst run. unfold merge_import. simpl.
    fold frag. rewrite Hrec. simpl. fold h3.
    rewrite Hhead, Hbody. simpl. rewrite Hhtml. reflexivity. }
  assert (Hlen6 : length h6 = length h3) by by apply length_fill_fragment.
  assert (Hpay6 : forall j, payload (h6 !!! j) = payload (h3 !!! j))
    by (intros; apply payload_fill_fragment).
  assert (Hch6 : forall j, childNodes (h6 !!! j) =
            if decide (j = frag) then merged else childNodes (h3 !!! j)).
  { intros j. subst h6. rewrite children_fill_fragment by done.
    by rewrite Hempty. }
  assert (Hpa6 : forall j, parentNode (h6 !!! j) =
            if decide (j ∈ hc ++ bc /\ j < length h3) then Some frag
            else parentNode (h3 !!! j))
    by (intros; by apply parent_fill_fragment).
  assert (Hp_ne : frag <> p).
  { intros <-. rewrite Hempty in Hsplit. by destruct pre. }
  assert (Hparent6 : parentNode (h6 !!! node) = Some p).
  { rewrite Hpa6, decide_False; [done|]. intros [Hin _].
    apply (Hdisj node); [|done]. apply elem_of_app. right. left. }
  assert (Hsplit6 : childNodes (h6 !!! p) = pre ++ node :: post)
    by by rewrite Hch6, decide_False.
  assert (Hwf6 : wf_children h6 p).
  { split; rewrite Hsplit6.
    - rewrite <- Hsplit. apply Hwf.
    - intros c Hc. rewrite Hpa6, decide_False.
      + apply Hwf. by rewrite Hsplit.
      + intros [Hin _]. by apply (Hdisj c). }
  assert (Hkind6 : dom5.isDocumentFragment (h6 !!! node) = false)
    by by rewrite (payload_isDocumentFragment _ _ (Hpay6 node)).
  assert (Hfk6 : dom5.isDocumentFragment (h6 !!! frag) = true).
  { rewrite (payload_isDocumentFragment _ _ (Hpay6 frag)).
    by rewrite Hempty. }
  assert (Hcs6 : forall c, c ∈ childNodes (h6 !!! frag) -> c < length h6).
  { intros c. rewrite Hch6, decide_True by done. rewrite Hlen6.
    apply Hrange. }
  assert (Hmerged : childNodes (h6 !!! frag) = merged)
    by by rewrite Hch6, decide_True.
  assert (Hblank : after_blank h6 post = after_blank h3 post)
    by by apply after_blank_payload.
  split; [exact Hrun|]. split.
  - intros Hcase.
    destruct (place_import_direct h6 node p frag moveTarget pre post
                Hparent6 Hsplit6 Hwf6 Hfk6) with (isMainDoc := isMainDoc)
      as (h' & Hok & Hlen & Hpay & Hch & Hpa & Hpar);
      [lia|done|done|done|].
    exists h'. rewrite Hrun. split; [done|]. split; [lia|].
    split; [intros; by rewrite Hpay|].
    rewrite Hmerged, Hblank in Hch. split; [done|]. split; [done|].
    intros c Hc. apply Hpar. by rewrite Hmerged.
  - intros -> Hwalk.
    destruct (place_import_hidden h6 node p frag moveTarget pre post
                Hparent6 Hsplit6 Hwf6 Hkind6 Hfk6)
      as (h' & Hok & Hlen & Hpay & Hnew & _ & Hchn & Hch & Hpa & Hpar);
      [lia|done|done|done|].
    rewrite Hlen6, Hmerged in *. rewrite Hblank in Hch.
    exists h'. rewrite Hrun. split; [done|]. split; [done|].
    split; [intros j Hj; rewrite Hpay by done; apply Hpay6|].
    repeat (split; [done|]). done.
Qed.

End MergeOrder.

Lemma import_content_replaces_its_site_witness :
  exists h',
    merge_import Sample.M Sample.pathResolver
      (fun t => flatten Sample.search Sample.K Sample.M Sample.pathResolver
                  Sample.this t false)
      (Some "index.html") true 2 Sample.ta (Some 6) Sample2.h_lic_import
    = Ok h' /\
    childNodes (h' !!! 3) = [19; 14] /\
    childNodes (h' !!! 19) = [15; 16; 11; 12] /\
    payload (h' !!! 19) = payload hidden_div.
Proof.
  destruct (import_content_replaces_its_site Sample.M Sample.pathResolver
              (fun t => flatten Sample.search Sample.K Sample.M
                          Sample.pathResolver Sample.this t false)
              (Some "index.html") true 2 Sample.ta 6 Sample2.h_lic_import
              7 Sample2.h_lic_flat 9 10 8 3 [] [13; 14])
    as (_ & _ & Hhidden).
  - vm_compute. reflexivity.
  - reflexivity.
  - reflexivity.
  - reflexivity.
  - simpl. lia.
  - reflexivity.
  - intros c Hc. apply list_elem_of_In in Hc. simpl in Hc.
    repeat (destruct Hc as [<-|Hc]; [simpl; lia|]). destruct Hc.
  - reflexivity.
  - reflexivity.
  - apply wf_children_b_sound. reflexivity.
  - reflexivity.
  - intros c Hc Hin. apply list_elem_of_In in Hc, Hin. simpl in Hc, Hin.
    repeat (destruct Hc as [<-|Hc]; [intuition lia|]). destruct Hc.
  - destruct Hhidden as (h' & Hrun & _ & _ & Hnew & Hchn & Hch & _);
      [reflexivity|reflexivity|].
    exists h'. split; [exact Hrun|]. split; [exact Hch|].
    split; [exact Hchn|exact Hnew].
Defined.

(** ** The new [<style>] element *)

Lemma new_style_eq (h : Heap) txt :
  dom5.setTextContent (length h) txt (h ++ [dom5.newElement "style"]) =
  h ++ [style_node (S (length h)); style_text (length h) txt].
Proof.
  unfold dom5.setTextContent. rewrite node_alloc_new. simpl.
  rewrite length_app. simpl. rewrite <- app_assoc. simpl.
  replace (length h + 1) with (S (length h)) by lia.
  replace (length h) with (length h + 0) at 2 by lia.
  rewrite alter_app_r. reflexivity.
Qed.

Lemma node_alloc2_old (h : Heap) (x y : Node) j :
  j < length h -> (h ++ [x; y]) !!! j = h !!! j.
Proof. intros Hj. by rewrite lookup_total_app_l. Qed.

Lemma node_alloc2_first (h : Heap) (x y : Node) :
  (h ++ [x; y]) !!! length h = x.
Proof.
  rewrite lookup_total_app_r by lia. by rewrite Nat.sub_diag.
Qed.

Lemma node_alloc2_second (h : Heap) (x y : Node) :
  (h ++ [x; y]) !!! S (length h) = y.
Proof.
  rewrite lookup_total_app_r by lia.
  by replace (S (length h) - length h) with 1 by lia.
Qed.

Lemma length_alloc2 (h : Heap) (x y : Node) :
  length (h ++ [x; y]) = S (S (length h)).
Proof. rewrite length_app. simpl. lia. Qed.

(** [dom5.remove] on a node that hangs under a parent. *)
Lemma remove_attached h n p pre post :
  parentNode (h !!! n) = Some p ->
  childNodes (h !!! p) = pre ++ n :: post -> n ∉ pre ->
  let h' := dom5.remove n h in
  length h' = length h /\
  (forall j, payload (h' !!! j) = payload (h !!! j)) /\
  (forall j, childNodes (h' !!! j) =
             if decide (j = p) then pre ++ post else childNodes (h !!! j)) /\
  (forall j, parentNode (h' !!! j) =
             if decide (j = n) then None else parentNode (h !!! j)).
Proof.
  intros Hparent Hsplit Hpre h'. subst h'.
  split; [apply length_remove|]. split; [apply payload_remove|].
  split; [|apply parent_remove].
  intros j. rewrite children_remove, Hparent, Hsplit.
  by rewrite indexOf_first, splice_delete_at.
Qed.

Section InlineCssProperties.

Variable search : string -> string -> Z.
Variable K : constants.t.
Variable M : matchers.t.
Variable rewriteURL : string -> string -> string -> string.
Variable url_resolve : string -> string -> string.
Variable nodeWalkPrior : Heap -> nat -> (Node -> bool) -> Res (option nat).
Variable this : Vulcan.t.

(** X20. [inlineCss] on one stylesheet link. For a link with a [href],
    in a document with a URL: when the [href] is excluded nothing is
    asked of the loader, otherwise the stylesheet at the resolved URL is.
    An absent or empty answer leaves the document as it is. A non-empty
    answer for a link that is no Polymer external style puts a new
    [<style>] element in the place of the link, under the same parent
    and between the same neighbours (the blank text after the link
    stays); its one child is a text node holding a newline, the content
    with its URLs rewritten, wrapped in [@media <media> {...}] when the
    link has a non-empty [media] attribute, and a newline. The link is
    detached and no other node of the document changes. *)
Theorem inlineCss_on_one_stylesheet_link h href link src :
  dom5.getAttribute (h !!! link) "href" = Some src ->
  (exists excluded,
     isExcludedHref search K this (Some src) = Ok excluded /\
     css_request search K M url_resolve this h (Some href) link
     = Ok (if excluded : bool then None
           else Some (mkCssTask link
                        (dom5.getAttribute (h !!! link) "media")
                        (url_resolve href src) href
                        (matchers.polymerExternalStyle M (h !!! link))))) /\
  (forall t h',
     css_loaded rewriteURL nodeWalkPrior t None h' = Ok h' /\
     css_loaded rewriteURL nodeWalkPrior t (Some "") h' = Ok h') /\
  (forall t c h' p pre post,
     css_polymer t = false -> truthy_string c = true ->
     parentNode (h' !!! css_tag t) = Some p ->
     childNodes (h' !!! p) = pre ++ css_tag t :: post ->
     css_tag t ∉ pre ->
     let style := length h' in
     let txt := String.append newline
                  (String.append
                     (media_wrap (css_media t)
                        (rewriteURL (css_uri t) (css_href t) c))
                     newline) in
     exists h'',
       css_loaded rewriteURL nodeWalkPrior t (Some c) h' = Ok h'' /\
       length h'' = S (S (length h')) /\
       h'' !!! style =
         mkNode KElement "style" [] "" (Some p) [S style] None /\
       h'' !!! S style = style_text style txt /\
       childNodes (h'' !!! p) = pre ++ style :: post /\
       parentNode (h'' !!! css_tag t) = None /\
       (forall j, j < length h' ->
          payload (h'' !!! j) = payload (h' !!! j) /\
          (j <> p -> childNodes (h'' !!! j) = childNodes (h' !!! j)) /\
          (j <> css_tag t ->
           parentNode (h'' !!! j) = parentNode (h' !!! j)))).
Proof.
  intros Hsrc. split; [|split].
  - destruct (isExcludedHref_string search K this src) as [b Hb].
    exists b. split; [done|]. unfold css_request. by rewrite Hsrc, Hb.
  - intros t h'. split; reflexivity.
  - intros t c h' p pre post Hpoly Hc Hparent Hsplit Hpre style txt.
    assert (Htag : css_tag t < length h')
      by by apply (parent_Some_in_range h' _ p).
    assert (Hp : p < length h').
    { apply (children_nonempty_in_range h' p (css_tag t)).
      rewrite Hsplit. apply elem_of_app. right. left. }
    unfold css_loaded. rewrite Hc, Hpoly.
    unfold dom5.constructors.element, alloc. fold txt.
    rewrite new_style_eq.
    set (h2 := h' ++ [style_node (S (length h')); style_text (length h') txt]).
    assert (Hlen2 : length h2 = S (S (length h'))) by apply length_alloc2.
    assert (Hold : forall j, j < length h' -> h2 !!! j = h' !!! j)
      by (intros; by apply node_alloc2_old).
    assert (Hs2 : h2 !!! style = style_node (S (length h')))
      by apply node_alloc2_first.
    assert (Ht2 : h2 !!! S style = style_text (length h') txt)
      by apply node_alloc2_second.
    unfold dom5.replace. rewrite Hold, Hparent by done.
    rewrite (Hold p Hp), Hsplit, indexOf_first by done.
    assert (Hk : dom5.isDocumentFragment (h2 !!! style) = false)
      by by rewrite Hs2.
    assert (Hd : parentNode (h2 !!! style) = None) by by rewrite Hs2.
    assert (Hn : style < length h2) by (subst style; lia).
    assert (Hp2 : p < length h2) by lia.
    set (h3 := dom5.insertNode p (Z.of_nat (length pre)) style true h2).
    assert (Hlen : length h3 = length h2)
      by by apply length_insertNode_node.
    assert (Hpay : forall j, payload (h3 !!! j) = payload (h2 !!! j))
      by (intros; by apply payload_insertNode_node).
    assert (Hch : forall j, childNodes (h3 !!! j) =
              if decide (j = p)
              then splice (Z.of_nat (length pre)) 1 [style]
                     (childNodes (h2 !!! p))
              else childNodes (h2 !!! j))
      by (intros; by apply children_insertNode_node).
    assert (Hpa : forall j, parentNode (h3 !!! j) =
              if decide (at_index (childNodes (h2 !!! p))
                           (Z.of_nat (length pre)) = Some j) then None
              else if decide (j = style) then Some p
              else parentNode (h2 !!! j))
      by (intros; by apply parent_insertNode_node).
    rewrite (Hold p Hp), Hsplit in Hch, Hpa.
    rewrite splice_replace_at in Hch. rewrite at_index_length in Hpa.
    simpl in Hch.
    exists h3. split; [reflexivity|].
    assert (Hne_sp : style <> p) by (subst style; lia).
    assert (Hne_st : style <> css_tag t) by (subst style; lia).
    split; [lia|]. split; [|split; [|split; [|split]]].
    + apply node_eq_of_parts.
      * by rewrite Hpay, Hs2.
      * rewrite Hpa, decide_False by (intros [= ?]; done).
        by rewrite decide_True.
      * rewrite Hch, decide_False by done. by rewrite Hs2.
    + apply node_eq_of_parts.
      * by rewrite Hpay, Ht2.
      * rewrite Hpa, decide_False by (intros [= ?]; subst style; lia).
        rewrite decide_False by (subst style; lia). by rewrite Ht2.
      * rewrite Hch, decide_False by (subst style; lia). by rewrite Ht2.
    + by rewrite Hch, decide_True.
    + by rewrite Hpa, decide_True.
    + intros j Hj. split; [by rewrite Hpay, Hold|]. split.
      * intros Hjp. rewrite Hch, decide_False by done. by rewrite Hold.
      * intros Hjt. rewrite Hpa, decide_False by (intros [= ?]; done).
        rewrite decide_False by (subst style; lia). by rewrite Hold.
Qed.

End InlineCssProperties.

Lemma inlineCss_on_one_stylesheet_link_witness :
  css_request Sample.search Sample.K Sample.M Sample.url_resolve Sample.this
    Sample2.h_css (Some "index.html") 4
  = Ok (Some (mkCssTask 4 (Some "print") "a.css" "index.html" false)) /\
  exists h',
    css_loaded Sample2.rewriteURL Sample2.nodeWalkPrior
      (mkCssTask 4 (Some "print") "a.css" "index.html" false)
      (Some "body{}") Sample2.h_css = Ok h' /\
    childNodes (h' !!! 2) = [11; 5] /\
    h' !!! 11 = mkNode KElement "style" [] "" (Some 2) [12] None /\
    text (h' !!! 12) =
      String.append newline (String.append "@media print {body{}}" newline).
Proof.
  destruct (inlineCss_on_one_stylesheet_link Sample.search Sample.K Sample.M
              Sample2.rewriteURL Sample.url_resolve Sample2.nodeWalkPrior
              Sample.this Sample2.h_css "index.html" 4 "a.css" eq_refl)
    as ((excluded & Hex & Hreq) & _ & Hload).
  split.
  - rewrite Hreq. injection Hex as <-. reflexivity.
  - destruct (Hload (mkCssTask 4 (Some "print") "a.css" "index.html" false)
                "body{}" Sample2.h_css 2 [] [5])
      as (h' & Hrun & _ & Hstyle & Htext & Hch & _); try reflexivity.
    + intros Hin. inversion Hin.
    + exists h'. split; [exact Hrun|]. split; [exact Hch|].
      split; [exact Hstyle|]. exact (f_equal text Htext).
Defined.

Section PolymerStyles.

Variable rewriteURL : string -> string -> string -> string.
Variable nodeWalkPrior : Heap -> nat -> (Node -> bool) -> Res (option nat).

(** X21. A Polymer external style goes to the top of the template of
    its [dom-module]. With a non-empty answer of the loader, the new
    [<style>] element is created first. When no [dom-module] is found
    before the link, nothing else happens: the link stays and the
    stylesheet is not inlined. When the [dom-module] found has a
    template whose first child is there, the link is taken out of its
    parent (the blank text after it stays) and the [<style>] becomes the
    first child of that first child, before what it held. *)
Theorem polymer_style_goes_into_the_template t c h :
  css_polymer t = true -> truthy_string c = true ->
  let style := length h in
  let txt := String.append newline
               (String.append
                  (media_wrap (css_media t)
                     (rewriteURL (css_uri t) (css_href t) c))
                  newline) in
  let h2 := h ++ [style_node (S style); style_text style txt] in
  (nodeWalkPrior h2 (css_tag t) (dom5.hasTagName "dom-module") = Ok None ->
   css_loaded rewriteURL nodeWalkPrior t (Some c) h = Ok h2) /\
  (forall dm tpl f rest p pre post,
     nodeWalkPrior h2 (css_tag t) (dom5.hasTagName "dom-module")
     = Ok (Some dm) ->
     dom5.query h2 dm (dom5.hasTagName "template") = Ok (Some tpl) ->
     childNodes (h !!! tpl) = f :: rest -> f < length h ->
     parentNode (h !!! css_tag t) = Some p ->
     childNodes (h !!! p) = pre ++ css_tag t :: post ->
     css_tag t ∉ pre -> p <> tpl ->
     exists h',
       css_loaded rewriteURL nodeWalkPrior t (Some c) h = Ok h' /\
       length h' = S (S (length h)) /\
       (forall j, payload (h' !!! j) = payload (h2 !!! j)) /\
       childNodes (h' !!! f) =
         style :: (if decide (f = p) then pre ++ post
                   else childNodes (h !!! f)) /\
       (f <> p -> childNodes (h' !!! p) = pre ++ post) /\
       parentNode (h' !!! style) = Some f /\
       childNodes (h' !!! style) = [S style] /\
       h' !!! S style = style_text style txt /\
       parentNode (h' !!! css_tag t) = None /\
       (forall j, j < length h ->
          (j <> f -> j <> p ->
           childNodes (h' !!! j) = childNodes (h !!! j)) /\
          (j <> css_tag t ->
           parentNode (h' !!! j) = parentNode (h !!! j)))).
Proof.
  intros Hpoly Hc style txt h2.
  assert (Hrun : css_loaded rewriteURL nodeWalkPrior t (Some c) h =
            (owner ← nodeWalkPrior h2 (css_tag t)
                       (dom5.hasTagName "dom-module");
             match owner with
             | Some ownerDomModule =>
                 found ← dom5.query h2 ownerDomModule
                           (dom5.hasTagName "template");
                 let '(domTemplate, h3) :=
                   match found with
                   | Some domTemplate => (domTemplate, h2)
                   | None => new_template ownerDomModule h2
                   end in
                 let h4 := dom5.remove (css_tag t) h3 in
                 prepend (head (childNodes (h4 !!! domTemplate))) style h4
             | None => Ok h2
             end)).
  { unfold css_loaded. rewrite Hc, Hpoly.
    unfold dom5.constructors.element, alloc. fold txt.
    by rewrite new_style_eq. }
  split.
  - intros Hnone. by rewrite Hrun, Hnone.
  - intros dm tpl f rest p pre post Hdm Htpl Hf Hf_lt Hparent Hsplit Hpre
      Hp_tpl.
    rewrite Hrun, Hdm, bind_Ok, Htpl, bind_Ok. cbv zeta.
    assert (Htag : css_tag t < length h)
      by by apply (parent_Some_in_range h _ p).
    assert (Hp : p < length h).
    { apply (children_nonempty_in_range h p (css_tag t)).
      rewrite Hsplit. apply elem_of_app. right. left. }
    assert (Ht : tpl < length h).
    { apply (children_nonempty_in_range h tpl f). rewrite Hf. left. }
    assert (Hlen2 : length h2 = S (S (length h))) by apply length_alloc2.
    assert (Hold : forall j, j < length h -> h2 !!! j = h !!! j)
      by (intros; by apply node_alloc2_old).
    assert (Hs2 : h2 !!! style = style_node (S style))
      by apply node_alloc2_first.
    assert (Ht2 : h2 !!! S style = style_text style txt)
      by apply node_alloc2_second.
    destruct (remove_attached h2 (css_tag t) p pre post)
      as (Hlen4 & Hpay4 & Hch4 & Hpa4).
    { by rewrite Hold. }
    { by rewrite Hold. }
    { done. }
    set (h4 := dom5.remove (css_tag t) h2) in *.
    assert (Hhead : head (childNodes (h4 !!! tpl)) = Some f).
    { rewrite Hch4, decide_False by done. by rewrite Hold, Hf. }
    rewrite Hhead.
    assert (Hne_st : style <> css_tag t) by (subst style; lia).
    destruct (prepend_detached h4 f style)
      as (h' & Hok & Hlen & Hpay & Hch & Hpa).
    { by rewrite (payload_isDocumentFragment _ _ (Hpay4 style)), Hs2. }
    { rewrite Hpa4, decide_False by done. by rewrite Hs2. }
    { subst style. lia. }
    { lia. }
    exists h'. split; [exact Hok|]. split; [lia|].
    split; [intros; by rewrite Hpay, Hpay4|].
    assert (Hne_sf : style <> f) by (subst style; lia).
    assert (Hne_sp : style <> p) by (subst style; lia).
    split.
    { rewrite Hch, decide_True by done. rewrite Hch4.
      case_decide; [done|]. by rewrite Hold. }
    split.
    { intros Hfp. rewrite Hch, decide_False by done.
      by rewrite Hch4, decide_True. }
    split; [by rewrite Hpa, decide_True|].
    split.
    { rewrite Hch, decide_False by done.
      rewrite Hch4, decide_False by done. by rewrite Hs2. }
    split.
    { apply node_eq_of_parts.
      - by rewrite Hpay, Hpay4, Ht2.
      - rewrite Hpa, decide_False by (subst style; lia).
        rewrite Hpa4, decide_False by (subst style; lia). by rewrite Ht2.
      - rewrite Hch, decide_False by (subst style; lia).
        rewrite Hch4, decide_False by (subst style; lia). by rewrite Ht2. }
    split.
    { rewrite Hpa, decide_False by done. by rewrite Hpa4, decide_True. }
    intros j Hj. split.
    + intros Hjf Hjp. rewrite Hch, decide_False by done.
      rewrite Hch4, decide_False by done. by rewrite Hold.
    + intros Hjt. rewrite Hpa, decide_False by (subst style; lia).
      rewrite Hpa4, decide_False by done. by rewrite Hold.
Qed.

End PolymerStyles.

Lemma polymer_style_goes_into_the_template_witness :
  exists h',
    css_loaded Sample2.rewriteURL Sample2.nodeWalkPrior
      (mkCssTask 7 None "x-foo.css" "index.html" true) (Some "p{}")
      Sample2.h_css = Ok h' /\
    childNodes (h' !!! 9) = [11; 10] /\
    childNodes (h' !!! 6) = [8] /\
    parentNode (h' !!! 11) = Some 9 /\
    parentNode (h' !!! 7) = None.
Proof.
  destruct (polymer_style_goes_into_the_template Sample2.rewriteURL
              Sample2.nodeWalkPrior
              (mkCssTask 7 None "x-foo.css" "index.html" true) "p{}"
              Sample2.h_css eq_refl eq_refl) as [_ Htemplate].
  destruct (Htemplate 6 8 9 [] 6 [] [8])
    as (h' & Hrun & _ & _ & Hf & Hp & Hstyle & _ & _ & Hlink & _);
    try reflexivity.
  - simpl. lia.
  - intros Hin. inversion Hin.
  - lia.
  - exists h'. split; [exact Hrun|]. split; [exact Hf|].
    split; [apply Hp; lia|]. split; [exact Hstyle|exact Hlink].
Defined.

Section PolymerStyleTemplate.

Variable rewriteURL : string -> string -> string -> string.
Variable nodeWalkPrior : Heap -> nat -> (Node -> bool) -> Res (option nat).

(** X22. A [dom-module] without template gets one for its Polymer
    external style. Three nodes are created besides the [<style>] and
    its text: a [<template>] element, appended to the [dom-module] as its
    last child, and a document fragment, which is the one child of the
    template and holds the [<style>]. The fragment is pushed into the
    child list of the template as it is: it has no [parentNode]. The
    link is taken out of its parent, and [isTemplated] holds of the new
    [<style>]. *)
Theorem polymer_style_gets_a_new_template t c h dm p pre post :
  css_polymer t = true -> truthy_string c = true ->
  let style := length h in
  let tpl := S (S style) in
  let frag := S tpl in
  let txt := String.append newline
               (String.append
                  (media_wrap (css_media t)
                     (rewriteURL (css_uri t) (css_href t) c))
                  newline) in
  let h2 := h ++ [style_node (S style); style_text style txt] in
  nodeWalkPrior h2 (css_tag t) (dom5.hasTagName "dom-module")
  = Ok (Some dm) ->
  dom5.query h2 dm (dom5.hasTagName "template") = Ok None ->
  dm < length h ->
  parentNode (h !!! css_tag t) = Some p ->
  childNodes (h !!! p) = pre ++ css_tag t :: post ->
  css_tag t ∉ pre ->
  exists h',
    css_loaded rewriteURL nodeWalkPrior t (Some c) h = Ok h' /\
    length h' = length h + 4 /\
    (forall j, j < length h -> payload (h' !!! j) = payload (h !!! j)) /\
    payload (h' !!! tpl) = payload (dom5.newElement "template") /\
    payload (h' !!! frag) = payload dom5.newDocumentFragment /\
    childNodes (h' !!! dm) =
      (if decide (dm = p) then pre ++ post else childNodes (h !!! dm))
      ++ [tpl] /\
    (dm <> p -> childNodes (h' !!! p) = pre ++ post) /\
    parentNode (h' !!! tpl) = Some dm /\
    childNodes (h' !!! tpl) = [frag] /\
    parentNode (h' !!! frag) = None /\
    childNodes (h' !!! frag) = [style] /\
    parentNode (h' !!! style) = Some frag /\
    childNodes (h' !!! style) = [S style] /\
    h' !!! S style = style_text style txt /\
    parentNode (h' !!! css_tag t) = None /\
    isTemplated h' (Some style) = Ok true.
Proof.
  intros Hpoly Hc style tpl frag txt h2 Hdm Htpl Hdm_lt Hparent Hsplit Hpre.
  assert (Htag : css_tag t < length h)
    by by apply (parent_Some_in_range h _ p).
  assert (Hp : p < length h).
  { apply (children_nonempty_in_range h p (css_tag t)).
    rewrite Hsplit. apply elem_of_app. right. left. }
  assert (Hlen2 : length h2 = S (S (length h))) by apply length_alloc2.
  assert (Hold : forall j, j < length h -> h2 !!! j = h !!! j)
    by (intros; by apply node_alloc2_old).
  assert (Hs2 : h2 !!! style = style_node (S style))
    by apply node_alloc2_first.
  assert (Ht2 : h2 !!! S style = style_text style txt)
    by apply node_alloc2_second.
  (* the template and its fragment *)
  set (ha := h2 ++ [set_childNodes [frag] (dom5.newElement "template");
                    dom5.newDocumentFragment]).
  assert (Hnew : new_template dm h2 = (tpl, dom5.append dm tpl ha)).
  { unfold new_template, dom5.constructors.element,
      dom5.constructors.fragment, alloc.
    rewrite length_app, Hlen2. simpl.
    replace (S (S (length h)) + 1) with frag by (subst frag tpl style; lia).
    fold style. fold tpl. f_equal. f_equal. subst ha.
    rewrite <- app_assoc. simpl.
    replace tpl with (length h2 + 0) at 1 by (subst tpl style; lia).
    rewrite alter_app_r. simpl.
    replace (S (S (style + 1))) with frag by (subst frag tpl; lia).
    reflexivity. }
  assert (Hlena : length ha = length h + 4)
    by (subst ha; rewrite length_alloc2; lia).
  assert (Holda : forall j, j < length h2 -> ha !!! j = h2 !!! j)
    by (intros; by apply node_alloc2_old).
  assert (Hta : ha !!! tpl = set_childNodes [frag] (dom5.newElement "template")).
  { subst ha tpl style. rewrite <- Hlen2. apply node_alloc2_first. }
  assert (Hfa : ha !!! frag = dom5.newDocumentFragment).
  { subst ha frag tpl style. rewrite <- Hlen2. apply node_alloc2_second. }
  destruct (append_detached ha dm tpl) as (Hlen3 & Hpay3 & Hch3 & Hpa3).
  { by rewrite Hta. }
  { by rewrite Hta. }
  { subst tpl style. lia. }
  { lia. }
  set (h3 := dom5.append dm tpl ha) in *.
  assert (Hne_tp : tpl <> p) by (subst tpl style; lia).
  assert (Hne_td : tpl <> dm) by (subst tpl style; lia).
  (* the link goes *)
  set (l3 := (if decide (dm = p) then pre ++ css_tag t :: post ++ [tpl]
              else pre ++ css_tag t :: post)).
  assert (Hp3 : childNodes (h3 !!! p) =
            pre ++ css_tag t ::
              (post ++ if decide (dm = p) then [tpl] else [])).
  { rewrite Hch3. destruct (decide (dm = p)) as [->|Hne].
    - rewrite decide_True by done. rewrite Holda, Hold, Hsplit by lia.
      by rewrite <- app_assoc.
    - rewrite decide_False by done. rewrite Holda, Hold, Hsplit by lia.
      by rewrite app_nil_r. }
  destruct (remove_attached h3 (css_tag t) p pre
              (post ++ if decide (dm = p) then [tpl] else []))
    as (Hlen4 & Hpay4 & Hch4 & Hpa4).
  { rewrite Hpa3, decide_False by (subst tpl style; lia).
    by rewrite Holda, Hold by lia. }
  { exact Hp3. }
  { done. }
  set (h4 := dom5.remove (css_tag t) h3) in *.
  assert (Hhead : head (childNodes (h4 !!! tpl)) = Some frag).
  { rewrite Hch4, decide_False by done.
    rewrite Hch3, decide_False by done. by rewrite Hta. }
  assert (Hne_st : style <> css_tag t) by (subst style; lia).
  destruct (prepend_detached h4 frag style)
    as (h' & Hok & Hlen & Hpay & Hch & Hpa).
  { rewrite (payload_isDocumentFragment _ _ (Hpay4 style)).
    rewrite (payload_isDocumentFragment _ _ (Hpay3 style)).
    rewrite Holda by (subst style; lia). by rewrite Hs2. }
  { rewrite Hpa4, decide_False by done.
    rewrite Hpa3, decide_False by (subst tpl style; lia).
    rewrite Holda by (subst style; lia). by rewrite Hs2. }
  { subst style. lia. }
  { subst frag tpl style. lia. }
  assert (Hrun : css_loaded rewriteURL nodeWalkPrior t (Some c) h = Ok h').
  { unfold css_loaded. rewrite Hc, Hpoly.
    unfold dom5.constructors.element, alloc. fold txt.
    rewrite new_style_eq. fold style. fold h2.
    rewrite Hdm, bind_Ok, Htpl, bind_Ok, Hnew. cbv zeta. fold h3. fold h4.
    cbv beta iota. fold h3. fold h4. by rewrite Hhead. }
  assert (Hpayall : forall j, payload (h' !!! j) = payload (ha !!! j))
    by (intros; by rewrite Hpay, Hpay4, Hpay3).
  exists h'. split; [exact Hrun|]. split; [lia|].
  split.
  { intros j Hj. by rewrite Hpayall, Holda, Hold by lia. }
  split; [by rewrite Hpayall, Hta|].
  split; [by rewrite Hpayall, Hfa|].
  assert (Hne_fd : frag <> dm) by (subst frag tpl style; lia).
  assert (Hne_fp : frag <> p) by (subst frag tpl style; lia).
  assert (Hne_ft : frag <> tpl) by (subst frag; lia).
  assert (Hne_sf : style <> frag) by (subst frag tpl; lia).
  split.
  { rewrite Hch, decide_False by done. rewrite Hch4.
    destruct (decide (dm = p)) as [->|Hne].
    - by rewrite app_assoc.
    - rewrite Hch3, decide_True by done.
      by rewrite Holda, Hold by lia. }
  split.
  { intros Hne. rewrite Hch, decide_False by done.
    rewrite Hch4, decide_True by done.
    by rewrite decide_False, app_nil_r. }
  split.
  { rewrite Hpa, decide_False by (subst tpl; lia).
    rewrite Hpa4, decide_False by (subst tpl style; lia).
    by rewrite Hpa3, decide_True. }
  split.
  { rewrite Hch, decide_False by done.
    rewrite Hch4, decide_False by done.
    rewrite Hch3, decide_False by done. by rewrite Hta. }
  split.
  { rewrite Hpa, decide_False by done.
    rewrite Hpa4, decide_False by (subst frag tpl style; lia).
    rewrite Hpa3, decide_False by done. by rewrite Hfa. }
  split.
  { rewrite Hch, decide_True by done.
    rewrite Hch4, decide_False by done.
    rewrite Hch3, decide_False by done. by rewrite Hfa. }
  split; [by rewrite Hpa, decide_True|].
  split.
  { rewrite Hch, decide_False by done.
    rewrite Hch4, decide_False by (subst style; lia).
    rewrite Hch3, decide_False by (subst style; lia).
    rewrite Holda by (subst style; lia). by rewrite Hs2. }
  split.
  { apply node_eq_of_parts.
    - rewrite Hpayall, Holda by (subst style; lia). by rewrite Ht2.
    - rewrite Hpa, decide_False by (subst style; lia).
      rewrite Hpa4, decide_False by (subst style; lia).
      rewrite Hpa3, decide_False by (subst tpl; lia).
      rewrite Holda by (subst style; lia). by rewrite Ht2.
    - rewrite Hch, decide_False by (subst frag tpl; lia).
      rewrite Hch4, decide_False by (subst style; lia).
      rewrite Hch3, decide_False by (subst style; lia).
      rewrite Holda by (subst style; lia). by rewrite Ht2. }
  split.
  { rewrite Hpa, decide_False by done. by rewrite Hpa4, decide_True. }
  unfold isTemplated. rewrite isTemplated_fuel_generic.
  apply parent_walk_true_iff. exists 1, frag. split.
  - simpl. by rewrite Hpa, decide_True.
  - by rewrite (payload_isDocumentFragment _ _ (Hpayall frag)), Hfa.
Qed.

End PolymerStyleTemplate.

Lemma polymer_style_gets_a_new_template_witness :
  exists h',
    css_loaded Sample2.rewriteURL Sample2.nodeWalkPrior
      (mkCssTask 5 None "x-foo.css" "index.html" true) (Some "p{}")
      Sample2.h_css_bare = Ok h' /\
    childNodes (h' !!! 4) = [8] /\
    childNodes (h' !!! 8) = [9] /\
    childNodes (h' !!! 9) = [6] /\
    parentNode (h' !!! 9) = None /\
    isTemplated h' (Some 6) = Ok true.
Proof.
  destruct (polymer_style_gets_a_new_template Sample2.rewriteURL
              Sample2.nodeWalkPrior
              (mkCssTask 5 None "x-foo.css" "index.html" true) "p{}"
              Sample2.h_css_bare 4 4 [] [])
    as (h' & Hrun & _ & _ & _ & _ & Hdm & _ & _ & Htpl & Hfp & Hfc & _ & _ &
        _ & _ & Htemplated); try reflexivity.
  - simpl. lia.
  - intros Hin. inversion Hin.
  - exists h'. split; [exact Hrun|]. split; [exact Hdm|].
    split; [exact Htpl|]. split; [exact Hfc|]. split; [exact Hfp|].
    exact Htemplated.
Defined.

Section FlattenHead.

Variable search : string -> string -> Z.
Variable K : constants.t.
Variable M : matchers.t.
Variable pathResolver : PathResolver.t.
Variable this : Vulcan.t.

(** X23. What [flatten] does with the scripts and links of [<head>] in a
    document without imports (no fake external script, the path
    resolver leaving the document alone). In the main document, when
    there is at least one, they become the children, in their order, of
    one new hidden container, which is the first child of [<body>],
    before what [<body>] held. In an imported document there is no
    container: they become the first children of [<body>] themselves.
    In both cases none of them is left in [<head>], which keeps its
    other children in their order. *)
Theorem flatten_moves_head_scripts_to_body tree_href doc importNodes
  tree_imports h l hd b :
  descendants h doc = Ok l ->
  dom5.query h doc (matchers.head M) = Ok (Some hd) ->
  dom5.query h doc (matchers.body M) = Ok (Some b) ->
  hd <> b -> wf_children h hd ->
  (forall x, x ∈ l -> dom5.isElement (h !!! x) = true ->
     matchers.polymerElement M (h !!! x) = false) ->
  (forall x, x ∈ l -> truthy (inlined (h !!! x)) = false) ->
  PathResolver.acid pathResolver doc tree_href h = h ->
  tree_imports = None \/ tree_imports = Some [] ->
  let ns := filter (fun n => moveToBodyMatcher M (h !!! n) = true)
              (childNodes (h !!! hd)) in
  let mt := length h in
  let tree := mkImportTree tree_href (Some (mkHtml doc importNodes))
                tree_imports in
  (ns <> [] ->
   exists h',
     flatten search K M pathResolver this tree true h = Ok (doc, h') /\
     length h' = S (length h) /\
     (forall j, j < length h -> payload (h' !!! j) = payload (h !!! j)) /\
     payload (h' !!! mt) = payload hidden_div /\
     parentNode (h' !!! mt) = Some b /\
     childNodes (h' !!! b) = mt :: childNodes (h !!! b) /\
     childNodes (h' !!! mt) = ns /\
     (forall n, n ∈ ns -> parentNode (h' !!! n) = Some mt) /\
     sublist (childNodes (h' !!! hd)) (childNodes (h !!! hd)) /\
     (forall c, c ∈ childNodes (h' !!! hd) ->
        moveToBodyMatcher M (h !!! c) = false) /\
     (forall c, c ∈ childNodes (h !!! hd) ->
        moveToBodyMatcher M (h !!! c) = false ->
        isBlankTextNode h (Some c) = false ->
        c ∈ childNodes (h' !!! hd))) /\
  (exists h',
     flatten search K M pathResolver this tree false h = Ok (doc, h') /\
     length h' = S (length h) /\
     (forall j, j < length h -> payload (h' !!! j) = payload (h !!! j)) /\
     childNodes (h' !!! b) = ns ++ childNodes (h !!! b) /\
     childNodes (h' !!! mt) = [] /\
     (forall n, n ∈ ns -> parentNode (h' !!! n) = Some b) /\
     sublist (childNodes (h' !!! hd)) (childNodes (h !!! hd)) /\
     (forall c, c ∈ childNodes (h' !!! hd) ->
        moveToBodyMatcher M (h !!! c) = false) /\
     (forall c, c ∈ childNodes (h !!! hd) ->
        moveToBodyMatcher M (h !!! c) = false ->
        isBlankTextNode h (Some c) = false ->
        c ∈ childNodes (h' !!! hd))).
Proof.
  intros Hl Hhead Hbody Hne_hb Hwf Hold Hfake Hacid Himports ns mt tree.
  assert (Hb : b < length h).
  { apply query_found in Hbody as (_ & He & _). by apply element_in_range. }
  assert (Hhd : hd < length h).
  { apply query_found in Hhead as (_ & He & _). by apply element_in_range. }
  assert (Hrange : forall c, c ∈ childNodes (h !!! hd) -> c < length h)
    by (intros c; by apply wf_children_in_range).
  (* the run up to the relocation, for either kind of target *)
  assert (Hrun : forall isMainDoc : bool,
            let x := if isMainDoc then hidden_div
                     else dom5.newDocumentFragment in
            flatten search K M pathResolver this tree isMainDoc h =
            (h4 ← move_to_target mt ns (h ++ [x]);
             h5 ← prepend (Some b) mt h4;
             Ok (doc,
                 if isMainDoc && is_empty (childNodes (h5 !!! mt))
                 then dom5.remove mt h5 else h5))).
  { intros isMainDoc x. subst tree. simpl.
    rewrite Hhead, Hbody, !bind_Ok. unfold hasOldPolymer.
    rewrite (query_none h (matchers.polymerElement M) doc l Hl Hold).
    rewrite !bind_Ok.
    change (bool_decide (is_Some (@None nat))) with false. cbv iota.
    rewrite (fixFakeExternalScripts_unmarked M h doc l Hl Hfake), bind_Ok.
    rewrite Hacid.
    assert (Hmt : (if isMainDoc then new_hidden_div h
                   else dom5.constructors.fragment h) = (mt, h ++ [x])).
    { subst x. destruct isMainDoc; [apply new_hidden_div_eq|done]. }
    rewrite Hmt.
    assert (Hns : filter (fun n => moveToBodyMatcher M ((h ++ [x]) !!! n) = true)
                    (childNodes ((h ++ [x]) !!! hd)) = ns).
    { rewrite node_alloc_old by done. subst ns.
      apply filter_ext_in. intros c Hc.
      by rewrite node_alloc_old by by apply Hrange. }
    rewrite Hns.
    destruct (move_to_target mt ns (h ++ [x])) as [h4|e];
      [rewrite !bind_Ok|reflexivity].
    unfold prepend.
    destruct (childNodes (h4 !!! b)); rewrite !bind_Ok;
      by destruct Himports as [-> | ->]. }
  (* the relocation *)
  assert (Hmove : forall x : Node,
            exists h4,
              move_to_target mt ns (h ++ [x]) = Ok h4 /\
              length h4 = S (length h) /\
              (forall j, payload (h4 !!! j) = payload ((h ++ [x]) !!! j)) /\
              childNodes (h4 !!! mt) = childNodes x ++ ns /\
              (forall n, n ∈ ns -> parentNode (h4 !!! n) = Some mt) /\
              sublist (childNodes (h4 !!! hd)) (childNodes (h !!! hd)) /\
              (forall c, c ∈ childNodes (h4 !!! hd) -> c ∉ ns) /\
              (forall c, c ∈ childNodes (h !!! hd) ->
                 moveToBodyMatcher M (h !!! c) = false ->
                 isBlankTextNode h (Some c) = false ->
                 c ∈ childNodes (h4 !!! hd)) /\
              childNodes (h4 !!! b) = childNodes (h !!! b) /\
              parentNode (h4 !!! mt) = parentNode x).
  { intros x.
    assert (Hne_mh : mt <> hd) by (subst mt; lia).
    destruct (move_to_target_spec hd mt Hne_mh ns (h ++ [x]))
      as (h4 & Hok & Hlen4 & Hpay4 & Hmtc & Hpar & _ & Hsl & Hnot & Hstay &
          Hframe & Hpframe).
    { by apply wf_children_alloc. }
    { subst mt. rewrite length_app. simpl. lia. }
    { apply NoDup_filter, Hwf. }
    { intros [_ Hin]%list_elem_of_filter. apply Hrange in Hin.
      subst mt. lia. }
    { intros n [Hm Hin]%list_elem_of_filter.
      rewrite !node_alloc_old by (done || by apply Hrange).
      split; [done|].
      apply moveToBodyMatcher_is_element in Hm.
      unfold dom5.isElement, dom5.isTextNode, dom5.isDocumentFragment in *.
      apply bool_decide_eq_true in Hm.
      split; apply bool_decide_eq_false; congruence. }
    exists h4. split; [exact Hok|].
    split; [rewrite Hlen4, length_app; simpl; lia|].
    split; [exact Hpay4|].
    split; [by rewrite Hmtc; subst mt; rewrite node_alloc_new|].
    split; [exact Hpar|].
    split; [by rewrite node_alloc_old in Hsl|].
    split; [exact Hnot|]. split.
    { intros c Hc Hm Hblank. apply Hstay.
      - by rewrite node_alloc_old.
      - intros [Hm' _]%list_elem_of_filter. congruence.
      - rewrite isBlankTextNode_alloc; [done|by apply Hrange]. }
    split.
    - rewrite Hframe by (done || subst mt; lia). by rewrite node_alloc_old.
    - rewrite Hpframe.
      + subst mt. by rewrite node_alloc_new.
      + rewrite node_alloc_old by done. intros Hin%Hrange. subst mt. lia. }
  assert (Hnone : forall h' : Heap,
            sublist (childNodes (h' !!! hd)) (childNodes (h !!! hd)) ->
            (forall c, c ∈ childNodes (h' !!! hd) -> c ∉ ns) ->
            forall c, c ∈ childNodes (h' !!! hd) ->
              moveToBodyMatcher M (h !!! c) = false).
  { intros h' Hsl Hnot c Hc.
    destruct (moveToBodyMatcher M (h !!! c)) eqn:Hm; [|done].
    exfalso. apply (Hnot c Hc). apply list_elem_of_filter. split; [done|].
    by apply (elem_of_sublist _ _ _ Hc Hsl). }
  split.
  - intros Hsome. rewrite (Hrun true). cbv zeta.
    destruct (Hmove hidden_div)
      as (h4 & -> & Hlen4 & Hpay4 & Hmtc & Hpar & Hsl & Hnot & Hstay4 &
          Hb4 & Hmtp).
    rewrite bind_Ok.
    destruct (prepend_detached h4 b mt)
      as (h5 & -> & Hlen5 & Hpay5 & Hch5 & Hpa5).
    { rewrite (payload_isDocumentFragment _ _ (Hpay4 mt)).
      subst mt. by rewrite node_alloc_new. }
    { by rewrite Hmtp. }
    { subst mt. lia. }
    { lia. }
    rewrite bind_Ok.
    assert (Hne_mb : mt <> b) by (subst mt; lia).
    assert (Hne_mh : mt <> hd) by (subst mt; lia).
    assert (Hmt5 : childNodes (h5 !!! mt) = ns).
    { rewrite Hch5, decide_False by done. by rewrite Hmtc. }
    rewrite Hmt5.
    assert (Hne : is_empty ns = false) by by destruct ns.
    rewrite Hne. simpl. eexists. split; [reflexivity|].
    split; [lia|]. split.
    { intros j Hj. by rewrite Hpay5, Hpay4, node_alloc_old. }
    split.
    { rewrite Hpay5, Hpay4. subst mt. by rewrite node_alloc_new. }
    split; [by rewrite Hpa5, decide_True|].
    split; [by rewrite Hch5, decide_True, Hb4|].
    split; [done|]. split.
    { intros n Hn. rewrite Hpa5, decide_False; [by apply Hpar|].
      intros ->. apply list_elem_of_filter in Hn as [_ Hn].
      apply Hrange in Hn. subst mt. lia. }
    assert (Hhd5 : childNodes (h5 !!! hd) = childNodes (h4 !!! hd))
      by by rewrite Hch5, decide_False.
    rewrite Hhd5. split; [done|]. split; [by apply (Hnone h4)|done].
  - rewrite (Hrun false). cbv zeta.
    destruct (Hmove dom5.newDocumentFragment)
      as (h4 & -> & Hlen4 & Hpay4 & Hmtc & Hpar & Hsl & Hnot & Hstay4 &
          Hb4 & Hmtp).
    rewrite bind_Ok.
    assert (Hne_mb : mt <> b) by (subst mt; lia).
    assert (Hne_mh : mt <> hd) by (subst mt; lia).
    destruct (prepend_fragment h4 b mt)
      as (h5 & -> & Hlen5 & Hpay5 & Hch5 & Hpa5).
    { rewrite (payload_isDocumentFragment _ _ (Hpay4 mt)).
      subst mt. by rewrite node_alloc_new. }
    { subst mt. lia. }
    { lia. }
    { done. }
    rewrite bind_Ok. simpl in Hmtc. rewrite Hmtc in Hch5, Hpa5.
    change (false && is_empty (childNodes (h5 !!! mt))) with false.
    cbv iota.
    eexists. split; [reflexivity|]. split; [lia|]. split.
    { intros j Hj. by rewrite Hpay5, Hpay4, node_alloc_old. }
    split; [by rewrite Hch5, decide_True, Hb4|].
    split.
    { rewrite Hch5, decide_False by done. by rewrite decide_True. }
    split.
    { intros n Hn. rewrite Hpa5, decide_True; [done|]. split; [done|].
      apply list_elem_of_filter in Hn as [_ Hn]. apply Hrange in Hn. lia. }
    assert (Hhd5 : childNodes (h5 !!! hd) = childNodes (h4 !!! hd)).
    { rewrite Hch5, decide_False by done. by rewrite decide_False. }
    rewrite Hhd5. split; [done|]. split; [by apply (Hnone h4)|done].
Qed.

(** X24. The added imports come first in [<head>], last one first. With
    a [<head>] in the flattened document, the flatten stage of
    [_process] puts one [<link rel="import">] for each entry of
    [addedImports] at the top of [<head>], each before the ones added
    before it, and then the [<meta charset>], if there was none, before
    them all. The children [<head>] had follow in their order, and no
    other node of the document changes. *)
Theorem added_imports_come_first_in_reverse flatDoc h r hd :
  dom5.query h flatDoc (matchers.meta M) = Ok r ->
  dom5.query h flatDoc (matchers.head M) = Ok (Some hd) ->
  let n := length (Vulcan.addedImports this) in
  exists h',
    ensure_meta M this flatDoc h = Ok h' /\
    childNodes (h' !!! hd) =
      match r with None => [length h + n] | Some _ => [] end ++
      reverse (seq (length h) n) ++ childNodes (h !!! hd) /\
    (forall i url, Vulcan.addedImports this !! i = Some url ->
       payload (h' !!! (length h + i)) = payload (link_node url) /\
       parentNode (h' !!! (length h + i)) = Some hd) /\
    (forall j, j < length h -> j <> hd -> h' !!! j = h !!! j).
Proof.
  intros Hmeta Hhead n. unfold ensure_meta. rewrite Hmeta, Hhead.
  rewrite !bind_Ok.
  destruct (query_found _ _ _ _ Hhead) as (_ & Hel_hd & _).
  pose proof (element_in_range _ _ Hel_hd) as Hhd.
  destruct (add_imports_spec hd (Vulcan.addedImports this) h Hhd)
    as (h1 & -> & Hlen1 & Hpay1 & Hpa1 & Hch1 & Hnew1).
  rewrite bind_Ok. fold n in Hlen1, Hch1.
  destruct r as [e|].
  - exists h1. split; [done|]. split.
    { rewrite Hch1 by done. by rewrite decide_True. }
    split; [exact Hnew1|].
    intros j Hj Hne. apply node_eq_of_parts; [by apply Hpay1|by apply Hpa1|].
    rewrite Hch1 by done. by rewrite decide_False.
  - unfold dom5.constructors.element, alloc. rewrite new_meta_eq.
    destruct (prepend_new h1 meta_node hd)
      as (h2 & -> & Hlen2 & Hpay2 & Hpa2 & Hch2 & Hnp & Hnpa & Hnch);
      [done|done|lia|].
    exists h2. split; [done|]. split.
    { rewrite Hch2 by lia. rewrite decide_True by done.
      rewrite Hch1 by done. rewrite decide_True by done.
      by rewrite Hlen1. }
    split.
    { intros i url Hi. pose proof (lookup_lt_Some _ _ _ Hi) as Hlt.
      fold n in Hlt. rewrite Hpay2, Hpa2 by lia. by apply Hnew1. }
    intros j Hj Hne. apply node_eq_of_parts.
    + rewrite Hpay2 by lia. by apply Hpay1.
    + rewrite Hpa2 by lia. by apply Hpa1.
    + rewrite Hch2 by lia. rewrite decide_False by done.
      rewrite Hch1 by done. by rewrite decide_False.
Qed.

End FlattenHead.

Lemma flatten_moves_head_scripts_to_body_witness :
  (exists h',
     flatten Sample.search Sample.K Sample.M Sample.pathResolver Sample.this
       Sample2.t_head true Sample2.h_head = Ok (0, h') /\
     childNodes (h' !!! 3) = [8; 7] /\
     childNodes (h' !!! 8) = [4; 6] /\
     childNodes (h' !!! 2) = [5]) /\
  (exists h',
     flatten Sample.search Sample.K Sample.M Sample.pathResolver Sample.this
       Sample2.t_head false Sample2.h_head = Ok (0, h') /\
     childNodes (h' !!! 3) = [4; 6; 7] /\
     childNodes (h' !!! 2) = [5]).
Proof.
  destruct (flatten_moves_head_scripts_to_body Sample.search Sample.K
              Sample.M Sample.pathResolver Sample.this (Some "page.html") 0
              [] None Sample2.h_head [0; 1; 2; 4; 5; 6; 3; 7] 2 3)
    as [Hmain Himport].
  - reflexivity.
  - reflexivity.
  - reflexivity.
  - lia.
  - apply wf_children_b_sound. reflexivity.
  - intros x Hx _. apply list_elem_of_In in Hx. simpl in Hx.
    repeat (destruct Hx as [<-|Hx]; [reflexivity|]). destruct Hx.
  - intros x Hx. apply list_elem_of_In in Hx. simpl in Hx.
    repeat (destruct Hx as [<-|Hx]; [reflexivity|]). destruct Hx.
  - reflexivity.
  - left. reflexivity.
  - split.
    + destruct Hmain as (h' & Hrun & _); [discriminate|].
      exists h'. split; [exact Hrun|].
      vm_compute in Hrun. injection Hrun as <-. repeat split.
    + destruct Himport as (h' & Hrun & _).
      exists h'. split; [exact Hrun|].
      vm_compute in Hrun. injection Hrun as <-. repeat split.
Defined.

Lemma added_imports_come_first_in_reverse_witness :
  exists h',
    ensure_meta Sample.M Sample2.this_added 0 Sample.h0 = Ok h' /\
    childNodes (h' !!! 2) = [17; 16; 15; 4; 5] /\
    payload (h' !!! 15) = payload (link_node "first.html") /\
    payload (h' !!! 16) = payload (link_node "second.html").
Proof.
  destruct (added_imports_come_first_in_reverse Sample.M Sample2.this_added
              0 Sample.h0 None 2 eq_refl eq_refl)
    as (h' & Hrun & Hch & Hnew & _).
  exists h'. split; [exact Hrun|]. split; [exact Hch|].
  split.
  - apply (Hnew 0 "first.html"). reflexivity.
  - apply (Hnew 1 "second.html"). reflexivity.
Defined.
